(** * Patina & Weathering morphospace engine: a shallow embedding

    This development embeds the geometric core of
    [patina_weathering_mcp.py] (parameter space, distance and
    nearest-neighbour classification, two-point interpolation, rhythmic
    sequence generation, vocabulary selection and attractor prompt
    assembly) and states its documented properties.

    Conventions of the embedding.
    - A Python [float] is a real number of [R]: arithmetic is exact, so
      statements about equality are statements of real arithmetic;
      [math.cos], [math.pi] and [math.sqrt] are [cos], [PI] and [sqrt].
    - A Python [int] is a [Z].
    - A coordinate ([Dict[str, float]]) is a [gmap string R]; the ordered
      catalogs, whose iteration order is observable, are association lists.
    - A raised Python exception is the [Raise] branch of the [res] monad.
    - A tool returns, in the source, [json.dumps] of a dictionary; here it
      returns that dictionary as a [json] value. *)

From Stdlib Require Import Reals Lra Lia ZArith String Ascii List R_Ifp.
From stdpp Require Import gmap strings list fin_maps.

Local Open Scope string_scope.
Local Open Scope R_scope.

(** ** Exceptions and the result monad *)

Inductive exn : Type :=
  | KeyError (key : string)
  | IndexError
  | ZeroDivisionError.

Inductive res (A : Type) : Type :=
  | Ret (a : A)
  | Raise (e : exn).
Arguments Ret {A} a.
Arguments Raise {A} e.

#[global] Instance res_ret : MRet res := λ A a, Ret a.
#[global] Instance res_bind : MBind res := λ A B f m,
  match m with
  | Ret a => f a
  | Raise e => Raise e
  end.


(** ** Decidable comparisons on floats *)

#[global] Instance Rlt_decision (x y : R) : Decision (x < y) := Rlt_dec x y.
#[global] Instance Rle_decision (x y : R) : Decision (x <= y) := Rle_dec x y.
#[global] Instance Req_decision : EqDecision R := Req_dec_T.

(** A float that may be [float("inf")], as the running minimum of the
    nearest-neighbour scans is. *)
Inductive xfloat : Type :=
  | Fin (r : R)
  | Inf.

(** [d < best] for a finite [d]. *)
Definition lt_xfloat (d : R) (best : xfloat) : bool :=
  match best with
  | Inf => true
  | Fin b => bool_decide (d < b)
  end.

(** ** Python numeric built-ins *)

(** [round(x)]: nearest integer, ties to the even one. *)
Definition py_round (x : R) : Z :=
  let f := Zfloor x in
  let r := x - IZR f in
  if decide (r < 0.5) then f
  else if decide (0.5 < r) then (f + 1)%Z
  else if Z.even f then f else (f + 1)%Z.

(** [round(x, 4)]. *)
Definition round4 (x : R) : R := IZR (py_round (x * 10000)) / 10000.

Definition round4_x (x : xfloat) : xfloat :=
  match x with
  | Fin r => Fin (round4 r)
  | Inf => Inf
  end.

(** [x / y] on two ints (true division). *)
Definition py_truediv (x y : Z) : res R :=
  if decide (y = 0%Z) then Raise ZeroDivisionError else Ret (IZR x / IZR y).

(** [x // y] on two ints (floor division); [Z.div] rounds towards minus
    infinity as Python does. *)
Definition py_floordiv (x y : Z) : res Z :=
  if decide (y = 0%Z) then Raise ZeroDivisionError else Ret (x / y)%Z.

(** [x % y] on two ints; the result has the sign of [y], as [Z.modulo]. *)
Definition py_mod (x y : Z) : res Z :=
  if decide (y = 0%Z) then Raise ZeroDivisionError else Ret (x mod y)%Z.

(** [x % 1.0] on a float: the result lies in [[0, 1)]. *)
Definition py_fmod1 (x : R) : R := x - IZR (Zfloor x).

(** [l[i]] on a list: negative indices count from the end. *)
Definition py_index {A} (l : list A) (i : Z) : res A :=
  let n := Z.of_nat (length l) in
  let j := if decide (i < 0)%Z then (i + n)%Z else i in
  if decide (j < 0)%Z then Raise IndexError
  else match l !! Z.to_nat j with
       | Some x => Ret x
       | None => Raise IndexError
       end.

(** [d[k]] on a dict. *)
Definition getitem {V} (d : gmap string V) (k : string) : res V :=
  match d !! k with
  | Some v => Ret v
  | None => Raise (KeyError k)
  end.

(** [d[k]] on an insertion-ordered dict kept as an association list. *)
Fixpoint assoc {V} (l : list (string * V)) (k : string) : option V :=
  match l with
  | [] => None
  | (k', v) :: l' => if String.eqb k k' then Some v else assoc l' k
  end.

Definition getitem_assoc {V} (l : list (string * V)) (k : string) : res V :=
  match assoc l k with
  | Some v => Ret v
  | None => Raise (KeyError k)
  end.

(** [{p: f(p) for p in keys}]. *)
Fixpoint dict_comp {V} (keys : list string) (f : string → res V)
    (acc : gmap string V) : res (gmap string V) :=
  match keys with
  | [] => Ret acc
  | p :: keys' => v ← f p; dict_comp keys' f (<[p := v]> acc)
  end.

(** [list(dict.fromkeys(l))], and the [seen]/[unique] loops of the prompt
    builders: the first occurrence of every element, in order. *)
Fixpoint unique_from (seen : list string) (l : list string) : list string :=
  match l with
  | [] => []
  | x :: l' =>
      if bool_decide (x ∈ seen) then unique_from seen l'
      else x :: unique_from (x :: seen) l'
  end.

Definition unique (l : list string) : list string := unique_from [] l.

(** [range(n)] for an int [n]: empty when [n <= 0]. *)
Definition py_range (n : Z) : list Z := Z.of_nat <$> seq 0 (Z.to_nat n).

(** A [for] loop that appends one value per iteration and stops at the
    first exception. *)
Fixpoint for_each {A B} (l : list A) (body : A → res B) : res (list B) :=
  match l with
  | [] => Ret []
  | x :: l' => y ← body x; ys ← for_each l' body; Ret (y :: ys)
  end.

(** ** Parameter space *)

Definition PATINA_PARAMETER_NAMES : list string :=
  [ "exposure_duration"; "agent_intensity"; "material_resistance";
    "intervention_state"; "aesthetic_character" ].

Definition PATINA_PARAMETER_BOUNDS : R * R := (0.0, 1.0).

(** The dict literal with the five axes, in the order the source writes
    them. *)
Definition mk_state (e g r i c : R) : gmap string R :=
  list_to_map
    [ ("exposure_duration", e); ("agent_intensity", g);
      ("material_resistance", r); ("intervention_state", i);
      ("aesthetic_character", c) ].

(** A valid coordinate defines exactly the five axes, each within the
    bounds. *)
Definition valid_coordinate (s : gmap string R) : Prop :=
  dom s = list_to_set PATINA_PARAMETER_NAMES ∧
  ∀ p v, s !! p = Some v →
    fst PATINA_PARAMETER_BOUNDS <= v <= snd PATINA_PARAMETER_BOUNDS.

(** ** Interpolation *)

(** The blend weight that [_patina_interpolate_states] binds to [alpha]. *)
Definition interpolation_alpha (t : R) (pattern : string) : R :=
  if String.eqb pattern "sinusoidal" then 0.5 * (1.0 - cos (PI * t))
  else if String.eqb pattern "triangular" then
    (if decide (t <= 0.5) then 2.0 * t else 2.0 * (1.0 - t))
  else if String.eqb pattern "square" then
    (if decide (t < 0.5) then 0.0 else 1.0)
  else t.

Definition _patina_interpolate_states (state_a state_b : gmap string R)
    (t : R) (pattern : string) : res (gmap string R) :=
  let alpha := interpolation_alpha t pattern in
  dict_comp PATINA_PARAMETER_NAMES
    (λ p, a ← getitem state_a p; b ← getitem state_b p;
          Ret (a + alpha * (b - a)))
    ∅.

(** ** Catalogs *)

(** An entry of [PATINA_VISUAL_TYPES]. *)
Record visual_type : Type := {
  center : gmap string R;
  keywords : list string;
  optical : list (string * string);
  color_associations : list string;
}.

(** An entry of [PATINA_RHYTHMIC_PRESETS]. *)
Record preset : Type := {
  p_period : Z;
  p_state_a : string;
  p_state_b : string;
  p_pattern : string;
  p_description : string;
}.

(** An entry of [PATINA_ATTRACTOR_PRESETS]; [basin_size] may be [None]. *)
Record attractor : Type := {
  a_name : string;
  a_description : string;
  a_basin_size : option R;
  a_classification : string;
  a_source_domains : list string;
  a_state : gmap string R;
}.

Definition PATINA_CANONICAL_STATES : list (string * gmap string R) :=
  [ ("fresh_pristine", mk_state 0.00 0.00 0.50 0.00 0.50);
    ("gentle_patina", mk_state 0.30 0.20 0.60 0.05 0.85);
    ("noble_verdigris", mk_state 0.60 0.45 0.75 0.10 0.95);
    ("deep_rust", mk_state 0.55 0.70 0.40 0.05 0.55);
    ("stone_erosion", mk_state 0.70 0.55 0.65 0.15 0.75);
    ("paper_foxing", mk_state 0.45 0.35 0.15 0.20 0.60);
    ("cracked_glaze", mk_state 0.50 0.40 0.55 0.10 0.80);
    ("total_ruin", mk_state 0.95 0.90 0.30 0.00 0.40) ].

Definition PATINA_VISUAL_TYPES : list (string * visual_type) :=
  [ ("pristine_surface",
     {| center := mk_state 0.05 0.05 0.50 0.05 0.50;
        keywords :=
          [ "unmarked factory-fresh surface with original tool marks visible";
            "uniform material colour with no environmental alteration";
            "sharp machined edges and crisp geometric arrises";
            "consistent reflectance across all surface orientations";
            "material grain or texture as manufactured without overlay" ];
        optical :=
          [ ("finish", "original_manufactured");
            ("scatter", "uniform_material");
            ("transparency", "as_made") ];
        color_associations :=
          [ "clean whites";
            "bright metallics";
            "saturated original pigment";
            "uniform substrate colour" ] |});
    ("warm_aged",
     {| center := mk_state 0.30 0.20 0.60 0.05 0.85;
        keywords :=
          [ "gentle honey-toned warmth from UV-mellowed surface";
            "soft wear at high-contact points revealing substrate warmth";
            "time-enriched surface depth from accumulated micro-interactions";
            "wabi-sabi imperfection enhancing material character and presence";
            "subtle tonal gradation from sheltered-to-exposed transition zones" ];
        optical :=
          [ ("finish", "mellowed_satin");
            ("scatter", "soft_diffuse");
            ("transparency", "surface_depth") ];
        color_associations :=
          [ "honey amber";
            "warm ivory";
            "burnished gold";
            "mellowed cream";
            "antique white" ] |});
    ("oxidation_bloom",
     {| center := mk_state 0.55 0.55 0.55 0.08 0.75;
        keywords :=
          [ "chemical transformation colour visible as surface bloom";
            "verdigris green or rust orange oxide layer over base metal";
            "mottled transition zone where old and new surface coexist";
            "drip-streak staining below oxidation source tracking water path";
            "stable protective patina crust with crystalline micro-texture" ];
        optical :=
          [ ("finish", "oxide_matte");
            ("scatter", "crystalline_micro");
            ("transparency", "opaque_crust") ];
        color_associations :=
          [ "verdigris green";
            "rust orange-brown";
            "tarnish purple-black";
            "oxide red-black";
            "patina blue-green" ] |});
    ("erosion_sculpted",
     {| center := mk_state 0.70 0.60 0.60 0.12 0.70;
        keywords :=
          [ "material subtracted by environmental forces revealing inner structure";
            "rounded edges and dissolved detail softening original geometry";
            "differential erosion where hard and soft zones meet creating relief";
            "honeycomb tafoni cavities carved by salt crystallization cycles";
            "biological colonization establishing in erosion-prepared niches" ];
        optical :=
          [ ("finish", "rough_textured");
            ("scatter", "deep_shadow_cavity");
            ("transparency", "opaque_solid") ];
        color_associations :=
          [ "weathered grey";
            "lichen orange";
            "moss green";
            "exposed substrate pink-buff";
            "desert varnish brown-black" ] |});
    ("fracture_network",
     {| center := mk_state 0.50 0.45 0.45 0.10 0.75;
        keywords :=
          [ "craquelure network dividing surface into irregular polygonal cells";
            "stained crack lines recording moisture penetration history";
            "delamination edge where coating lifts from substrate in curved flakes";
            "conchoidal chip scars exposing fresh substrate colour beneath";
            "alligator-pattern deep cracking from cyclic stress accumulation" ];
        optical :=
          [ ("finish", "cracked_gloss");
            ("scatter", "linear_shadow_network");
            ("transparency", "layered_partial") ];
        color_associations :=
          [ "craze-stained amber";
            "chip-white substrate";
            "dark crack-line web";
            "peeling curl shadow";
            "glaze pool variation" ] |});
    ("archaeological_layer",
     {| center := mk_state 0.90 0.80 0.35 0.05 0.45;
        keywords :=
          [ "multiple temporal states visible simultaneously in cross-section";
            "fragmentary remains with substrate weathered through to core";
            "paint ghosts and stain shadows recording vanished surface layers";
            "advanced biological integration — material becoming landscape";
            "structural collapse geometry revealing internal construction" ];
        optical :=
          [ ("finish", "friable_rough");
            ("scatter", "deep_multi_layer");
            ("transparency", "fragmentary_void") ];
        color_associations :=
          [ "earth tones";
            "ash grey";
            "bone white";
            "charcoal black";
            "mineral stain ochre" ] |}) ].

Definition PATINA_VISUAL_VOCABULARY : list (string * list string) :=
  [ ("surface_texture",
     [ "pristine smooth surface with original manufactured finish";
       "slight softening of edges from initial environmental contact";
       "developing surface irregularity with micro-texture formation";
       "established rough texture with tactile grain and character";
       "deep surface relief with cavities and raised formations";
       "friable crumbling surface losing structural coherence";
       "granular disaggregation — surface dissolving grain by grain";
       "total surface loss exposing weathered substrate core" ]);
    ("color_transformation",
     [ "original material colour unaltered by environment";
       "slight warmth from initial UV mellowing";
       "noticeable colour shift — tarnish warmth or bleaching cool";
       "developed oxide/patina colour overlaying original";
       "dominant new colour from chemical transformation products";
       "mottled patchwork of multiple weathering colour zones";
       "deep complex colour from layered weathering products";
       "fully transformed — no original colour remaining" ]);
    ("structural_integrity",
     [ "perfect structural condition — no cracks or deformation";
       "hairline surface cracks not affecting structure";
       "developed crack network with minor delamination beginning";
       "active cracking with measurable displacement at joints";
       "significant delamination — sections lifting from substrate";
       "structural weakness — load-bearing capacity compromised";
       "partial collapse — sections lost with remainder unstable";
       "fragmentary remains — structural system no longer functions" ]);
    ("biological_colonization",
     [ "sterile surface — no biological growth present";
       "initial algal greening on damp shaded areas";
       "scattered lichen pioneer colonies establishing";
       "developed lichen communities with multiple species";
       "moss cushions and higher plant colonization in crevices";
       "significant vegetation cover obscuring substrate";
       "dense biological mat — surface largely hidden";
       "full ecological integration — material becoming habitat" ]);
    ("light_interaction",
     [ "original reflectance — specular or diffuse as manufactured";
       "slight gloss reduction from surface micro-roughening";
       "matte surface where weathering products scatter light";
       "complex scatter from mixed rough and smooth zones";
       "deep shadow in erosion cavities and crack networks";
       "subsurface glow through translucent patina layers";
       "iridescent interference colours from thin oxide films";
       "light-absorbing friable surface with minimal reflectance" ]);
    ("temporal_evidence",
     [ "no visible time markers — could have been made yesterday";
       "subtle signs of age — gentle wear at contact points";
       "clear evidence of years of exposure and use";
       "decades of accumulated environmental interaction visible";
       "multi-generational time depth with repair evidence";
       "century-scale weathering with multiple intervention layers";
       "deep archaeological time — centuries of exposure";
       "geological time markers — millennia of environmental action" ]) ].

Definition PATINA_RHYTHMIC_PRESETS : list (string * preset) :=
  [ ("aging_cycle",
     {| p_period := 16; p_state_a := "fresh_pristine"; p_state_b := "deep_rust";
        p_pattern := "triangular";
        p_description :=
          "Brand-new surface aging into aggressive oxidation and back — "
          +:+ "the full lifecycle of ferrous metal under exposure. Unique "
          +:+ "period 16 fills gap between splash(14) and shared-18 domains "
          +:+ "for novel beat frequencies." |});
    ("restoration_pendulum",
     {| p_period := 20; p_state_a := "total_ruin"; p_state_b := "gentle_patina";
        p_pattern := "sinusoidal";
        p_description :=
          "Ruin state being gently restored toward dignified age — "
          +:+ "the conservation oscillation between decay and intervention. "
          +:+ "Syncs with common period 20 across multiple domains." |});
    ("oxidation_bloom",
     {| p_period := 24; p_state_a := "fresh_pristine"; p_state_b := "noble_verdigris";
        p_pattern := "sinusoidal";
        p_description :=
          "Clean metal surface developing noble green patina — "
          +:+ "the copper weathering progression from salmon-pink to blue-green. "
          +:+ "Period 24 creates productive interactions near catastrophe/diatom." |});
    ("erosion_pulse",
     {| p_period := 18; p_state_a := "stone_erosion"; p_state_b := "gentle_patina";
        p_pattern := "sinusoidal";
        p_description :=
          "Stone oscillating between active erosion and gentle stable age — "
          +:+ "the tug between environmental attack and material resistance. "
          +:+ "Shared period 18 with nuclear/catastrophe/diatom/splash." |});
    ("entropy_wave",
     {| p_period := 30; p_state_a := "gentle_patina"; p_state_b := "total_ruin";
        p_pattern := "sinusoidal";
        p_description :=
          "Beautiful dignified age descending into complete decay — "
          +:+ "the full entropy gradient from wabi-sabi to ruin. "
          +:+ "MAJOR LCM HUB period 30 for full-system synchronization." |}) ].

Definition PATINA_ATTRACTOR_PRESETS : list (string * attractor) :=
  [ ("period_30",
     {| a_name := "Period 30 — Universal Sync";
        a_description :=
          "Dominant LCM synchronization. Patina entropy_wave preset "
          +:+ "(period 30) locks directly into this attractor. Surface sits "
          +:+ "in the warm-aged territory — gentle time-enriched character "
          +:+ "with honey tones and soft wear. The most stable multi-domain "
          +:+ "weathering state, analogous to well-maintained antique furniture.";
        a_basin_size := Some 0.116;
        a_classification := "lcm_sync";
        a_source_domains :=
          [ "microscopy";
            "diatom";
            "heraldic";
            "surface_design";
            "splash";
            "patina" ];
        a_state := mk_state 0.40 0.30 0.55 0.15 0.75 |});
    ("period_29",
     {| a_name := "Period 29 — Emergent Resonance";
        a_description :=
          "Purely emergent 5-domain attractor. Patina character is a "
          +:+ "mid-aged stone surface with established lichen — between "
          +:+ "gentle patina and active erosion, with moderate biological "
          +:+ "colonization. This weathering state exists nowhere in any "
          +:+ "single canonical type.";
        a_basin_size := Some 0.084;
        a_classification := "lcm_sync";
        a_source_domains :=
          [ "microscopy";
            "nuclear";
            "catastrophe";
            "diatom";
            "heraldic" ];
        a_state := mk_state 0.55 0.40 0.60 0.10 0.70 |});
    ("period_19",
     {| a_name := "Period 19 — Gap Flow";
        a_description :=
          "Resilient novel gap-filler between periods 18 and 20. "
          +:+ "Patina is a precise oxidation-bloom state — the exact "
          +:+ "moment copper turns from brown cuprite to green verdigris, "
          +:+ "poised at the chemical transition boundary. "
          +:+ "Prime-period irrational beats.";
        a_basin_size := Some 0.074;
        a_classification := "novel";
        a_source_domains :=
          [ "microscopy";
            "nuclear";
            "catastrophe";
            "diatom" ];
        a_state := mk_state 0.48 0.42 0.65 0.08 0.82 |});
    ("period_28",
     {| a_name := "Period 28 — Composite Beat";
        a_description :=
          "Novel composite beat. Patina sits in tension between "
          +:+ "noble beauty and advancing decay — the cracked-glaze "
          +:+ "state where craquelure network is simultaneously beautiful "
          +:+ "pattern and active deterioration pathway. The conservation "
          +:+ "equivalent of a held breath.";
        a_basin_size := Some 0.024;
        a_classification := "novel";
        a_source_domains :=
          [ "microscopy";
            "nuclear";
            "catastrophe";
            "diatom" ];
        a_state := mk_state 0.52 0.48 0.50 0.12 0.72 |});
    ("period_60",
     {| a_name := "Period 60 — Harmonic Hub";
        a_description :=
          "Major LCM hub (3×20, 4×15, 5×12). Patina oscillates through "
          +:+ "full weathering repertoire — every canonical state gets a "
          +:+ "moment in the long cycle. Complex synchronization, advanced use.";
        a_basin_size := Some 0.040;
        a_classification := "harmonic";
        a_source_domains :=
          [ "microscopy";
            "nuclear";
            "catastrophe";
            "diatom" ];
        a_state := mk_state 0.50 0.45 0.52 0.10 0.65 |});
    ("bifurcation_edge",
     {| a_name := "Bifurcation Edge — Patina Threshold";
        a_description :=
          "Curated state at the exact moment weathering transitions from "
          +:+ "character-enhancing patina to destructive decay. Poised between "
          +:+ "warm_aged and erosion_sculpted basins — the conservation "
          +:+ "threshold where 'beautiful age' becomes 'active deterioration'. "
          +:+ "The most consequential moment in any material's lifecycle.";
        a_basin_size := None;
        a_classification := "curated";
        a_source_domains :=
          [ "patina" ];
        a_state := mk_state 0.52 0.50 0.48 0.05 0.65 |});
    ("organic_complexity",
     {| a_name := "Organic Complexity — Wabi-Sabi Perfection";
        a_description :=
          "Curated state at maximum aesthetic beauty from weathering. "
          +:+ "The wabi-sabi ideal — time has enriched rather than degraded. "
          +:+ "Worn smooth by hands, mellowed by light, dignified by years. "
          +:+ "Not ancient ruin but perfected age.";
        a_basin_size := None;
        a_classification := "curated";
        a_source_domains :=
          [ "patina" ];
        a_state := mk_state 0.35 0.20 0.70 0.10 0.95 |}) ].

(** [list(d.keys())]. *)
Definition keys {V} (d : list (string * V)) : list string := fst <$> d.

(** ** Distance and nearest neighbour *)

(** [sum(xs)] for floats, from the initial [0]. *)
Definition py_sum (xs : list R) : R := foldl Rplus 0 xs.

Definition _patina_euclidean_distance (a b : gmap string R) : res R :=
  squares ← for_each PATINA_PARAMETER_NAMES
    (λ p, x ← getitem a p; y ← getitem b p; Ret ((x - y) ^ 2));
  Ret (sqrt (py_sum squares)).

(** The loop shared by the two nearest-neighbour scans: [best] is the pair
    [(best_id, best_dist)], replaced only by a strictly smaller distance.
    [center_of] reads the coordinate of a catalog value. *)
Fixpoint nearest_loop {E} (center_of : E → gmap string R)
    (items : list (string * E)) (state : gmap string R)
    (best : option string * xfloat) : res (option string * xfloat) :=
  match items with
  | [] => Ret best
  | (sid, e) :: items' =>
      d ← _patina_euclidean_distance state (center_of e);
      nearest_loop center_of items' state
        (if lt_xfloat d (snd best) then (Some sid, Fin d) else best)
  end.

Definition _patina_nearest_canonical (state : gmap string R)
    : res (option string * xfloat) :=
  nearest_loop (λ coords, coords) PATINA_CANONICAL_STATES state (None, Inf).

Definition _patina_nearest_visual_type (state : gmap string R)
    : res (option string * xfloat) :=
  nearest_loop center PATINA_VISUAL_TYPES state (None, Inf).

(** ** Vocabulary selection *)

(** The index a category derives from the state, before clamping. *)
Definition vocabulary_index (category : string) (state : gmap string R)
    (len_terms : Z) : res Z :=
  if String.eqb category "surface_texture" then
    e ← getitem state "exposure_duration";
    Ret (py_round (e * IZR (len_terms - 1)))
  else if String.eqb category "color_transformation" then
    e ← getitem state "exposure_duration";
    g ← getitem state "agent_intensity";
    let v := (e + g) / 2.0 in
    Ret (py_round (v * IZR (len_terms - 1)))
  else if String.eqb category "structural_integrity" then
    g ← getitem state "agent_intensity";
    r ← getitem state "material_resistance";
    let v := g * (1.0 - r * 0.5) in
    Ret (py_round (v * IZR (len_terms - 1)))
  else if String.eqb category "biological_colonization" then
    e ← getitem state "exposure_duration";
    g ← getitem state "agent_intensity";
    let v := e * 0.6 + g * 0.4 in
    Ret (py_round (v * IZR (len_terms - 1)))
  else if String.eqb category "light_interaction" then
    e ← getitem state "exposure_duration";
    g ← getitem state "agent_intensity";
    i ← getitem state "intervention_state";
    let v := e * 0.5 + g * 0.3 + (1.0 - i) * 0.2 in
    Ret (py_round (v * IZR (len_terms - 1)))
  else if String.eqb category "temporal_evidence" then
    e ← getitem state "exposure_duration";
    Ret (py_round (e * IZR (len_terms - 1)))
  else Ret 0%Z.

(** One iteration of the loop of [_patina_select_vocabulary]. *)
Definition select_category (state : gmap string R)
    (entry : string * list string) : res (string * list string) :=
  let '(category, terms) := entry in
  let n := Z.of_nat (length terms) in
  idx ← vocabulary_index category state n;
  let idx := Z.max 0 (Z.min idx (n - 1)) in
  t1 ← py_index terms (Z.max 0 (idx - 1));
  t2 ← py_index terms idx;
  t3 ← py_index terms (Z.min (n - 1) (idx + 1));
  Ret (category, unique [t1; t2; t3]).

Definition _patina_select_vocabulary (state : gmap string R)
    : res (list (string * list string)) :=
  for_each PATINA_VISUAL_VOCABULARY (select_category state).

(** ** Tool results *)

(** The value a tool hands to [json.dumps]. [JState] is a dictionary from
    axis names to floats, whose key order is not modelled. *)
#[local] Set Warnings "-register-all".
Inductive json : Type :=
  | JNull
  | JInt (z : Z)
  | JFloat (x : xfloat)
  | JStr (s : string)
  | JList (l : list json)
  | JDict (d : list (string * json))
  | JState (s : gmap string R).
#[local] Set Warnings "register-all".

Definition json_of_id (o : option string) : json :=
  match o with
  | Some s => JStr s
  | None => JNull
  end.

Definition json_strs (l : list string) : json := JList (JStr <$> l).

(** [{k: round(v, 4) for k, v in state.items()}]. *)
Definition round_state (state : gmap string R) : json :=
  JState (round4 <$> state).

(** [d[k]] and [k in d] on a result dictionary. *)
Definition json_get (k : string) (j : json) : option json :=
  match j with
  | JDict d => assoc d k
  | _ => None
  end.


(** The shape of every error result of the tools: a dictionary with an
    ["error"] entry. *)
Definition is_error (j : json) : Prop := is_Some (json_get "error" j).

(** [PATINA_VISUAL_TYPES[vtype]], where [vtype] may be [None]. *)
Definition visual_type_data (vtype : option string) : res visual_type :=
  match vtype with
  | Some v => getitem_assoc PATINA_VISUAL_TYPES v
  | None => Raise (KeyError "None")
  end.

(** ** Rhythmic sequences *)

Definition apply_patina_rhythmic_preset (preset_name : string) : res json :=
  match assoc PATINA_RHYTHMIC_PRESETS preset_name with
  | None =>
      Ret (JDict [ ("error", JStr ("Unknown preset: " +:+ preset_name));
                   ("available", json_strs (keys PATINA_RHYTHMIC_PRESETS)) ])
  | Some cfg =>
      state_a ← getitem_assoc PATINA_CANONICAL_STATES (p_state_a cfg);
      state_b ← getitem_assoc PATINA_CANONICAL_STATES (p_state_b cfg);
      let period := p_period cfg in
      sequence ← for_each (py_range period)
        (λ step,
           t ← py_truediv step period;
           state ← _patina_interpolate_states state_a state_b t (p_pattern cfg);
           '(vtype, vdist) ← _patina_nearest_visual_type state;
           Ret (JDict [ ("step", JInt step);
                        ("phase", JFloat (Fin (round4 t)));
                        ("state", round_state state);
                        ("nearest_visual_type", json_of_id vtype);
                        ("visual_distance", JFloat (round4_x vdist)) ]));
      Ret (JDict [ ("preset", JStr preset_name);
                   ("period", JInt period);
                   ("pattern", JStr (p_pattern cfg));
                   ("state_a", JStr (p_state_a cfg));
                   ("state_b", JStr (p_state_b cfg));
                   ("description", JStr (p_description cfg));
                   ("sequence", JList sequence);
                   ("total_steps", JInt (Z.of_nat (length sequence))) ])
  end.

Definition unknown_state (sid : string) : json :=
  JDict [ ("error", JStr ("Unknown: " +:+ sid));
          ("available", json_strs (keys PATINA_CANONICAL_STATES)) ].

Definition generate_patina_rhythmic_sequence (state_a_id state_b_id : string)
    (oscillation_pattern : string) (num_cycles steps_per_cycle : Z)
    (phase_offset : R) : res json :=
  match assoc PATINA_CANONICAL_STATES state_a_id with
  | None => Ret (unknown_state state_a_id)
  | Some state_a =>
  match assoc PATINA_CANONICAL_STATES state_b_id with
  | None => Ret (unknown_state state_b_id)
  | Some state_b =>
      let total_steps := (num_cycles * steps_per_cycle)%Z in
      sequence ← for_each (py_range total_steps)
        (λ step,
           q ← py_truediv step steps_per_cycle;
           let raw_t := q + phase_offset in
           let t := py_fmod1 raw_t in
           state ← _patina_interpolate_states state_a state_b t
                     oscillation_pattern;
           '(vtype, vdist) ← _patina_nearest_visual_type state;
           cycle ← py_floordiv step steps_per_cycle;
           Ret (JDict [ ("step", JInt step);
                        ("cycle", JInt cycle);
                        ("phase", JFloat (Fin (round4 t)));
                        ("state", round_state state);
                        ("nearest_visual_type", json_of_id vtype);
                        ("visual_distance", JFloat (round4_x vdist)) ]));
      Ret (JDict [ ("state_a", JStr state_a_id);
                   ("state_b", JStr state_b_id);
                   ("pattern", JStr oscillation_pattern);
                   ("num_cycles", JInt num_cycles);
                   ("steps_per_cycle", JInt steps_per_cycle);
                   ("phase_offset", JFloat (Fin phase_offset));
                   ("total_steps", JInt total_steps);
                   ("sequence", JList sequence) ])
  end end.

(** ** Vocabulary extraction and attractor prompts *)

(** The first axis name that the loop [for p in PATINA_PARAMETER_NAMES:
    if p not in state] finds missing. *)
Definition first_missing (state : gmap string R) : option string :=
  List.find (λ p, bool_decide (state !! p = None)) PATINA_PARAMETER_NAMES.

Definition missing_parameter (p : string) : json :=
  JDict [ ("error", JStr ("Missing parameter: " +:+ p));
          ("required", json_strs PATINA_PARAMETER_NAMES) ].

Definition extract_patina_visual_vocabulary (state : option (gmap string R))
    (patina_id : option string) (strength : R) : res json :=
  match state, patina_id with
  | None, None => Ret (JDict [ ("error", JStr "Provide either state or patina_id") ])
  | _, _ =>
      let resolved : json + gmap string R :=
        match patina_id with
        | Some pid =>
            match assoc PATINA_CANONICAL_STATES pid with
            | None => inl (unknown_state pid)
            | Some s => inr s
            end
        | None => inr (default ∅ state)
        end in
      match resolved with
      | inl err => Ret err
      | inr state =>
          match first_missing state with
          | Some p => Ret (missing_parameter p)
          | None =>
              '(vtype, vdist) ← _patina_nearest_visual_type state;
              vdata ← visual_type_data vtype;
              vocab ← _patina_select_vocabulary state;
              '(nearest_canon, cdist) ← _patina_nearest_canonical state;
              Ret (JDict
                [ ("nearest_visual_type", json_of_id vtype);
                  ("distance", JFloat (round4_x vdist));
                  ("keywords", json_strs (keywords vdata));
                  ("optical_properties",
                    JDict (prod_map (λ k, k) JStr <$> optical vdata));
                  ("color_associations", json_strs (color_associations vdata));
                  ("nearest_canonical_state", json_of_id nearest_canon);
                  ("canonical_distance", JFloat (round4_x cdist));
                  ("vocabulary_by_category",
                    JDict (prod_map (λ k, k) json_strs <$> vocab));
                  ("strength", JFloat (Fin strength));
                  ("input_state", round_state state) ])
          end
      end
  end.

(** [s.replace(old, new)] for a non-empty [old]: every non-overlapping
    occurrence, from the left. [skip] counts the characters of a matched
    occurrence still to be dropped. *)
Fixpoint str_replace_from (old new : string) (skip : nat) (s : string) : string :=
  match s with
  | EmptyString => EmptyString
  | String c s' =>
      match skip with
      | S k => str_replace_from old new k s'
      | O =>
          if String.prefix old s
          then new +:+ str_replace_from old new (String.length old - 1) s'
          else String c (str_replace_from old new 0 s')
      end
  end.

Definition str_replace (s old new : string) : string :=
  str_replace_from old new 0 s.

Definition digit_value (c : ascii) : option Z :=
  let n := Z.of_nat (nat_of_ascii c) in
  if decide (48 <= n <= 57)%Z then Some (n - 48)%Z else None.

Fixpoint parse_digits (acc : Z) (s : string) : option Z :=
  match s with
  | EmptyString => Some acc
  | String c s' =>
      match digit_value c with
      | Some d => parse_digits (10 * acc + d)%Z s'
      | None => None
      end
  end.

(** [int(s)] inside [try ... except ValueError], for the plain decimal
    spellings (an optional sign and at least one ASCII digit); [None]
    stands for the [ValueError]. The other spellings Python accepts
    (surrounding blanks, underscores between digits) do not arise from
    the identifiers of the attractor catalog. *)
Definition py_int (s : string) : option Z :=
  match s with
  | EmptyString => None
  | String "-" (String _ _ as ds) => Z.opp <$> parse_digits 0 ds
  | String "+" (String _ _ as ds) => parse_digits 0 ds
  | _ => parse_digits 0 s
  end.

(** The target period of sequence mode. *)
Definition sequence_target_period (attractor_meta : option attractor)
    (attractor_id : string) : Z :=
  let target_period :=
    match attractor_meta with
    | Some meta =>
        match a_basin_size meta with
        | Some b =>
            if decide (b = 0) then None
            else py_int (str_replace attractor_id "period_" "")
        | None => None
        end
    | None => None
    end in
  match target_period with
  | Some p => p
  | None => 30%Z
  end.

(** The loop of sequence mode over [PATINA_RHYTHMIC_PRESETS]: [best] is
    [(best_preset, best_period_diff)], with [None] for [float("inf")]. *)
Fixpoint nearest_preset_loop (items : list (string * preset)) (target_period : Z)
    (best : option string * option Z) : option string * option Z :=
  match items with
  | [] => best
  | (pname, pcfg) :: items' =>
      let diff := Z.abs (p_period pcfg - target_period) in
      nearest_preset_loop items' target_period
        (match snd best with
         | Some b => if decide (diff < b)%Z then (Some pname, Some diff) else best
         | None => (Some pname, Some diff)
         end)
  end.

Definition join_prompt (prefix : string) (kws : list string) : string :=
  prefix +:+ String.concat ", " kws.

(** [all_keywords] of a composite prompt, deduplicated. *)
Definition composite_keywords (vdata : visual_type)
    (vocab : list (string * list string)) : list string :=
  unique (keywords vdata ++ concat (snd <$> vocab)).

Definition attractor_info (attractor_id : string)
    (attractor_meta : option attractor) (with_basin : bool) : json :=
  JDict
    ([ ("id", JStr (if String.eqb attractor_id "" then "custom" else attractor_id));
       ("name", JStr (match attractor_meta with
                      | Some m => a_name m
                      | None => "Custom State"
                      end)) ]
     ++ (if with_basin
         then [ ("basin_size",
                  match attractor_meta with
                  | Some m => match a_basin_size m with
                              | Some b => JFloat (Fin b)
                              | None => JNull
                              end
                  | None => JNull
                  end) ]
         else [])
     ++ [ ("classification", JStr (match attractor_meta with
                                   | Some m => a_classification m
                                   | None => "custom"
                                   end)) ]).

Definition generate_patina_attractor_prompt (attractor_id : string)
    (custom_state : option (gmap string R)) (mode style_modifier : string)
    (keyframe_count : Z) : res json :=
  (* Resolve state *)
  let resolved : json + (option attractor * gmap string R) :=
    match custom_state with
    | Some cs =>
        match first_missing cs with
        | Some p => inl (missing_parameter p)
        | None => inr (None, cs)
        end
    | None =>
        match assoc PATINA_ATTRACTOR_PRESETS attractor_id with
        | Some meta => inr (Some meta, a_state meta)
        | None =>
            inl (JDict [ ("error", JStr "Provide attractor_id or custom_state");
                         ("available_attractors",
                           json_strs (keys PATINA_ATTRACTOR_PRESETS)) ])
        end
    end in
  match resolved with
  | inl err => Ret err
  | inr (attractor_meta, state) =>
      (* Vocabulary extraction *)
      '(vtype, vdist) ← _patina_nearest_visual_type state;
      vdata ← visual_type_data vtype;
      vocab ← _patina_select_vocabulary state;
      '(nearest_canon, cdist) ← _patina_nearest_canonical state;
      let prefix :=
        if String.eqb style_modifier "" then "" else style_modifier +:+ ", " in
      if String.eqb mode "composite" then
        Ret (JDict
          [ ("mode", JStr "composite");
            ("prompt", JStr (join_prompt prefix (composite_keywords vdata vocab)));
            ("nearest_visual_type", json_of_id vtype);
            ("visual_distance", JFloat (round4_x vdist));
            ("nearest_canonical_state", json_of_id nearest_canon);
            ("optical_properties",
              JDict (prod_map (λ k, k) JStr <$> optical vdata));
            ("color_associations", json_strs (color_associations vdata));
            ("attractor", attractor_info attractor_id attractor_meta true);
            ("state", round_state state) ])
      else if String.eqb mode "split_view" then
        let panels :=
          (λ '(category, terms),
             (category,
              JDict [ ("prompt", JStr (join_prompt prefix terms));
                      ("terms", json_strs terms) ])) <$> vocab in
        Ret (JDict
          [ ("mode", JStr "split_view");
            ("panels", JDict panels);
            ("nearest_visual_type", json_of_id vtype);
            ("visual_distance", JFloat (round4_x vdist));
            ("optical_properties",
              JDict (prod_map (λ k, k) JStr <$> optical vdata));
            ("color_associations", json_strs (color_associations vdata));
            ("attractor", attractor_info attractor_id attractor_meta false);
            ("state", round_state state) ])
      else if String.eqb mode "sequence" then
        (* Find nearest rhythmic preset by period proximity *)
        let target_period := sequence_target_period attractor_meta attractor_id in
        let best_preset :=
          fst (nearest_preset_loop PATINA_RHYTHMIC_PRESETS target_period
                 (None, None)) in
        cfg ← match best_preset with
              | Some pname => getitem_assoc PATINA_RHYTHMIC_PRESETS pname
              | None => Raise (KeyError "None")
              end;
        state_a ← getitem_assoc PATINA_CANONICAL_STATES (p_state_a cfg);
        state_b ← getitem_assoc PATINA_CANONICAL_STATES (p_state_b cfg);
        let period := p_period cfg in
        q ← py_floordiv period keyframe_count;
        let step_size := Z.max 1 q in
        keyframes ← for_each (py_range keyframe_count)
          (λ ki,
             step ← py_mod (ki * step_size) period;
             t ← py_truediv step period;
             kf_state ← _patina_interpolate_states state_a state_b t
                          (p_pattern cfg);
             '(kf_vtype, kf_vdist) ← _patina_nearest_visual_type kf_state;
             kf_vdata ← visual_type_data kf_vtype;
             kf_vocab ← _patina_select_vocabulary kf_state;
             Ret (JDict
               [ ("keyframe", JInt ki);
                 ("step", JInt step);
                 ("phase", JFloat (Fin (round4 t)));
                 ("prompt",
                   JStr (join_prompt prefix
                           (composite_keywords kf_vdata kf_vocab)));
                 ("nearest_visual_type", json_of_id kf_vtype);
                 ("visual_distance", JFloat (round4_x kf_vdist));
                 ("state", round_state kf_state) ]));
        Ret (JDict
          [ ("mode", JStr "sequence");
            ("preset_used", json_of_id best_preset);
            ("preset_period", JInt period);
            ("keyframe_count", JInt keyframe_count);
            ("keyframes", JList keyframes);
            ("attractor", attractor_info attractor_id attractor_meta false) ])
      else
        Ret (JDict
          [ ("error", JStr ("Unknown mode: " +:+ mode));
            ("available", json_strs [ "composite"; "split_view"; "sequence" ]) ])
  end.

(** ** Notions used by the statements *)


(** A dictionary that defines the five axes, possibly among other keys and
    with any values: what [first_missing] accepts. *)
Definition has_axes (s : gmap string R) : Prop :=
  ∀ p, p ∈ PATINA_PARAMETER_NAMES → is_Some (s !! p).

(** Two dictionaries with the same entries on the five axes. *)
Definition same_axes (a a' : gmap string R) : Prop :=
  ∀ p, p ∈ PATINA_PARAMETER_NAMES → a !! p = a' !! p.

(** The value of an axis of a dictionary that defines it. *)
Definition axis (s : gmap string R) (p : string) : R := default 0 (s !! p).

(** The dictionary restricted to the five axes. *)
Definition project_axes (s : gmap string R) : gmap string R :=
  mk_state (axis s "exposure_duration") (axis s "agent_intensity")
           (axis s "material_resistance") (axis s "intervention_state")
           (axis s "aesthetic_character").

(** The scalar of a vocabulary category: its fixed combination of the
    axes. *)
Definition category_scalar (category : string) (s : gmap string R) : R :=
  let e := axis s "exposure_duration" in
  let g := axis s "agent_intensity" in
  let r := axis s "material_resistance" in
  let i := axis s "intervention_state" in
  if String.eqb category "surface_texture" then e
  else if String.eqb category "color_transformation" then (e + g) / 2
  else if String.eqb category "structural_integrity" then g * (1 - r * 0.5)
  else if String.eqb category "biological_colonization" then e * 0.6 + g * 0.4
  else if String.eqb category "light_interaction" then
    e * 0.5 + g * 0.3 + (1 - i) * 0.2
  else if String.eqb category "temporal_evidence" then e
  else 0.

(** The index of a category with [n] phrases: [round(v * (n - 1))] clamped
    to [[0, n - 1]]. *)
Definition category_index (category : string) (s : gmap string R) (n : Z) : Z :=
  Z.max 0 (Z.min (py_round (category_scalar category s * IZR (n - 1))) (n - 1)).

(** What the nearest-neighbour scan of a catalog [items] is claimed to
    return for [state]: the identifier [sid] of an entry of the catalog and
    its distance [d >= 0], where the entry is the first one, in the order
    of the catalog, among those at the least distance; and when [state] is
    the coordinate of an entry, the distance is [0] and the identifier is
    that entry's. *)
Definition nearest_spec {E} (center_of : E → gmap string R)
    (items : list (string * E)) (state : gmap string R)
    (result : res (option string * xfloat)) : Prop :=
  ∃ (i : nat) (sid : string) (e : E) (d : R),
    result = Ret (Some sid, Fin d) ∧
    items !! i = Some (sid, e) ∧
    sid ∈ keys items ∧
    _patina_euclidean_distance state (center_of e) = Ret d ∧
    0 <= d ∧
    (∀ (j : nat) sid' e' d',
       items !! j = Some (sid', e') →
       _patina_euclidean_distance state (center_of e') = Ret d' →
       d <= d' ∧ ((j < i)%nat → d < d')) ∧
    (∀ sid' e',
       (sid', e') ∈ items → center_of e' = state → d = 0 ∧ sid = sid').

(** The record of one sample of a fixed preset replay: the phase is
    [step / period], [st] is the interpolated coordinate and [(v, d)] its
    classification against the visual types. *)
Definition replay_sample (state_a state_b : gmap string R) (pattern : string)
    (period step : Z) (sample : json) : Prop :=
  ∃ st v d,
    let t := IZR step / IZR period in
    _patina_interpolate_states state_a state_b t pattern = Ret st ∧
    _patina_nearest_visual_type st = Ret (Some v, Fin d) ∧
    sample = JDict [ ("step", JInt step);
                     ("phase", JFloat (Fin (round4 t)));
                     ("state", round_state st);
                     ("nearest_visual_type", JStr v);
                     ("visual_distance", JFloat (Fin (round4 d))) ].

(** The record of one sample of a custom oscillation: the phase is
    [(step / steps_per_cycle + phase_offset) % 1.0] and the cycle index
    [step // steps_per_cycle]. *)
Definition oscillation_sample (state_a state_b : gmap string R)
    (pattern : string) (steps_per_cycle : Z) (phase_offset : R)
    (step : Z) (sample : json) : Prop :=
  ∃ st v d,
    let t := py_fmod1 (IZR step / IZR steps_per_cycle + phase_offset) in
    _patina_interpolate_states state_a state_b t pattern = Ret st ∧
    _patina_nearest_visual_type st = Ret (Some v, Fin d) ∧
    sample = JDict [ ("step", JInt step);
                     ("cycle", JInt (step / steps_per_cycle));
                     ("phase", JFloat (Fin (round4 t)));
                     ("state", round_state st);
                     ("nearest_visual_type", JStr v);
                     ("visual_distance", JFloat (Fin (round4 d))) ].

(** [diff < best_period_diff], where [None] stands for [float("inf")]. *)
Definition beats (diff : Z) (best : option Z) : Prop :=
  match best with
  | Some b => (diff < b)%Z
  | None => True
  end.

(** ** Notions used by the further properties *)

(** The fields of a sample of either generator, after rounding. *)
Definition sample_in_bounds (sample : json) : Prop :=
  ∃ ph st v d,
    json_get "phase" sample = Some (JFloat (Fin ph)) ∧ 0 <= ph <= 1 ∧
    json_get "state" sample = Some (JState st) ∧ valid_coordinate st ∧
    json_get "nearest_visual_type" sample = Some (JStr v) ∧
    v ∈ keys PATINA_VISUAL_TYPES ∧
    json_get "visual_distance" sample = Some (JFloat (Fin d)) ∧
    0 <= d <= round4 (sqrt 5).


(** ** Keyframe prompts of a preset *)


(** The record of keyframe [ki] of a preset oscillation sampled every
    [step_size] steps: the step wraps around the period, [st] is the
    interpolated coordinate, [v] its visual type at distance [d], and the
    prompt joins the deduplicated keywords of the type and of the selected
    vocabulary. *)
Definition keyframe_record (state_a state_b : gmap string R)
    (pattern prefix : string) (period step_size ki : Z) (kf : json) : Prop :=
  ∃ st v d vdata vocab,
    let step := ((ki * step_size) mod period)%Z in
    let t := IZR step / IZR period in
    _patina_interpolate_states state_a state_b t pattern = Ret st ∧
    valid_coordinate st ∧
    _patina_nearest_visual_type st = Ret (Some v, Fin d) ∧
    assoc PATINA_VISUAL_TYPES v = Some vdata ∧
    _patina_select_vocabulary st = Ret vocab ∧
    kf = JDict [ ("keyframe", JInt ki);
                 ("step", JInt step);
                 ("phase", JFloat (Fin (round4 t)));
                 ("prompt",
                   JStr (join_prompt prefix (composite_keywords vdata vocab)));
                 ("nearest_visual_type", JStr v);
                 ("visual_distance", JFloat (Fin (round4 d)));
                 ("state", round_state st) ].

(** The style prefix of a prompt. *)
Definition style_prefix (style_modifier : string) : string :=
  if String.eqb style_modifier "" then "" else style_modifier +:+ ", ".

(** Two outcomes of a tool that agree except, on success, for the entry
    [key] of the result. *)
Definition agree_except (key : string) (r1 r2 : res json) : Prop :=
  match r1, r2 with
  | Ret o1, Ret o2 => ∀ k, k ≠ key → json_get k o1 = json_get k o2
  | Raise e1, Raise e2 => e1 = e2
  | _, _ => False
  end.

(** ** Trajectories and distances between canonical states *)

Definition compute_patina_trajectory (start_patina_id end_patina_id : string)
    (num_steps : Z) : res json :=
  match assoc PATINA_CANONICAL_STATES start_patina_id with
  | None => Ret (unknown_state start_patina_id)
  | Some a =>
  match assoc PATINA_CANONICAL_STATES end_patina_id with
  | None => Ret (unknown_state end_patina_id)
  | Some b =>
      total_dist ← _patina_euclidean_distance a b;
      trajectory ← for_each (py_range (num_steps + 1))
        (λ i,
           t ← py_truediv i num_steps;
           state ← dict_comp PATINA_PARAMETER_NAMES
                     (λ p, x ← getitem a p; y ← getitem b p;
                           Ret (round4 (x + t * (y - x))))
                     ∅;
           '(vtype, vdist) ← _patina_nearest_visual_type state;
           '(nearest_canon, cdist) ← _patina_nearest_canonical state;
           Ret (JDict [ ("step", JInt i);
                        ("t", JFloat (Fin (round4 t)));
                        ("state", JState state);
                        ("nearest_visual_type", json_of_id vtype);
                        ("visual_distance", JFloat (round4_x vdist));
                        ("nearest_canonical", json_of_id nearest_canon);
                        ("canonical_distance", JFloat (round4_x cdist)) ]));
      Ret (JDict [ ("start", JStr start_patina_id);
                   ("end", JStr end_patina_id);
                   ("total_distance", JFloat (Fin (round4 total_dist)));
                   ("num_steps", JInt num_steps);
                   ("trajectory", JList trajectory) ])
  end end.

(** The record of step [i] of a trajectory of [num_steps] steps: [st] is
    the linear interpolation at [t = i / num_steps], and it is the rounded
    coordinate that is reported and classified, against both catalogs. *)
Definition trajectory_record (a b : gmap string R) (num_steps i : Z)
    (record : json) : Prop :=
  ∃ st v vd c cd,
    let t := IZR i / IZR num_steps in
    _patina_interpolate_states a b t "linear" = Ret st ∧
    valid_coordinate (round4 <$> st) ∧
    nearest_spec center PATINA_VISUAL_TYPES (round4 <$> st)
      (Ret (Some v, Fin vd)) ∧
    nearest_spec (λ coords, coords) PATINA_CANONICAL_STATES (round4 <$> st)
      (Ret (Some c, Fin cd)) ∧
    record = JDict [ ("step", JInt i);
                     ("t", JFloat (Fin (round4 t)));
                     ("state", JState (round4 <$> st));
                     ("nearest_visual_type", JStr v);
                     ("visual_distance", JFloat (Fin (round4 vd)));
                     ("nearest_canonical", JStr c);
                     ("canonical_distance", JFloat (Fin (round4 cd))) ].

(** [max] of an empty sequence raises [ValueError], which no other
    operation of the engine raises; it is kept apart from [exn]. *)
Inductive value_error : Type := ValueError.

(** [max(xs, key=key)]: the first element whose key is the greatest. *)
Definition py_max_key {A} (key : A → R) (xs : list A) : value_error + A :=
  match xs with
  | [] => inl ValueError
  | x :: xs' =>
      inr (foldl (λ best y, if decide (key best < key y) then y else best)
                 x xs')
  end.

(** [max(xs)] on floats. *)
Definition py_max (xs : list R) : value_error + R := py_max_key (λ x, x) xs.

(** [diffs] is the dictionary [{p: round(b[p] - a[p], 4) for p in
    PATINA_PARAMETER_NAMES}], kept in insertion order; the names are
    pairwise distinct, so that iterating over its keys and reading
    [diffs[p]] visits its items. The result is [inl ValueError] when [max]
    raises, and an exception of [exn] is raised before that. *)
Definition compute_patina_distance (patina_id_1 patina_id_2 : string)
    : res (value_error + json) :=
  match assoc PATINA_CANONICAL_STATES patina_id_1 with
  | None => Ret (inr (unknown_state patina_id_1))
  | Some a =>
  match assoc PATINA_CANONICAL_STATES patina_id_2 with
  | None => Ret (inr (unknown_state patina_id_2))
  | Some b =>
      diffs ← for_each PATINA_PARAMETER_NAMES
                (λ p, y ← getitem b p; x ← getitem a p;
                      Ret (p, round4 (y - x)));
      dist ← _patina_euclidean_distance a b;
      Ret (match py_max ((λ it : string * R, Rabs it.2) <$> diffs) with
           | inl e => inl e
           | inr max_abs =>
           match py_max_key (λ it : string * R, Rabs it.2) diffs with
           | inl e => inl e
           | inr dominant =>
               inr (JDict
                 [ ("patina_id_1", JStr patina_id_1);
                   ("patina_id_2", JStr patina_id_2);
                   ("euclidean_distance", JFloat (Fin (round4 dist)));
                   ("per_parameter_diff",
                     JDict (prod_map (λ k, k) (λ v, JFloat (Fin v)) <$> diffs));
                   ("abs_per_parameter",
                     JDict (prod_map (λ k, k)
                              (λ v, JFloat (Fin (round4 (Rabs v)))) <$> diffs));
                   ("max_parameter_diff", JFloat (Fin (round4 max_abs)));
                   ("dominant_axis", JStr dominant.1) ])
           end
           end)
  end end.

(** The rounded difference of two coordinates on an axis. *)
Definition axis_diff (a b : gmap string R) (p : string) : R :=
  round4 (axis b p - axis a p).

(** ** The taxonomy: materials, agents and condition grades *)

(** An entry of [MATERIAL_CATEGORIES]. *)
Record material : Type := {
  m_name : string;
  m_description : string;
  m_examples : list string;
  m_primary_weathering : string;
  m_characteristic_patina : string;
  m_color_progression : list string;
  m_time_scale : string;
  m_visual_markers : list string;
}.

(** An entry of [WEATHERING_AGENTS]. *)
Record agent : Type := {
  g_name : string;
  g_mechanisms : list string;
  g_visual_indicators : list string;
  g_severity_markers : list (string * string);
}.

(** An entry of [CONDITION_GRADES]. *)
Record grade : Type := {
  c_grade : Z;
  c_description : string;
  c_structural : string;
  c_surface : string;
  c_intervention_needed : string;
}.

Definition MATERIAL_CATEGORIES : list (string * material) :=
  [ ("ferrous_metal",
     {| m_name := "Ferrous Metals";
        m_description :=
          "Iron and steel — rust (iron oxide) is the defining weathering product";
        m_examples :=
          [ "cast iron";
            "wrought iron";
            "mild steel";
            "weathering steel (Corten)" ];
        m_primary_weathering := "oxidation";
        m_characteristic_patina :=
          "Fe₂O₃ rust — orange-brown to deep red-black";
        m_color_progression :=
          [ "bare metallic grey";
            "orange flash rust";
            "red-brown oxide";
            "dark brown-black scale";
            "flaking laminar rust" ];
        m_time_scale := "weeks to decades";
        m_visual_markers :=
          [ "weeping rust stains below fastener points";
            "laminar scale lifting from substrate in curved plates";
            "pinpoint pitting beneath intact oxide layer";
            "orange-brown tide marks at moisture boundaries";
            "red-black stable magnetite core under flaking hematite" ] |});
    ("copper_alloy",
     {| m_name := "Copper & Bronze";
        m_description :=
          "Copper, brass, bronze — verdigris (copper carbonate) is the noble patina";
        m_examples :=
          [ "copper sheet";
            "bronze casting";
            "brass hardware";
            "phosphor bronze" ];
        m_primary_weathering := "oxidation_carbonate";
        m_characteristic_patina :=
          "Cu₂(OH)₂CO₃ verdigris — green to blue-green";
        m_color_progression :=
          [ "bright salmon-pink";
            "dull brown cuprite";
            "mottled brown-green";
            "stable green verdigris";
            "blue-green patina with streaking" ];
        m_time_scale := "months to centuries";
        m_visual_markers :=
          [ "bright green drip streaks below exposed copper edges";
            "mottled brown-to-green transition zone at sheltered boundary";
            "stable blue-green crust with crystalline surface texture";
            "salmon-pink bright metal visible at rubbed high points";
            "dark brown cuprite underlayer showing through verdigris chips" ] |});
    ("silver",
     {| m_name := "Silver";
        m_description :=
          "Sterling and fine silver — tarnish (silver sulfide) darkens progressively";
        m_examples :=
          [ "sterling silver";
            "silver plate";
            "fine silver";
            "Britannia silver" ];
        m_primary_weathering := "sulfide_tarnish";
        m_characteristic_patina :=
          "Ag₂S tarnish — gold to purple-black";
        m_color_progression :=
          [ "bright mirror white";
            "pale gold warmth";
            "amber-bronze";
            "deep purple-blue iridescence";
            "matte charcoal-black" ];
        m_time_scale := "hours to years";
        m_visual_markers :=
          [ "golden warmth on protected recessed surfaces";
            "iridescent purple-blue in deepest relief areas";
            "bright white rub marks on high-contact edges and peaks";
            "progressive darkening gradient from exposed to sheltered";
            "matte black sulfide in crevices contrasting polished highlights" ] |});
    ("limestone",
     {| m_name := "Limestone & Marble";
        m_description :=
          "Calcium carbonate stone — dissolves in acid rain, sugars and spalls";
        m_examples :=
          [ "Portland limestone";
            "Carrara marble";
            "travertine";
            "chalk";
            "oolitic limestone" ];
        m_primary_weathering := "dissolution_biological";
        m_characteristic_patina :=
          "rounded edges, biological colonization, black gypsum crust";
        m_color_progression :=
          [ "clean cream-white";
            "light grey soiling";
            "black gypsum crust on sheltered faces";
            "orange lichen colonization";
            "deep grey-green biological cover" ];
        m_time_scale := "years to centuries";
        m_visual_markers :=
          [ "sharp carved edges rounded to soft pillowed forms";
            "black gypsum crust thick on sheltered undersides";
            "clean white stone on rain-washed exposed faces";
            "orange and grey circular lichen colonies on stable surfaces";
            "sugaring surface where individual calcite grains detach" ] |});
    ("sandstone",
     {| m_name := "Sandstone";
        m_description :=
          "Cemented quartz grains — weathers by loss of binder, spalling, salt damage";
        m_examples :=
          [ "red sandstone";
            "Yorkstone";
            "brownstone";
            "Berea sandstone" ];
        m_primary_weathering := "granular_disaggregation";
        m_characteristic_patina :=
          "rounded forms, cavernous hollows, desert varnish";
        m_color_progression :=
          [ "fresh cut colour (pink/buff/red)";
            "surface darkening from iron mobilization";
            "differential erosion revealing bedding";
            "honeycomb weathering caverns";
            "desert varnish dark brown-black" ];
        m_time_scale := "decades to millennia";
        m_visual_markers :=
          [ "honeycomb tafoni cavities eroded by salt crystallization";
            "case-hardened surface shell over soft eroded interior";
            "differential erosion picking out cross-bedding laminae";
            "dark desert varnish manganese-oxide coating on exposed faces";
            "grain-by-grain surface disaggregation leaving sandy residue" ] |});
    ("wood",
     {| m_name := "Wood";
        m_description :=
          "Timber — weathers to silver-grey, checks, splits, hosts biological growth";
        m_examples :=
          [ "oak";
            "cedar";
            "pine";
            "teak";
            "driftwood" ];
        m_primary_weathering := "photodegradation_biological";
        m_characteristic_patina :=
          "silver-grey photodegraded surface, checking, biological colonization";
        m_color_progression :=
          [ "fresh-cut heartwood colour";
            "UV darkening to golden-brown";
            "grey surface fibre degradation";
            "silver-grey stable weathered";
            "deep grey-black with moss/lichen" ];
        m_time_scale := "months to decades";
        m_visual_markers :=
          [ "end-grain checking radiating from pith center";
            "surface fibre lifting creating rough tactile grain";
            "silver-grey colour uniform across UV-exposed faces";
            "dark staining below iron hardware (tannin reaction)";
            "moss and lichen colonizing shaded damp surfaces" ] |});
    ("ceramic_glaze",
     {| m_name := "Ceramics & Glazes";
        m_description :=
          "Fired clay with glass-phase glaze — crazes, spalls, develops craquelure";
        m_examples :=
          [ "porcelain";
            "stoneware";
            "earthenware";
            "terracotta";
            "majolica" ];
        m_primary_weathering := "thermal_mechanical";
        m_characteristic_patina :=
          "craquelure network, glaze chips, stained craze lines";
        m_color_progression :=
          [ "pristine glossy surface";
            "fine craze network developing";
            "stained craze lines (tea/dirt penetration)";
            "glaze chips revealing bisque body";
            "extensive loss with stabilized fragments" ];
        m_time_scale := "years to centuries";
        m_visual_markers :=
          [ "fine craquelure network with stained intersections";
            "conchoidal glaze chips exposing pale bisque substrate";
            "crazing pattern denser at glaze pooling and thick spots";
            "salt efflorescence white crystals on unglazed terracotta";
            "iron spot blooming through reduction-fired glaze" ] |});
    ("paper_textile",
     {| m_name := "Paper & Textiles";
        m_description :=
          "Organic fibrous materials — fox, yellow, fade, embrittle, tear";
        m_examples :=
          [ "rag paper";
            "wood-pulp paper";
            "vellum";
            "cotton canvas";
            "silk";
            "linen" ];
        m_primary_weathering := "chemical_photodegradation";
        m_characteristic_patina :=
          "foxing spots, yellowing, tide marks, fibre degradation";
        m_color_progression :=
          [ "bright white/original colour";
            "warm ivory yellowing";
            "brown foxing spots scattered";
            "overall tan-brown tone";
            "darkened brittle fragments" ];
        m_time_scale := "years to centuries";
        m_visual_markers :=
          [ "scattered brown foxing spots of varying diameter";
            "tide mark brown ring where moisture boundary dried";
            "overall warm yellowing from acid migration in wood-pulp";
            "fading pattern revealing UV exposure direction";
            "brittle edge crumbling where fibre chains have broken" ] |});
    ("paint_coating",
     {| m_name := "Paint & Coatings";
        m_description :=
          "Applied surface films — chalk, alligator, peel, blister, fade";
        m_examples :=
          [ "oil paint";
            "latex/acrylic paint";
            "lacquer";
            "varnish";
            "distemper" ];
        m_primary_weathering := "photodegradation_mechanical";
        m_characteristic_patina :=
          "chalking, alligatoring, peeling revealing substrate layers";
        m_color_progression :=
          [ "fresh glossy saturated colour";
            "gloss loss and chalking";
            "fine cracking (checking)";
            "alligator pattern deep cracking";
            "curl-edged peeling revealing layers beneath" ];
        m_time_scale := "years to decades";
        m_visual_markers :=
          [ "chalking powder surface that marks on contact";
            "alligator-pattern deep cracks dividing surface into cells";
            "curl-edged paint flakes lifting from substrate";
            "ghost layer — faded remnant of stripped previous coat";
            "blister domes where moisture trapped under film" ] |});
    ("concrete",
     {| m_name := "Concrete";
        m_description :=
          "Portland cement composite — spalls, carbonates, stains from rebar corrosion";
        m_examples :=
          [ "reinforced concrete";
            "precast panels";
            "poured-in-place";
            "shotcrete" ];
        m_primary_weathering := "carbonation_corrosion";
        m_characteristic_patina :=
          "spalling over rebar, efflorescence, rain-streak staining";
        m_color_progression :=
          [ "fresh grey with formwork texture";
            "darkening from moisture absorption";
            "white efflorescence salt bloom";
            "rust staining from corroding rebar";
            "spalling craters with exposed reinforcement" ];
        m_time_scale := "decades to century";
        m_visual_markers :=
          [ "white efflorescence salt blooms at cracks and joints";
            "rust-brown stain trails below cracks (rebar corrosion indicator)";
            "delamination spalls exposing corroded reinforcing bar";
            "carbonation front visible as pH boundary in cross-section";
            "rain-streak differential soiling creating vertical stripes" ] |});
    ("glass",
     {| m_name := "Glass";
        m_description :=
          "Amorphous silicate — devitrifies, weeps, develops iridescence";
        m_examples :=
          [ "soda-lime glass";
            "lead glass";
            "borosilicate";
            "stained glass" ];
        m_primary_weathering := "devitrification";
        m_characteristic_patina :=
          "iridescent surface layers from ion exchange, weeping, pitting";
        m_color_progression :=
          [ "clear transparent";
            "slight haze from surface leaching";
            "milky opalescence";
            "iridescent rainbow interference films";
            "opaque white devitrified crust" ];
        m_time_scale := "decades to millennia (archaeological)";
        m_visual_markers :=
          [ "iridescent rainbow film from thin-layer interference";
            "surface pitting with concentric ring pattern";
            "weeping droplets from alkali leaching in humid conditions";
            "opaque white devitrified layer on buried archaeological glass";
            "crizzling fine internal crack network from unstable composition" ] |}) ].

Definition WEATHERING_AGENTS : list (string * agent) :=
  [ ("water",
     {| g_name := "Water Exposure";
        g_mechanisms :=
          [ "dissolution";
            "freeze-thaw cycling";
            "salt crystallization";
            "hydration";
            "erosion" ];
        g_visual_indicators :=
          [ "tide marks";
            "efflorescence";
            "spalling";
            "rounding";
            "drip staining" ];
        g_severity_markers :=
          [ ("mild", "occasional rain exposure, sheltered");
            ("moderate", "regular wetting-drying cycles");
            ("severe", "immersion, coastal salt spray, freeze-thaw") ] |});
    ("uv_solar",
     {| g_name := "UV / Solar Radiation";
        g_mechanisms :=
          [ "photodegradation";
            "colour fading";
            "embrittlement";
            "chalking";
            "chain scission" ];
        g_visual_indicators :=
          [ "fading pattern";
            "chalking";
            "colour shift";
            "surface fibre degradation";
            "gloss loss" ];
        g_severity_markers :=
          [ ("mild", "indoor diffuse light");
            ("moderate", "shaded exterior or oriented away from sun");
            ("severe", "full southern exposure, high altitude, equatorial") ] |});
    ("chemical",
     {| g_name := "Chemical Attack";
        g_mechanisms :=
          [ "acid rain dissolution";
            "sulfation";
            "salt attack";
            "pollution soiling";
            "galvanic corrosion" ];
        g_visual_indicators :=
          [ "black gypsum crust";
            "green copper staining";
            "rust bleeding";
            "etching";
            "efflorescence" ];
        g_severity_markers :=
          [ ("mild", "rural clean air");
            ("moderate", "urban atmosphere");
            ("severe", "industrial / coastal / high pollution") ] |});
    ("biological",
     {| g_name := "Biological Colonization";
        g_mechanisms :=
          [ "lichen colonization";
            "moss growth";
            "algae staining";
            "fungal decay";
            "insect damage";
            "root intrusion" ];
        g_visual_indicators :=
          [ "circular lichen colonies";
            "moss cushions";
            "green algae staining";
            "white fungal hyphae";
            "bore holes" ];
        g_severity_markers :=
          [ ("mild", "dry exposed surfaces");
            ("moderate", "shaded damp surfaces");
            ("severe", "perpetually moist, nutrient-rich, sheltered") ] |});
    ("mechanical",
     {| g_name := "Mechanical Wear";
        g_mechanisms :=
          [ "abrasion";
            "impact";
            "vibration fatigue";
            "foot traffic";
            "wind erosion" ];
        g_visual_indicators :=
          [ "polished wear paths";
            "chipped edges";
            "rounded arrises";
            "smooth concavities";
            "lost detail" ];
        g_severity_markers :=
          [ ("mild", "occasional light contact");
            ("moderate", "regular handling or foot traffic");
            ("severe", "constant abrasion, sand-blast exposure") ] |});
    ("thermal",
     {| g_name := "Thermal Cycling";
        g_mechanisms :=
          [ "expansion-contraction";
            "differential thermal stress";
            "fire damage";
            "frost shattering";
            "exfoliation" ];
        g_visual_indicators :=
          [ "surface parallel cracks";
            "exfoliation shells";
            "fire spalling";
            "calcination whitening";
            "curvature from differential expansion" ];
        g_severity_markers :=
          [ ("mild", "temperate stable climate");
            ("moderate", "continental with significant day-night range");
            ("severe", "desert extremes, fire exposure, industrial heat") ] |}) ].

Definition CONDITION_GRADES : list (string * grade) :=
  [ ("pristine",
     {| c_grade := 1;
        c_description := "As-made condition, no visible weathering";
        c_structural := "fully intact";
        c_surface := "original finish unaltered";
        c_intervention_needed := "none — preventive conservation only" |});
    ("light_weathering",
     {| c_grade := 2;
        c_description := "Early surface changes, character-enhancing";
        c_structural := "fully sound";
        c_surface := "minor colour change, initial biological colonization";
        c_intervention_needed := "monitoring only" |});
    ("moderate_weathering",
     {| c_grade := 3;
        c_description := "Established patina, stable surface changes";
        c_structural := "sound with minor surface loss";
        c_surface := "developed patina, established biological growth";
        c_intervention_needed := "selective cleaning, biocide if needed" |});
    ("advanced_decay",
     {| c_grade := 4;
        c_description := "Active deterioration requiring intervention";
        c_structural := "local weakness, delamination beginning";
        c_surface := "significant loss of original surface";
        c_intervention_needed := "consolidation, stabilization, repair" |});
    ("severe_deterioration",
     {| c_grade := 5;
        c_description := "Major structural compromise";
        c_structural := "critical weakness, risk of collapse/fragmentation";
        c_surface := "extensive loss, substrate exposed";
        c_intervention_needed := "emergency stabilization, reconstruction" |});
    ("ruin",
     {| c_grade := 6;
        c_description := "Fragmentary remains, archaeological condition";
        c_structural := "partial or total loss of structural integrity";
        c_surface := "all original surface gone, substrate weathered through";
        c_intervention_needed := "documentation, managed decay or reconstruction" |}) ].

(** ** Keyword tables of [_extract_keywords] *)

Definition material_patterns : list (string * list string) :=
  [ ("ferrous_metal",
     [ "iron"; "steel"; "rust"; "rusted"; "rusting"; "corten"; "ferrous" ]);
    ("copper_alloy",
     [ "copper"; "bronze"; "brass"; "verdigris"; "patina green" ]);
    ("silver",
     [ "silver"; "tarnish"; "tarnished"; "sterling" ]);
    ("limestone",
     [ "limestone"; "marble"; "chalk"; "calcite" ]);
    ("sandstone",
     [ "sandstone"; "brownstone"; "sandblast" ]);
    ("wood",
     [ "wood"; "timber"; "oak"; "cedar"; "driftwood"; "wooden" ]);
    ("ceramic_glaze",
     [ "ceramic"; "porcelain"; "pottery"; "glaze"; "terracotta"; "craquelure" ]);
    ("paper_textile",
     [ "paper"; "canvas"; "textile"; "fabric"; "vellum"; "parchment"; "linen" ]);
    ("paint_coating",
     [ "paint"; "painted"; "lacquer"; "varnish"; "coating"; "peeling paint" ]);
    ("concrete",
     [ "concrete"; "cement"; "brutalist"; "rebar" ]);
    ("glass",
     [ "glass"; "stained glass"; "iridescent glass" ]) ].

Definition agent_patterns : list (string * list string) :=
  [ ("water",
     [ "rain"; "water"; "flood"; "moisture"; "wet"; "damp"; "coastal"; "salt spray" ]);
    ("uv_solar",
     [ "sun"; "uv"; "faded"; "fading"; "bleach"; "solar" ]);
    ("chemical",
     [ "acid"; "pollution"; "sulfur"; "corrosion"; "industrial" ]);
    ("biological",
     [ "lichen"; "moss"; "algae"; "fungal"; "mold"; "ivy"; "overgrown" ]);
    ("mechanical",
     [ "worn"; "abraded"; "polished"; "traffic"; "scratched"; "chipped" ]);
    ("thermal",
     [ "fire"; "burned"; "frost"; "frozen"; "heat"; "calcined" ]) ].

Definition condition_patterns : list (string * list string) :=
  [ ("pristine",
     [ "new"; "pristine"; "fresh"; "mint"; "unused"; "unworn" ]);
    ("light_weathering",
     [ "slightly aged"; "gentle wear"; "mild patina"; "light weathering" ]);
    ("moderate_weathering",
     [ "aged"; "weathered"; "patinated"; "worn"; "used"; "vintage" ]);
    ("advanced_decay",
     [ "decayed"; "deteriorated"; "damaged"; "crumbling" ]);
    ("severe_deterioration",
     [ "ruined"; "derelict"; "abandoned"; "collapsed" ]);
    ("ruin",
     [ "ruin"; "ruins"; "archaeological"; "ancient"; "fragment" ]) ].

Definition aesthetic_patterns : list (string * list string) :=
  [ ("wabi_sabi",
     [ "wabi"; "sabi"; "wabi-sabi"; "imperfect beauty"; "noble age" ]);
    ("industrial",
     [ "industrial"; "brutalist"; "raw"; "gritty" ]);
    ("romantic_ruin",
     [ "romantic ruin"; "picturesque"; "overgrown"; "reclaimed by nature" ]);
    ("conservation",
     [ "conserved"; "restored"; "stabilized"; "repaired" ]);
    ("kintsugi",
     [ "kintsugi"; "gold repair"; "visible mend"; "embracing damage" ]) ].

(** ** Text matching *)

(** [s.lower()] on ASCII text: the letters [A]-[Z] are lowered, every
    other character is kept. The keyword tables are lower-case ASCII. *)
Definition lower_ascii (c : ascii) : ascii :=
  let n := nat_of_ascii c in
  if (65 <=? n)%nat && (n <=? 90)%nat then ascii_of_nat (n + 32) else c.

Fixpoint py_lower (s : string) : string :=
  match s with
  | EmptyString => EmptyString
  | String c s' => String (lower_ascii c) (py_lower s')
  end.

(** [p in s] on strings: [p] occurs in [s] as a substring. *)
Fixpoint py_in (p s : string) : bool :=
  String.prefix p s ||
  match s with
  | EmptyString => false
  | String _ s' => py_in p s'
  end.

(** The loop over one keyword table: the keys whose patterns include one
    that occurs in the text, in the order of the table. *)
Definition match_patterns (text_lower : string)
    (table : list (string * list string)) : list string :=
  fst <$> List.filter (λ entry : string * list string,
                         existsb (λ p, py_in p text_lower) entry.2) table.

(** The dictionary [matches]. *)
Record keyword_matches : Type := {
  materials : list string;
  agents : list string;
  conditions : list string;
  aesthetics : list string;
}.

Definition _extract_keywords (text : string) : keyword_matches :=
  let text_lower := py_lower text in
  {| materials := match_patterns text_lower material_patterns;
     agents := match_patterns text_lower agent_patterns;
     conditions := match_patterns text_lower condition_patterns;
     aesthetics := match_patterns text_lower aesthetic_patterns |}.

Definition json_of_matches (m : keyword_matches) : json :=
  JDict [ ("materials", json_strs (materials m));
          ("agents", json_strs (agents m));
          ("conditions", json_strs (conditions m));
          ("aesthetics", json_strs (aesthetics m)) ].

Definition json_of_grade (g : grade) : json :=
  JDict [ ("grade", JInt (c_grade g));
          ("description", JStr (c_description g));
          ("structural", JStr (c_structural g));
          ("surface", JStr (c_surface g));
          ("intervention_needed", JStr (c_intervention_needed g)) ].

(** ** Intent classification *)

(** [round(x, 2)]. *)
Definition round2 (x : R) : R := IZR (py_round (x * 100)) / 100.

Definition condition_to_canonical : list (string * string) :=
  [ ("pristine", "fresh_pristine");
    ("light_weathering", "gentle_patina");
    ("moderate_weathering", "noble_verdigris");
    ("advanced_decay", "deep_rust");
    ("severe_deterioration", "stone_erosion");
    ("ruin", "total_ruin") ].

(** What [classify_weathering_intent] works out before it builds its
    result, which [enhance_patina_prompt] reads back from the parsed
    result. *)
Record classification : Type := {
  cl_primary_material : string;
  cl_material : material;
  cl_primary_agents : list string;
  cl_condition : string;
  cl_grade : grade;
  cl_aesthetic : string;
  cl_canonical_state : string;
  cl_confidence : R;
  cl_matches : keyword_matches;
}.

Definition classify_intent (user_intent : string) : res classification :=
  let matches := _extract_keywords user_intent in
  (* Determine primary material *)
  let primary_material :=
    match materials matches with
    | m :: _ => m
    | [] => "ferrous_metal"
    end in
  (* Determine primary agents *)
  let primary_agents :=
    match agents matches with
    | [] => [ "water"; "uv_solar" ]
    | _ :: _ => agents matches
    end in
  (* Determine condition grade *)
  let condition :=
    match conditions matches with
    | c :: _ => c
    | [] =>
        let intent_lower := py_lower user_intent in
        if existsb (λ w, py_in w intent_lower) [ "old"; "ancient"; "centuries" ]
        then "advanced_decay"
        else if existsb (λ w, py_in w intent_lower)
                  [ "aged"; "vintage"; "antique" ]
        then "moderate_weathering"
        else if existsb (λ w, py_in w intent_lower) [ "new"; "clean"; "fresh" ]
        then "pristine"
        else "moderate_weathering"
    end in
  (* Determine aesthetic mode *)
  let aesthetic :=
    match aesthetics matches with
    | a :: _ => a
    | [] => "wabi_sabi"
    end in
  let canonical_state :=
    default "gentle_patina" (assoc condition_to_canonical condition) in
  (* Confidence based on keyword matches *)
  let total_matches :=
    Z.of_nat (length (materials matches) + length (agents matches)
              + length (conditions matches) + length (aesthetics matches)) in
  let confidence := Rmin (IZR total_matches / 5.0) 1.0 in
  mat ← getitem_assoc MATERIAL_CATEGORIES primary_material;
  grade ← getitem_assoc CONDITION_GRADES condition;
  Ret {| cl_primary_material := primary_material;
         cl_material := mat;
         cl_primary_agents := primary_agents;
         cl_condition := condition;
         cl_grade := grade;
         cl_aesthetic := aesthetic;
         cl_canonical_state := canonical_state;
         cl_confidence := round2 (Rmax confidence 0.3);
         cl_matches := matches |}.

Definition json_of_classification (c : classification) : json :=
  JDict
    [ ("primary_material", JStr (cl_primary_material c));
      ("material_details",
        JDict [ ("name", JStr (m_name (cl_material c)));
                ("characteristic_patina",
                  JStr (m_characteristic_patina (cl_material c))) ]);
      ("primary_agents", json_strs (cl_primary_agents c));
      ("condition_grade", JStr (cl_condition c));
      ("condition_details", json_of_grade (cl_grade c));
      ("aesthetic_mode", JStr (cl_aesthetic c));
      ("nearest_canonical_state", JStr (cl_canonical_state c));
      ("confidence", JFloat (Fin (cl_confidence c)));
      ("matched_keywords", json_of_matches (cl_matches c)) ].

Definition classify_weathering_intent (user_intent : string) : res json :=
  c ← classify_intent user_intent; Ret (json_of_classification c).

(** ** Parameter mapping *)

(** [l[start:stop]]: an index below zero counts from the end, and both
    ends are clipped to the list. *)
Definition py_slice {A} (l : list A) (start stop : Z) : list A :=
  let n := Z.of_nat (length l) in
  let clip i := if decide (i < 0)%Z then Z.max 0 (i + n) else Z.min i n in
  take (Z.to_nat (clip stop - clip start)) (drop (Z.to_nat (clip start)) l).

Definition intensity_weights : list (string * R) :=
  [ ("subtle", 0.6); ("moderate", 1.0); ("dramatic", 1.5) ].

Definition emphasis_map : list (string * string) :=
  [ ("surface", "surface_texture");
    ("color", "color_transformation");
    ("structure", "structural_integrity");
    ("biological", "biological_colonization");
    ("temporal", "temporal_evidence");
    ("light", "light_interaction") ].

Definition grade_to_state (material_id : string) : list (string * string) :=
  [ ("pristine", "fresh_pristine");
    ("light_weathering", "gentle_patina");
    ("moderate_weathering",
      if String.eqb material_id "copper_alloy" then "noble_verdigris"
      else "cracked_glaze");
    ("advanced_decay",
      if String.eqb material_id "ferrous_metal" then "deep_rust"
      else "stone_erosion");
    ("severe_deterioration", "stone_erosion");
    ("ruin", "total_ruin") ].

Definition map_weathering_parameters (material_id condition_grade
    primary_agent intensity emphasis : string) : res json :=
  match assoc MATERIAL_CATEGORIES material_id with
  | None =>
      Ret (JDict [ ("error", JStr ("Unknown material: " +:+ material_id));
                   ("available", json_strs (keys MATERIAL_CATEGORIES)) ])
  | Some mat =>
  match assoc CONDITION_GRADES condition_grade with
  | None =>
      Ret (JDict [ ("error", JStr ("Unknown grade: " +:+ condition_grade));
                   ("available", json_strs (keys CONDITION_GRADES)) ])
  | Some grade =>
      water ← getitem_assoc WEATHERING_AGENTS "water";
      let agent := default water (assoc WEATHERING_AGENTS primary_agent) in
      (* Map condition grade to approximate canonical state *)
      let state_id :=
        default "gentle_patina"
          (assoc (grade_to_state material_id) condition_grade) in
      state ← getitem_assoc PATINA_CANONICAL_STATES state_id;
      '(vtype, vdist) ← _patina_nearest_visual_type state;
      vdata ← visual_type_data vtype;
      vocab ← _patina_select_vocabulary state;
      let weight := default 1.0 (assoc intensity_weights intensity) in
      (* Select emphasis category *)
      let primary_cat := default "surface_texture" (assoc emphasis_map emphasis) in
      let primary_terms := default [] (assoc vocab primary_cat) in
      (* Select material-specific visual markers for the condition grade *)
      let grade_index := (c_grade grade - 1)%Z in
      let marker_index :=
        Z.min grade_index (Z.of_nat (length (m_visual_markers mat)) - 1) in
      let material_markers :=
        py_slice (m_visual_markers mat) (Z.max 0 (marker_index - 1))
                 (marker_index + 2) in
      (* Color from progression *)
      let color_index :=
        Z.min grade_index (Z.of_nat (length (m_color_progression mat)) - 1) in
      current_color ← py_index (m_color_progression mat) color_index;
      Ret (JDict
        [ ("material_id", JStr material_id);
          ("material_name", JStr (m_name mat));
          ("condition_grade", JStr condition_grade);
          ("primary_agent", JStr primary_agent);
          ("intensity", JStr intensity);
          ("emphasis", JStr emphasis);
          ("weight", JFloat (Fin weight));
          ("state", JState state);
          ("nearest_visual_type", json_of_id vtype);
          ("visual_distance", JFloat (round4_x vdist));
          ("optical_properties",
            JDict (prod_map (λ k, k) JStr <$> optical vdata));
          ("current_color_stage", JStr current_color);
          ("material_specific_markers", json_strs material_markers);
          ("agent_visual_indicators", json_strs (g_visual_indicators agent));
          ("primary_vocabulary", json_strs primary_terms);
          ("full_vocabulary", JDict (prod_map (λ k, k) json_strs <$> vocab));
          ("keywords", json_strs (keywords vdata));
          ("color_associations", json_strs (color_associations vdata)) ])
  end end.

(** ** The synthesis interface *)

(** [override or detected] for an optional string: [None] and the empty
    string both give way. *)
Definition or_else (override : option string) (detected : string) : string :=
  match override with
  | Some s => if String.eqb s "" then detected else s
  | None => detected
  end.

(** The classification is the parsed result of
    [classify_weathering_intent], the one [json_of_classification]
    renders, and [params] the parsed result of
    [map_weathering_parameters]. *)
Definition enhance_patina_prompt (user_intent : string)
    (material_override condition_override : option string)
    (intensity : string) : res json :=
  (* Classify intent *)
  classification ← classify_intent user_intent;
  let material_id :=
    or_else material_override (cl_primary_material classification) in
  let condition := or_else condition_override (cl_condition classification) in
  let primary_agent :=
    match cl_primary_agents classification with
    | a :: _ => a
    | [] => "water"
    end in
  (* Get full parameter mapping *)
  params ← map_weathering_parameters material_id condition primary_agent
             intensity "surface";
  mat ← getitem_assoc MATERIAL_CATEGORIES material_id;
  Ret (JDict
    [ ("original_intent", JStr user_intent);
      ("intensity", JStr intensity);
      ("classification", json_of_classification classification);
      ("weathering_specification", params);
      ("material_context",
        JDict [ ("name", JStr (m_name mat));
                ("characteristic_patina", JStr (m_characteristic_patina mat));
                ("color_progression", json_strs (m_color_progression mat));
                ("time_scale", JStr (m_time_scale mat)) ]);
      ("synthesis_instructions",
        JDict
          [ ("task",
              JStr ("Synthesize image generation prompt from deterministic "
                    +:+ "weathering parameters"));
            ("approach",
              JStr ("Translate conservation science taxonomy into concrete "
                    +:+ "visual descriptors"));
            ("emphasis",
              JStr ("Apply " +:+ intensity
                    +:+ " intensity to vocabulary selection"));
            ("guidelines",
              json_strs
                [ "Use material_specific_markers for physical accuracy";
                  "Reference color_progression for current weathering stage";
                  "Translate agent_visual_indicators into observable surface evidence";
                  "Maintain specificity — name the oxide, the organism, the fracture mode";
                  "Preserve the aesthetic_character value (wabi-sabi vs destructive)";
                  "Describe patina as surface evidence not metaphor" ]) ]) ]).

(** The number of categories, over the four keyword tables, that a text
    matches. *)
Definition total_matches (text : string) : nat :=
  let m := _extract_keywords text in
  (length (materials m) + length (agents m) + length (conditions m)
   + length (aesthetics m))%nat.

(* ================================================================== *)
(** * Properties *)
(* ================================================================== *)

Lemma Ret_inj {A} (x y : A) : Ret x = Ret y → x = y.
Proof. by intros [= ->]. Qed.

(** ** Coordinates *)

(** Membership in a list literal. *)
Ltac elem_of_literal :=
  repeat first [ apply list_elem_of_here | apply list_elem_of_further ].

(** Case analysis on the next [String.eqb] test of the goal. *)
Ltac case_eqb :=
  match goal with
  | |- context [String.eqb ?a ?b] =>
      destruct (String.eqb_spec a b) as [->|?]
  end.

Lemma mk_state_lookup (e g r i c : R) (p : string) :
  mk_state e g r i c !! p =
    if String.eqb p "exposure_duration" then Some e
    else if String.eqb p "agent_intensity" then Some g
    else if String.eqb p "material_resistance" then Some r
    else if String.eqb p "intervention_state" then Some i
    else if String.eqb p "aesthetic_character" then Some c
    else None.
Proof.
  unfold mk_state; cbn [list_to_map foldr uncurry fst snd].
  repeat (case_eqb; [ by simplify_map_eq | rewrite lookup_insert_ne by done ]).
  apply lookup_empty.
Qed.

Lemma valid_coordinate_inv (s : gmap string R) :
  valid_coordinate s →
  ∃ e g r i c, s = mk_state e g r i c ∧
    0 <= e <= 1 ∧ 0 <= g <= 1 ∧ 0 <= r <= 1 ∧ 0 <= i <= 1 ∧ 0 <= c <= 1.
Proof.
  intros [Hdom Hb].
  assert (Hin : ∀ p, p ∈ PATINA_PARAMETER_NAMES → is_Some (s !! p)).
  { intros p Hp. apply elem_of_dom. rewrite Hdom. by apply elem_of_list_to_set. }
  assert (Hout : ∀ p, p ∉ PATINA_PARAMETER_NAMES → s !! p = None).
  { intros p Hp. apply not_elem_of_dom. rewrite Hdom.
    by rewrite elem_of_list_to_set. }
  destruct (Hin "exposure_duration") as [e He]; [elem_of_literal|].
  destruct (Hin "agent_intensity") as [g Hg]; [elem_of_literal|].
  destruct (Hin "material_resistance") as [r Hr]; [elem_of_literal|].
  destruct (Hin "intervention_state") as [i Hi]; [elem_of_literal|].
  destruct (Hin "aesthetic_character") as [c Hc]; [elem_of_literal|].
  exists e, g, r, i, c. split.
  - apply map_eq; intros p. rewrite mk_state_lookup.
    repeat (case_eqb; [done|]).
    apply Hout. unfold PATINA_PARAMETER_NAMES.
    rewrite !elem_of_cons, elem_of_nil. tauto.
  - pose proof (Hb _ _ He); pose proof (Hb _ _ Hg); pose proof (Hb _ _ Hr);
      pose proof (Hb _ _ Hi); pose proof (Hb _ _ Hc).
    unfold PATINA_PARAMETER_BOUNDS in *; simpl in *. repeat split; lra.
Qed.

Lemma mk_state_valid (e g r i c : R) :
  0 <= e <= 1 → 0 <= g <= 1 → 0 <= r <= 1 → 0 <= i <= 1 → 0 <= c <= 1 →
  valid_coordinate (mk_state e g r i c).
Proof.
  intros He Hg Hr Hi Hc. split.
  - unfold mk_state. rewrite dom_list_to_map_L. reflexivity.
  - intros p v. rewrite mk_state_lookup.
    unfold PATINA_PARAMETER_BOUNDS; simpl.
    repeat (destruct (String.eqb p _); [intros [= <-]; lra|]).
    discriminate.
Qed.

Lemma mk_state_inj (e g r i c e' g' r' i' c' : R) :
  mk_state e g r i c = mk_state e' g' r' i' c' →
  e = e' ∧ g = g' ∧ r = r' ∧ i = i' ∧ c = c'.
Proof.
  intros H.
  pose proof (f_equal (λ m, m !! "exposure_duration") H) as H1.
  pose proof (f_equal (λ m, m !! "agent_intensity") H) as H2.
  pose proof (f_equal (λ m, m !! "material_resistance") H) as H3.
  pose proof (f_equal (λ m, m !! "intervention_state") H) as H4.
  pose proof (f_equal (λ m, m !! "aesthetic_character") H) as H5.
  cbv beta in *. rewrite !mk_state_lookup in *. simpl in *.
  by simplify_eq.
Qed.

(** ** Interpolation *)

Lemma interpolate_mk_state (e g r i c e' g' r' i' c' t : R) (pattern : string) :
  _patina_interpolate_states (mk_state e g r i c) (mk_state e' g' r' i' c')
      t pattern =
    let alpha := interpolation_alpha t pattern in
    Ret (mk_state (e + alpha * (e' - e)) (g + alpha * (g' - g))
                  (r + alpha * (r' - r)) (i + alpha * (i' - i))
                  (c + alpha * (c' - c))).
Proof.
  unfold _patina_interpolate_states. cbv zeta.
  generalize (interpolation_alpha t pattern) as alpha; intros alpha.
  unfold PATINA_PARAMETER_NAMES, dict_comp, getitem.
  rewrite !mk_state_lookup. simpl. reflexivity.
Qed.




Lemma alpha_other (t : R) (pattern : string) :
  pattern ≠ "sinusoidal" → pattern ≠ "triangular" → pattern ≠ "square" →
  interpolation_alpha t pattern = t.
Proof.
  intros H1 H2 H3. unfold interpolation_alpha.
  repeat (case_eqb; [done|]). done.
Qed.

(** The blend weight is a number of [[0, 1]] at every phase of [[0, 1]],
    whatever the pattern string. *)
Lemma alpha_bounds (t : R) (pattern : string) :
  0 <= t <= 1 → 0 <= interpolation_alpha t pattern <= 1.
Proof.
  intros Ht. unfold interpolation_alpha.
  repeat case_eqb.
  - pose proof (COS_bound (PI * t)). lra.
  - destruct (decide _); lra.
  - destruct (decide _); lra.
  - lra.
Qed.

Lemma mk_state_ext (e g r i c e' g' r' i' c' : R) :
  e = e' → g = g' → r = r' → i = i' → c = c' →
  mk_state e g r i c = mk_state e' g' r' i' c'.
Proof. by intros -> -> -> -> ->. Qed.

(** With blend weight [0] the interpolation returns its first argument,
    with blend weight [1] its second. *)
Lemma interpolate_alpha_0 (a b : gmap string R) (t : R) (pattern : string) :
  valid_coordinate a → valid_coordinate b →
  interpolation_alpha t pattern = 0 →
  _patina_interpolate_states a b t pattern = Ret a.
Proof.
  intros (e & g & r & i & c & -> & _)%valid_coordinate_inv
         (e' & g' & r' & i' & c' & -> & _)%valid_coordinate_inv Ha.
  rewrite interpolate_mk_state. cbv zeta. rewrite Ha.
  f_equal. apply mk_state_ext; lra.
Qed.

Lemma interpolate_alpha_1 (a b : gmap string R) (t : R) (pattern : string) :
  valid_coordinate a → valid_coordinate b →
  interpolation_alpha t pattern = 1 →
  _patina_interpolate_states a b t pattern = Ret b.
Proof.
  intros (e & g & r & i & c & -> & _)%valid_coordinate_inv
         (e' & g' & r' & i' & c' & -> & _)%valid_coordinate_inv Ha.
  rewrite interpolate_mk_state. cbv zeta. rewrite Ha.
  f_equal. apply mk_state_ext; lra.
Qed.










(** C10. Whatever the pattern string, at a phase of [[0, 1]] the blend
    weight lies in [[0, 1]], every axis of the result is the convex
    combination [a + alpha * (b - a)] of the endpoints' values, and the
    result is again a coordinate with every axis in [[0, 1]]. *)
Theorem interpolate_within_bounds (a b : gmap string R) (t : R)
    (pattern : string) :
  valid_coordinate a → valid_coordinate b → 0 <= t <= 1 →
  let alpha := interpolation_alpha t pattern in
  0 <= alpha <= 1 ∧
  ∃ s, _patina_interpolate_states a b t pattern = Ret s ∧
       valid_coordinate s ∧
       ∀ p, p ∈ PATINA_PARAMETER_NAMES →
         ∃ va vb v, a !! p = Some va ∧ b !! p = Some vb ∧ s !! p = Some v ∧
                    v = va + alpha * (vb - va) ∧ 0 <= v <= 1.
Proof.
  intros (e & g & r & i & c & -> & He & Hg & Hr & Hi & Hc)%valid_coordinate_inv
         (e' & g' & r' & i' & c' & -> & He' & Hg' & Hr' & Hi' & Hc')%valid_coordinate_inv
         Ht alpha.
  pose proof (alpha_bounds t pattern Ht) as Halpha. fold alpha in Halpha.
  assert (Hconv : ∀ x y, 0 <= x <= 1 → 0 <= y <= 1 →
                         0 <= x + alpha * (y - x) <= 1) by (intros; nra).
  split; [exact Halpha|].
  eexists. split; [apply interpolate_mk_state|]. cbv zeta. fold alpha.
  split; [apply mk_state_valid; auto|].
  intros p Hp. unfold PATINA_PARAMETER_NAMES in Hp.
  rewrite !elem_of_cons, elem_of_nil in Hp.
  rewrite !mk_state_lookup.
  destruct Hp as [->|[->|[->|[->|[->|[]]]]]]; simpl;
    eexists _, _, _; (repeat split; [reflexivity..| |]); apply Hconv; auto.
Qed.

Lemma interpolate_within_bounds_witness :
  ∃ s, _patina_interpolate_states (mk_state 0.00 0.00 0.50 0.00 0.50)
         (mk_state 0.55 0.70 0.40 0.05 0.55) 0.25 "bouncy" = Ret s ∧
       valid_coordinate s.
Proof.
  assert (Ha : valid_coordinate (mk_state 0.00 0.00 0.50 0.00 0.50))
    by (apply mk_state_valid; lra).
  assert (Hb : valid_coordinate (mk_state 0.55 0.70 0.40 0.05 0.55))
    by (apply mk_state_valid; lra).
  assert (Ht : 0 <= 0.25 <= 1) by lra.
  destruct (interpolate_within_bounds _ _ 0.25 "bouncy" Ha Hb Ht)
    as (_ & s & Hs & Hv & _).
  exists s. split; [exact Hs | exact Hv].
Defined.

(** ** Dictionaries that define the five axes *)

Lemma for_each_ext {A B} (l : list A) (f g : A → res B) :
  (∀ x, x ∈ l → f x = g x) → for_each l f = for_each l g.
Proof.
  induction l as [|x l IH]; intros H; simpl; [done|].
  rewrite (H x) by apply list_elem_of_here.
  rewrite IH; [done|]. intros y Hy. apply H. by apply list_elem_of_further.
Qed.


Lemma getitem_same_axes (a a' : gmap string R) (p : string) :
  same_axes a a' → p ∈ PATINA_PARAMETER_NAMES → getitem a p = getitem a' p.
Proof. intros H Hp. unfold getitem. by rewrite (H p Hp). Qed.

Lemma has_axes_project (s : gmap string R) :
  has_axes s → same_axes s (project_axes s).
Proof.
  intros H p Hp. destruct (H p Hp) as [v Hv].
  unfold project_axes. rewrite mk_state_lookup. unfold axis.
  unfold PATINA_PARAMETER_NAMES in Hp.
  rewrite !elem_of_cons, elem_of_nil in Hp.
  destruct Hp as [->|[->|[->|[->|[->|[]]]]]]; simpl; by rewrite Hv.
Qed.

Lemma valid_has_axes (s : gmap string R) : valid_coordinate s → has_axes s.
Proof.
  intros [Hdom _] p Hp. apply elem_of_dom. rewrite Hdom.
  by apply elem_of_list_to_set.
Qed.

Lemma first_missing_None (s : gmap string R) :
  first_missing s = None ↔ has_axes s.
Proof.
  unfold first_missing, has_axes. split.
  - intros H p Hp. apply list_elem_of_In in Hp.
    pose proof (find_none _ _ H p Hp) as Hf. simpl in Hf.
    apply bool_decide_eq_false in Hf.
    by destruct (s !! p); [eexists|].
  - intros H. destruct (find _ _) as [p|] eqn:Hf; [|done].
    apply find_some in Hf as [Hp Hf%bool_decide_eq_true].
    apply list_elem_of_In in Hp. destruct (H p Hp) as [v Hv]. congruence.
Qed.


(** The helpers read the five axes only: entries under other keys do not
    change what they return. *)
Lemma distance_same_axes (a a' b b' : gmap string R) :
  same_axes a a' → same_axes b b' →
  _patina_euclidean_distance a b = _patina_euclidean_distance a' b'.
Proof.
  intros Ha Hb. unfold _patina_euclidean_distance.
  rewrite (for_each_ext _ _
             (λ p, x ← getitem a' p; y ← getitem b' p; Ret ((x - y) ^ 2)));
    [done|].
  intros p Hp. by rewrite (getitem_same_axes a a'), (getitem_same_axes b b').
Qed.



(** ** Distance and nearest neighbour *)

Lemma pow2_eq_0 (x : R) : x ^ 2 = 0 → x = 0.
Proof. simpl. nra. Qed.

Lemma distance_mk_state (e g r i c e' g' r' i' c' : R) :
  _patina_euclidean_distance (mk_state e g r i c) (mk_state e' g' r' i' c') =
    Ret (sqrt ((e - e') ^ 2 + (g - g') ^ 2 + (r - r') ^ 2 + (i - i') ^ 2
               + (c - c') ^ 2)).
Proof.
  unfold _patina_euclidean_distance, PATINA_PARAMETER_NAMES, for_each, getitem.
  rewrite !mk_state_lookup. simpl. unfold py_sum; simpl.
  do 2 f_equal. lra.
Qed.

Lemma distance_nonneg (a b : gmap string R) (d : R) :
  _patina_euclidean_distance a b = Ret d → 0 <= d.
Proof.
  unfold _patina_euclidean_distance.
  destruct (for_each _ _) as [sq|]; simpl; [|done].
  intros [= <-]. apply sqrt_pos.
Qed.

Lemma distance_valid (a b : gmap string R) :
  valid_coordinate a → valid_coordinate b →
  ∃ d, _patina_euclidean_distance a b = Ret d.
Proof.
  intros (e & g & r & i & c & -> & _)%valid_coordinate_inv
         (e' & g' & r' & i' & c' & -> & _)%valid_coordinate_inv.
  eexists. apply distance_mk_state.
Qed.

Lemma distance_total (a b : gmap string R) :
  has_axes a → valid_coordinate b →
  ∃ d, _patina_euclidean_distance a b = Ret d.
Proof.
  intros Ha (e' & g' & r' & i' & c' & -> & _)%valid_coordinate_inv.
  rewrite (distance_same_axes a (project_axes a) _ (mk_state e' g' r' i' c'));
    [|by apply has_axes_project|done].
  unfold project_axes. eexists. apply distance_mk_state.
Qed.

Lemma distance_refl (a : gmap string R) :
  valid_coordinate a → _patina_euclidean_distance a a = Ret 0.
Proof.
  intros (e & g & r & i & c & -> & _)%valid_coordinate_inv.
  rewrite distance_mk_state. f_equal.
  rewrite <- sqrt_0. f_equal. lra.
Qed.

(** Two valid coordinates at distance [0] are the same coordinate. *)
Lemma distance_0_eq (a b : gmap string R) :
  valid_coordinate a → valid_coordinate b →
  _patina_euclidean_distance a b = Ret 0 → a = b.
Proof.
  intros (e & g & r & i & c & -> & _)%valid_coordinate_inv
         (e' & g' & r' & i' & c' & -> & _)%valid_coordinate_inv.
  rewrite distance_mk_state. intros H%Ret_inj.
  pose proof (pow2_ge_0 (e - e')). pose proof (pow2_ge_0 (g - g')).
  pose proof (pow2_ge_0 (r - r')). pose proof (pow2_ge_0 (i - i')).
  pose proof (pow2_ge_0 (c - c')).
  apply sqrt_eq_0 in H; [|lra].
  apply mk_state_ext; apply Rminus_diag_uniq, pow2_eq_0; lra.
Qed.

Lemma lt_xfloat_true (d : R) (best : xfloat) :
  lt_xfloat d best = true ↔ match best with Inf => True | Fin b => d < b end.
Proof.
  destruct best; simpl; [|done]. by rewrite bool_decide_eq_true.
Qed.

Lemma lt_xfloat_false (d : R) (best : xfloat) :
  lt_xfloat d best = false ↔ ∃ b, best = Fin b ∧ b <= d.
Proof.
  destruct best as [b|]; simpl.
  - rewrite bool_decide_eq_false. split.
    + intros H. exists b. split; [done|lra].
    + intros (b' & [= <-] & H). lra.
  - split; [done|]. by intros (b & ? & _).
Qed.

(** The entry looked up at the head of the catalog is the head entry, and
    its distance is the one already computed. *)
Ltac head_entry :=
  match goal with
  | Hj : Some (_, _) = Some (_, _) |- _ => injection Hj as <- <-
  end;
  match goal with
  | H1 : ?x = Ret _, H2 : ?x = Ret _ |- _ =>
      rewrite H1 in H2; apply Ret_inj in H2; subst
  end.

(** The scan of a catalog, for any kind of entry with a coordinate. *)
Section Scan.
Context {E : Type} (center_of : E → gmap string R).

(** The invariant of the scan: either no entry beats the initial best, or
    the result is the first entry among those of least distance, and it
    beats the initial best. *)
Lemma nearest_loop_spec (state : gmap string R) (items : list (string * E)) :
  has_axes state →
  Forall (λ it, valid_coordinate (center_of it.2)) items →
  ∀ best, ∃ best',
    nearest_loop center_of items state best = Ret best' ∧
    ((best' = best ∧
      ∀ (j : nat) sid e d, items !! j = Some (sid, e) →
        _patina_euclidean_distance state (center_of e) = Ret d →
        lt_xfloat d best.2 = false)
     ∨
     (∃ (i : nat) sid e d,
        items !! i = Some (sid, e) ∧
        _patina_euclidean_distance state (center_of e) = Ret d ∧
        best' = (Some sid, Fin d) ∧
        lt_xfloat d best.2 = true ∧
        ∀ (j : nat) sid' e' d', items !! j = Some (sid', e') →
          _patina_euclidean_distance state (center_of e') = Ret d' →
          d <= d' ∧ ((j < i)%nat → d < d'))).
Proof.
  intros Hs. induction items as [|[sid0 e0] items IH]; intros Hall best.
  - exists best. split; [done|]. left. split; [done|]. intros j ????. done.
  - apply Forall_cons in Hall as [H0 Hall]. simpl in H0.
    destruct (distance_total _ _ Hs H0) as [d0 Hd0].
    simpl. rewrite Hd0. simpl.
    destruct (lt_xfloat d0 best.2) eqn:Hlt.
    + destruct (IH Hall (Some sid0, Fin d0)) as (best' & Hrun & Hcase).
      exists best'. split; [exact Hrun|]. right.
      destruct Hcase as [[-> Hrest] | (i & sid & e & d & Hi & Hd & -> & Hbeat & Hmin)].
      * exists 0%nat, sid0, e0, d0. split_and!; try done.
        intros [|j] sid' e' d' Hj Hd'; simpl in Hj.
        -- head_entry. split; [lra|lia].
        -- specialize (Hrest _ _ _ _ Hj Hd').
           apply lt_xfloat_false in Hrest as (b & [= <-] & Hb).
           split; [exact Hb|lia].
      * simpl in Hbeat. apply bool_decide_eq_true in Hbeat.
        exists (S i), sid, e, d. split_and!; try done.
        -- apply lt_xfloat_true. apply lt_xfloat_true in Hlt.
           destruct best.2; [lra|done].
        -- intros [|j] sid' e' d' Hj Hd'; simpl in Hj.
           ++ head_entry. split; [lra|intros _; lra].
           ++ destruct (Hmin _ _ _ _ Hj Hd') as [Hle Hlt'].
              split; [exact Hle|]. intros Hji. apply Hlt'. lia.
    + destruct (IH Hall best) as (best' & Hrun & Hcase).
      exists best'. split; [exact Hrun|].
      destruct Hcase as [[-> Hrest] | (i & sid & e & d & Hi & Hd & -> & Hbeat & Hmin)].
      * left. split; [done|]. intros [|j] sid e d Hj Hd; simpl in Hj.
        -- by head_entry.
        -- by apply (Hrest _ _ _ _ Hj Hd).
      * right. exists (S i), sid, e, d. split_and!; try done.
        intros [|j] sid' e' d' Hj Hd'; simpl in Hj.
        -- head_entry.
           apply lt_xfloat_false in Hlt as (b & Hb & Hle).
           apply lt_xfloat_true in Hbeat. rewrite Hb in Hbeat.
           split; [lra|intros _; lra].
        -- destruct (Hmin _ _ _ _ Hj Hd') as [Hle Hlt'].
           split; [exact Hle|]. intros Hji. apply Hlt'. lia.
Qed.

(** The scan from [(None, inf)] over a non-empty catalog of valid
    coordinates, no two entries of which share a coordinate. *)
Lemma nearest_scan_spec (items : list (string * E)) (state : gmap string R) :
  valid_coordinate state →
  items ≠ [] →
  Forall (λ it, valid_coordinate (center_of it.2)) items →
  (∀ s1 e1 s2 e2, (s1, e1) ∈ items → (s2, e2) ∈ items →
     center_of e1 = center_of e2 → s1 = s2) →
  nearest_spec center_of items state
    (nearest_loop center_of items state (None, Inf)).
Proof.
  intros Hs Hne Hall Hinj.
  destruct (nearest_loop_spec state items (valid_has_axes _ Hs)
              Hall (None, Inf))
    as (best' & Hrun & [[_ Hnone] | (i & sid & e & d & Hi & Hd & -> & _ & Hmin)]).
  { destruct items as [|[sid0 e0] items]; [done|].
    apply Forall_cons in Hall as [H0 _].
    destruct (distance_valid _ _ Hs H0) as [d0 Hd0].
    by specialize (Hnone 0%nat sid0 e0 d0 eq_refl Hd0). }
  assert (Hd0 : 0 <= d) by (eapply distance_nonneg; exact Hd).
  exists i, sid, e, d. split_and!; try done.
  - apply list_elem_of_fmap. exists (sid, e). split; [done|].
    by eapply list_elem_of_lookup_2.
  - intros sid' e' Hin Hco.
    assert (Hd' : _patina_euclidean_distance state (center_of e') = Ret 0).
    { rewrite Hco. by apply distance_refl. }
    destruct (proj1 (list_elem_of_lookup _ _) Hin) as [k Hk].
    destruct (Hmin _ _ _ _ Hk Hd') as [Hle _].
    assert (d = 0) as -> by lra. split; [done|].
    apply (Hinj sid e sid' e'); [by eapply list_elem_of_lookup_2|done|].
    rewrite Hco. symmetry. apply distance_0_eq; [done| |done].
    apply (proj1 (Forall_forall _ _) Hall (sid, e)).
    by eapply list_elem_of_lookup_2.
Qed.

(** A scan from [(None, inf)] over a non-empty catalog returns an
    identifier of the catalog, for every dictionary with the five axes. *)
Lemma nearest_scan_total (items : list (string * E)) (state : gmap string R) :
  has_axes state →
  items ≠ [] →
  Forall (λ it, valid_coordinate (center_of it.2)) items →
  ∃ sid d, nearest_loop center_of items state (None, Inf)
             = Ret (Some sid, Fin d) ∧
           sid ∈ keys items ∧ 0 <= d.
Proof.
  intros Hs Hne Hall.
  destruct (nearest_loop_spec state items Hs Hall (None, Inf))
    as (best' & Hrun & [[_ Hnone] | (i & sid & e & d & Hi & Hd & -> & _ & _)]).
  { destruct items as [|[sid0 e0] items]; [done|].
    apply Forall_cons in Hall as [H0 _].
    destruct (distance_total _ _ Hs H0) as [d0 Hd0].
    by specialize (Hnone 0%nat sid0 e0 d0 eq_refl Hd0). }
  exists sid, d. split_and!; [done| |by eapply distance_nonneg].
  apply list_elem_of_fmap. exists (sid, e). split; [done|].
  by eapply list_elem_of_lookup_2.
Qed.

End Scan.

(** The catalogs hold valid coordinates, and no two entries of a catalog
    share a coordinate. *)
Ltac forall_valid :=
  repeat (apply List.Forall_cons; [simpl; apply mk_state_valid; lra|]);
  apply List.Forall_nil.

Lemma canonical_states_valid :
  Forall (λ it, valid_coordinate it.2) PATINA_CANONICAL_STATES.
Proof. unfold PATINA_CANONICAL_STATES. forall_valid. Qed.

Lemma visual_types_valid :
  Forall (λ it, valid_coordinate (center it.2)) PATINA_VISUAL_TYPES.
Proof. unfold PATINA_VISUAL_TYPES. forall_valid. Qed.

Ltac distinct_centers :=
  first [ reflexivity
        | exfalso;
          match goal with
          | H : mk_state _ _ _ _ _ = mk_state _ _ _ _ _ |- _ =>
              apply mk_state_inj in H; lra
          end ].

Lemma canonical_states_distinct (s1 s2 : string) (c1 c2 : gmap string R) :
  (s1, c1) ∈ PATINA_CANONICAL_STATES → (s2, c2) ∈ PATINA_CANONICAL_STATES →
  c1 = c2 → s1 = s2.
Proof.
  unfold PATINA_CANONICAL_STATES. rewrite !elem_of_cons, !elem_of_nil.
  intros H1 H2 Heq.
  repeat (destruct H1 as [H1|H1]; [injection H1 as -> ->|]); [..|done];
    repeat (destruct H2 as [H2|H2]; [injection H2 as -> ->|]);
    try done; distinct_centers.
Qed.

Lemma visual_type_centers :
  (λ it : string * visual_type, (it.1, center it.2)) <$> PATINA_VISUAL_TYPES =
    [ ("pristine_surface", mk_state 0.05 0.05 0.50 0.05 0.50);
      ("warm_aged", mk_state 0.30 0.20 0.60 0.05 0.85);
      ("oxidation_bloom", mk_state 0.55 0.55 0.55 0.08 0.75);
      ("erosion_sculpted", mk_state 0.70 0.60 0.60 0.12 0.70);
      ("fracture_network", mk_state 0.50 0.45 0.45 0.10 0.75);
      ("archaeological_layer", mk_state 0.90 0.80 0.35 0.05 0.45) ].
Proof. reflexivity. Qed.

Lemma visual_types_distinct (s1 s2 : string) (v1 v2 : visual_type) :
  (s1, v1) ∈ PATINA_VISUAL_TYPES → (s2, v2) ∈ PATINA_VISUAL_TYPES →
  center v1 = center v2 → s1 = s2.
Proof.
  intros H1 H2.
  apply (list_elem_of_fmap_2 (λ it, (it.1, center it.2))) in H1, H2.
  rewrite visual_type_centers in H1, H2. simpl in H1, H2.
  revert H1 H2. generalize (center v1) (center v2). intros c1 c2.
  rewrite !elem_of_cons, !elem_of_nil.
  intros H1 H2 Heq.
  repeat (destruct H1 as [H1|H1]; [injection H1 as -> ->|]); [..|done];
    repeat (destruct H2 as [H2|H2]; [injection H2 as -> ->|]);
    try done; distinct_centers.
Qed.

Lemma nearest_canonical_spec (state : gmap string R) :
  valid_coordinate state →
  nearest_spec (λ coords, coords) PATINA_CANONICAL_STATES state
    (_patina_nearest_canonical state).
Proof.
  intros Hs. apply nearest_scan_spec;
    [exact Hs | discriminate | apply canonical_states_valid |].
  intros s1 e1 s2 e2. apply canonical_states_distinct.
Qed.

Lemma nearest_visual_type_spec (state : gmap string R) :
  valid_coordinate state →
  nearest_spec center PATINA_VISUAL_TYPES state
    (_patina_nearest_visual_type state).
Proof.
  intros Hs. apply nearest_scan_spec;
    [exact Hs | discriminate | apply visual_types_valid |].
  intros s1 e1 s2 e2. apply visual_types_distinct.
Qed.



(** ** Loops and ranges *)

Lemma for_each_Forall2 {A B} (P : A → B → Prop) (l : list A)
    (body : A → res B) :
  (∀ x, x ∈ l → ∃ y, body x = Ret y ∧ P x y) →
  ∃ ys, for_each l body = Ret ys ∧ Forall2 P l ys.
Proof.
  induction l as [|x l IH]; intros Hbody.
  - exists []. split; [done|constructor].
  - destruct (Hbody x) as (y & Hy & HP); [apply list_elem_of_here|].
    destruct IH as (ys & Hys & HF).
    { intros x' Hx'. apply Hbody. by apply list_elem_of_further. }
    exists (y :: ys). simpl. rewrite Hy. simpl. rewrite Hys. simpl.
    split; [done|by constructor].
Qed.

Lemma elem_of_py_range (n x : Z) : x ∈ py_range n → (0 <= x < n)%Z.
Proof.
  unfold py_range. intros (k & -> & Hk)%list_elem_of_fmap.
  apply elem_of_seq in Hk. lia.
Qed.

Lemma length_py_range (n : Z) : length (py_range n) = Z.to_nat n.
Proof. unfold py_range. by rewrite length_fmap, length_seq. Qed.

Lemma lookup_py_range (n : Z) (i : nat) :
  (Z.of_nat i < n)%Z → py_range n !! i = Some (Z.of_nat i).
Proof.
  intros Hi. unfold py_range. rewrite list_lookup_fmap.
  rewrite lookup_seq_lt by lia. done.
Qed.

Lemma assoc_elem_of {V} (l : list (string * V)) (k : string) (v : V) :
  assoc l k = Some v → (k, v) ∈ l.
Proof.
  induction l as [|[k' v'] l IH]; simpl; [done|].
  destruct (String.eqb_spec k k') as [->|_].
  - intros [= ->]. apply list_elem_of_here.
  - intros H. apply list_elem_of_further. by apply IH.
Qed.

(** ** Phases *)

Lemma div_unit_interval (s p : Z) :
  (0 <= s < p)%Z → 0 <= IZR s / IZR p < 1.
Proof.
  intros [Hs Hp]. apply IZR_le in Hs. apply IZR_lt in Hp.
  assert (Hy : 0 < IZR p) by lra.
  pose proof (Rinv_0_lt_compat _ Hy) as Hinv.
  assert (Hone : IZR p * / IZR p = 1) by (apply Rinv_r; lra).
  unfold Rdiv. split; nra.
Qed.

Lemma py_fmod1_bounds (x : R) : 0 <= py_fmod1 x < 1.
Proof. unfold py_fmod1. pose proof (Zfloor_bound x). lra. Qed.

(** [x % 1.0] leaves a phase of [[0, 1)] unchanged. *)
Lemma py_fmod1_id (x : R) : 0 <= x < 1 → py_fmod1 x = x.
Proof.
  intros Hx. unfold py_fmod1.
  rewrite (Zfloor_eq 0 x) by (simpl; lra). simpl. lra.
Qed.

(** ** Samples *)

Lemma interpolate_valid (a b : gmap string R) (t : R) (pattern : string) :
  valid_coordinate a → valid_coordinate b → 0 <= t <= 1 →
  ∃ s, _patina_interpolate_states a b t pattern = Ret s ∧ valid_coordinate s.
Proof.
  intros (e & g & r & i & c & -> & He & Hg & Hr & Hi & Hc)%valid_coordinate_inv
         (e' & g' & r' & i' & c' & -> & He' & Hg' & Hr' & Hi' & Hc')%valid_coordinate_inv
         Ht.
  pose proof (alpha_bounds t pattern Ht) as Halpha.
  eexists. split; [apply interpolate_mk_state|]. cbv zeta.
  apply mk_state_valid; nra.
Qed.

Lemma nearest_visual_type_ret (state : gmap string R) :
  has_axes state →
  ∃ v d, _patina_nearest_visual_type state = Ret (Some v, Fin d) ∧
         v ∈ keys PATINA_VISUAL_TYPES ∧ 0 <= d.
Proof.
  intros Hs. apply nearest_scan_total;
    [exact Hs | discriminate | apply visual_types_valid].
Qed.

Lemma nearest_canonical_ret (state : gmap string R) :
  has_axes state →
  ∃ v d, _patina_nearest_canonical state = Ret (Some v, Fin d) ∧
         v ∈ keys PATINA_CANONICAL_STATES ∧ 0 <= d.
Proof.
  intros Hs. apply nearest_scan_total;
    [exact Hs | discriminate | apply canonical_states_valid].
Qed.


Lemma canonical_state_valid (sid : string) (s : gmap string R) :
  assoc PATINA_CANONICAL_STATES sid = Some s → valid_coordinate s.
Proof.
  intros H%assoc_elem_of.
  apply (proj1 (Forall_forall _ _) canonical_states_valid (sid, s) H).
Qed.

(** ** Rhythmic sequences *)

(** Every configured preset has a positive period and names two canonical
    states. *)
Lemma preset_wf (name : string) (cfg : preset) :
  assoc PATINA_RHYTHMIC_PRESETS name = Some cfg →
  (0 < p_period cfg)%Z ∧
  ∃ a b, assoc PATINA_CANONICAL_STATES (p_state_a cfg) = Some a ∧
         assoc PATINA_CANONICAL_STATES (p_state_b cfg) = Some b.
Proof.
  unfold PATINA_RHYTHMIC_PRESETS. cbn [assoc].
  repeat (case_eqb;
          [ intros [= <-]; cbn [p_period p_state_a p_state_b];
            split; [lia | eexists _, _; split; reflexivity]
          | ]).
  done.
Qed.

(** The replay of a configured preset: one sample per step of
    [range(period)]. *)
Lemma apply_preset_spec (name : string) (cfg : preset) :
  assoc PATINA_RHYTHMIC_PRESETS name = Some cfg →
  ∃ a b samples,
    assoc PATINA_CANONICAL_STATES (p_state_a cfg) = Some a ∧
    assoc PATINA_CANONICAL_STATES (p_state_b cfg) = Some b ∧
    apply_patina_rhythmic_preset name =
      Ret (JDict [ ("preset", JStr name);
                   ("period", JInt (p_period cfg));
                   ("pattern", JStr (p_pattern cfg));
                   ("state_a", JStr (p_state_a cfg));
                   ("state_b", JStr (p_state_b cfg));
                   ("description", JStr (p_description cfg));
                   ("sequence", JList samples);
                   ("total_steps", JInt (Z.of_nat (length samples))) ]) ∧
    Forall2 (replay_sample a b (p_pattern cfg) (p_period cfg))
            (py_range (p_period cfg)) samples.
Proof.
  intros Hcfg. destruct (preset_wf _ _ Hcfg) as (Hper & a & b & Ha & Hb).
  pose proof (canonical_state_valid _ _ Ha) as Hva.
  pose proof (canonical_state_valid _ _ Hb) as Hvb.
  exists a, b.
  destruct (for_each_Forall2
              (replay_sample a b (p_pattern cfg) (p_period cfg))
              (py_range (p_period cfg))
              (λ step,
                 t ← py_truediv step (p_period cfg);
                 state ← _patina_interpolate_states a b t (p_pattern cfg);
                 '(vtype, vdist) ← _patina_nearest_visual_type state;
                 Ret (JDict [ ("step", JInt step);
                              ("phase", JFloat (Fin (round4 t)));
                              ("state", round_state state);
                              ("nearest_visual_type", json_of_id vtype);
                              ("visual_distance", JFloat (round4_x vdist)) ])))
    as (samples & Hrun & Hall).
  { intros step Hstep%elem_of_py_range.
    pose proof (div_unit_interval _ _ Hstep) as Ht.
    destruct (interpolate_valid a b (IZR step / IZR (p_period cfg))
                (p_pattern cfg) Hva Hvb) as (st & Hst & Hvst); [lra|].
    destruct (nearest_visual_type_ret _ (valid_has_axes _ Hvst))
      as (v & d & Hv & _ & _).
    eexists. split.
    - unfold py_truediv. destruct (decide _) as [Hz|_]; [lia|].
      simpl. rewrite Hst. simpl. rewrite Hv. simpl. reflexivity.
    - exists st, v, d. cbv zeta. by split_and!. }
  exists samples. split_and!; [done..| |done].
  unfold apply_patina_rhythmic_preset. rewrite Hcfg.
  unfold getitem_assoc. rewrite Ha, Hb. simpl.
  rewrite Hrun. reflexivity.
Qed.

(** The custom oscillation between two known canonical states: one sample
    per step of [range(num_cycles * steps_per_cycle)], whatever the sign
    of the two counts. *)
Lemma generate_sequence_spec (state_a_id state_b_id pattern : string)
    (num_cycles steps_per_cycle : Z) (phase_offset : R)
    (a b : gmap string R) :
  assoc PATINA_CANONICAL_STATES state_a_id = Some a →
  assoc PATINA_CANONICAL_STATES state_b_id = Some b →
  ∃ samples,
    generate_patina_rhythmic_sequence state_a_id state_b_id pattern
        num_cycles steps_per_cycle phase_offset =
      Ret (JDict [ ("state_a", JStr state_a_id);
                   ("state_b", JStr state_b_id);
                   ("pattern", JStr pattern);
                   ("num_cycles", JInt num_cycles);
                   ("steps_per_cycle", JInt steps_per_cycle);
                   ("phase_offset", JFloat (Fin phase_offset));
                   ("total_steps", JInt (num_cycles * steps_per_cycle));
                   ("sequence", JList samples) ]) ∧
    Forall2 (oscillation_sample a b pattern steps_per_cycle phase_offset)
            (py_range (num_cycles * steps_per_cycle)) samples.
Proof.
  intros Ha Hb.
  pose proof (canonical_state_valid _ _ Ha) as Hva.
  pose proof (canonical_state_valid _ _ Hb) as Hvb.
  destruct (for_each_Forall2
              (oscillation_sample a b pattern steps_per_cycle phase_offset)
              (py_range (num_cycles * steps_per_cycle))
              (λ step,
                 q ← py_truediv step steps_per_cycle;
                 let raw_t := q + phase_offset in
                 let t := py_fmod1 raw_t in
                 state ← _patina_interpolate_states a b t pattern;
                 '(vtype, vdist) ← _patina_nearest_visual_type state;
                 cycle ← py_floordiv step steps_per_cycle;
                 Ret (JDict [ ("step", JInt step);
                              ("cycle", JInt cycle);
                              ("phase", JFloat (Fin (round4 t)));
                              ("state", round_state state);
                              ("nearest_visual_type", json_of_id vtype);
                              ("visual_distance", JFloat (round4_x vdist)) ])))
    as (samples & Hrun & Hall).
  { intros step Hstep%elem_of_py_range.
    assert (Hnz : steps_per_cycle ≠ 0%Z) by lia.
    pose proof (py_fmod1_bounds
                  (IZR step / IZR steps_per_cycle + phase_offset)) as Ht.
    destruct (interpolate_valid a b
                (py_fmod1 (IZR step / IZR steps_per_cycle + phase_offset))
                pattern Hva Hvb) as (st & Hst & Hvst); [lra|].
    destruct (nearest_visual_type_ret _ (valid_has_axes _ Hvst))
      as (v & d & Hv & _ & _).
    eexists. split.
    - unfold py_truediv, py_floordiv. destruct (decide _) as [Hz|_]; [done|].
      simpl. rewrite Hst. simpl. rewrite Hv. simpl. reflexivity.
    - exists st, v, d. cbv zeta. by split_and!. }
  exists samples. split; [|done].
  unfold generate_patina_rhythmic_sequence. rewrite Ha, Hb.
  cbv zeta in Hrun |- *. rewrite Hrun. reflexivity.
Qed.

Lemma Forall2_py_range (P : Z → json → Prop) (n : Z) (samples : list json) :
  Forall2 P (py_range n) samples →
  length samples = Z.to_nat n ∧
  ∀ (i : nat) sample, samples !! i = Some sample →
    (Z.of_nat i < n)%Z ∧ P (Z.of_nat i) sample.
Proof.
  intros HF. pose proof (Forall2_length _ _ _ HF) as Hlen.
  rewrite length_py_range in Hlen. split; [done|].
  intros i sample Hi.
  destruct (Forall2_lookup_r _ _ _ _ _ HF Hi) as (x & Hx & HP).
  assert (Hlt : (Z.of_nat i < n)%Z).
  { apply lookup_lt_Some in Hi. lia. }
  rewrite lookup_py_range in Hx by done. by simplify_eq.
Qed.

Lemma canonical_keys :
  keys PATINA_CANONICAL_STATES =
    [ "fresh_pristine"; "gentle_patina"; "noble_verdigris"; "deep_rust";
      "stone_erosion"; "paper_foxing"; "cracked_glaze"; "total_ruin" ].
Proof. reflexivity. Qed.








(** C5 (as amended). Between two known canonical states, a custom
    oscillation with a non-positive cycle count or a non-positive
    per-cycle sample count does not fail: no count is validated, the
    result is not an error record, it reports
    [total_steps = num_cycles * steps_per_cycle] and holds
    [max(0, total_steps)] samples, hence none unless both counts are
    negative. *)
Theorem nonpositive_counts_succeed
    (state_a_id state_b_id pattern : string) (a b : gmap string R)
    (num_cycles steps_per_cycle : Z) (phase_offset : R) :
  assoc PATINA_CANONICAL_STATES state_a_id = Some a →
  assoc PATINA_CANONICAL_STATES state_b_id = Some b →
  (num_cycles <= 0 ∨ steps_per_cycle <= 0)%Z →
  ∃ out samples,
    generate_patina_rhythmic_sequence state_a_id state_b_id pattern
      num_cycles steps_per_cycle phase_offset = Ret out ∧
    ¬ is_error out ∧
    json_get "total_steps" out = Some (JInt (num_cycles * steps_per_cycle)) ∧
    json_get "sequence" out = Some (JList samples) ∧
    length samples = Z.to_nat (num_cycles * steps_per_cycle) ∧
    ((num_cycles = 0 ∨ steps_per_cycle = 0 ∨
      (num_cycles < 0 ∧ 0 < steps_per_cycle) ∨
      (0 < num_cycles ∧ steps_per_cycle < 0))%Z → samples = []).
Proof.
  intros Ha Hb _.
  destruct (generate_sequence_spec state_a_id state_b_id pattern num_cycles
              steps_per_cycle phase_offset _ _ Ha Hb)
    as (samples & Hrun & Hall).
  apply Forall2_py_range in Hall as [Hlen _].
  eexists _, samples.
  split_and!; [exact Hrun| |reflexivity|reflexivity|exact Hlen|].
  - unfold is_error. simpl. by intros [? ?].
  - intros Hsign. apply nil_length_inv. rewrite Hlen.
    assert (num_cycles * steps_per_cycle <= 0)%Z by nia. lia.
Qed.

Lemma nonpositive_counts_succeed_witness :
  ∃ out,
    generate_patina_rhythmic_sequence "fresh_pristine" "deep_rust"
      "sinusoidal" (-2) 20 0 = Ret out ∧
    ¬ is_error out ∧
    json_get "sequence" out = Some (JList []).
Proof.
  destruct (nonpositive_counts_succeed "fresh_pristine" "deep_rust"
              "sinusoidal" _ _ (-2) 20 0 eq_refl eq_refl)
    as (out & samples & Hrun & Hok & _ & Hseq & _ & Hnil); [lia|].
  rewrite Hnil in Hseq by lia.
  exists out. split; [exact Hrun|]. split; [exact Hok|exact Hseq].
Defined.

(** C5, counterexample. With a cycle count of 0 the custom oscillation
    between [fresh_pristine] and [deep_rust] returns a successful record
    with an empty sequence, not an error. *)
Lemma zero_cycles_is_not_an_error :
  generate_patina_rhythmic_sequence "fresh_pristine" "deep_rust"
    "sinusoidal" 0 20 0 =
    Ret (JDict [ ("state_a", JStr "fresh_pristine");
                 ("state_b", JStr "deep_rust");
                 ("pattern", JStr "sinusoidal");
                 ("num_cycles", JInt 0);
                 ("steps_per_cycle", JInt 20);
                 ("phase_offset", JFloat (Fin 0));
                 ("total_steps", JInt 0);
                 ("sequence", JList []) ]) ∧
  ¬ is_error
      (JDict [ ("state_a", JStr "fresh_pristine");
               ("state_b", JStr "deep_rust");
               ("pattern", JStr "sinusoidal");
               ("num_cycles", JInt 0);
               ("steps_per_cycle", JInt 20);
               ("phase_offset", JFloat (Fin 0));
               ("total_steps", JInt 0);
               ("sequence", JList []) ]).
Proof.
  split; [reflexivity|]. unfold is_error. simpl. by intros [? ?].
Qed.

(** C7. For every configured preset, the custom oscillation with one
    cycle, as many samples per cycle as the preset's period, phase offset
    0, and the preset's two states and pattern, yields as many samples as
    the replay of the preset, and at every step the two samples have the
    same step index, phase, interpolated coordinate, nearest visual type
    and distance; the custom sample holds in addition the cycle index 0. *)
Theorem custom_oscillation_agrees_with_preset (name : string) (cfg : preset) :
  assoc PATINA_RHYTHMIC_PRESETS name = Some cfg →
  ∃ out1 out2 seq1 seq2,
    apply_patina_rhythmic_preset name = Ret out1 ∧
    generate_patina_rhythmic_sequence (p_state_a cfg) (p_state_b cfg)
      (p_pattern cfg) 1 (p_period cfg) 0 = Ret out2 ∧
    json_get "sequence" out1 = Some (JList seq1) ∧
    json_get "sequence" out2 = Some (JList seq2) ∧
    length seq1 = Z.to_nat (p_period cfg) ∧
    length seq2 = Z.to_nat (p_period cfg) ∧
    ∀ (i : nat) s1 s2, seq1 !! i = Some s1 → seq2 !! i = Some s2 →
      json_get "step" s1 = Some (JInt (Z.of_nat i)) ∧
      (∀ k, k ∈ [ "step"; "phase"; "state"; "nearest_visual_type";
                  "visual_distance" ] →
            is_Some (json_get k s1) ∧ json_get k s2 = json_get k s1) ∧
      json_get "cycle" s2 = Some (JInt 0).
Proof.
  intros Hcfg.
  destruct (apply_preset_spec _ _ Hcfg)
    as (a & b & seq1 & Ha & Hb & Hrun1 & Hall1).
  destruct (generate_sequence_spec (p_state_a cfg) (p_state_b cfg)
              (p_pattern cfg) 1 (p_period cfg) 0 _ _ Ha Hb)
    as (seq2 & Hrun2 & Hall2).
  replace (1 * p_period cfg)%Z with (p_period cfg) in * by lia.
  apply Forall2_py_range in Hall1 as [Hlen1 Hall1].
  apply Forall2_py_range in Hall2 as [Hlen2 Hall2].
  eexists _, _, seq1, seq2.
  split_and!; [exact Hrun1|exact Hrun2|reflexivity|reflexivity|done|done|].
  intros i s1 s2 H1 H2.
  destruct (Hall1 _ _ H1) as [Hlt (st1 & v1 & d1 & Hst1 & Hv1 & ->)].
  destruct (Hall2 _ _ H2) as [_ (st2 & v2 & d2 & Hst2 & Hv2 & ->)].
  cbv zeta in Hst1, Hst2.
  assert (Hrange : (0 <= Z.of_nat i < p_period cfg)%Z) by lia.
  pose proof (div_unit_interval _ _ Hrange) as Ht.
  assert (Hphase : py_fmod1 (IZR (Z.of_nat i) / IZR (p_period cfg) + 0) =
                   IZR (Z.of_nat i) / IZR (p_period cfg)).
  { rewrite Rplus_0_r. by apply py_fmod1_id. }
  rewrite Hphase in Hst2. rewrite Hst1 in Hst2. apply Ret_inj in Hst2 as <-.
  rewrite Hv1 in Hv2. apply Ret_inj in Hv2. injection Hv2 as <- <-.
  cbv zeta. rewrite Hphase. split_and!.
  - reflexivity.
  - intros k Hk. rewrite !elem_of_cons, elem_of_nil in Hk.
    destruct Hk as [->|[->|[->|[->|[->|[]]]]]]; split; by eauto.
  - simpl. by rewrite Z.div_small by lia.
Qed.

Lemma custom_oscillation_agrees_with_preset_witness :
  ∃ out1 out2 seq1 seq2,
    apply_patina_rhythmic_preset "entropy_wave" = Ret out1 ∧
    generate_patina_rhythmic_sequence "gentle_patina" "total_ruin"
      "sinusoidal" 1 30 0 = Ret out2 ∧
    json_get "sequence" out1 = Some (JList seq1) ∧
    json_get "sequence" out2 = Some (JList seq2) ∧
    length seq1 = 30%nat ∧ length seq2 = 30%nat.
Proof.
  destruct (custom_oscillation_agrees_with_preset "entropy_wave" _ eq_refl)
    as (out1 & out2 & seq1 & seq2 & H1 & H2 & H3 & H4 & H5 & H6 & _).
  exists out1, out2, seq1, seq2.
  split; [exact H1|]. split; [exact H2|]. split; [exact H3|].
  split; [exact H4|]. split; [exact H5|exact H6].
Defined.

(** ** Order-preserving deduplication *)










(** ** Vocabulary selection *)

Lemma py_round_0 : py_round 0 = 0%Z.
Proof.
  unfold py_round. rewrite (ZfloorZ 0). simpl.
  destruct (decide _) as [_|H]; [done|]. exfalso. apply H. lra.
Qed.

(** Away from a tie, [round] is the nearest integer. *)
Lemma py_round_nearest (x : R) (z : Z) :
  IZR z - 0.5 < x < IZR z + 0.5 → py_round x = z.
Proof.
  intros Hx. unfold py_round. cbv zeta.
  destruct (decide (IZR z <= x)) as [Hle|Hgt].
  - rewrite (Zfloor_eq z x) by lra.
    destruct (decide _) as [_|Hn]; [done|]. exfalso. lra.
  - rewrite (Zfloor_eq (z - 1) x) by (rewrite minus_IZR; lra).
    rewrite minus_IZR.
    destruct (decide _) as [Hn|_]; [exfalso; lra|].
    destruct (decide _) as [_|Hn]; [f_equal; lia|exfalso; lra].
Qed.

(** On a tie, [round] is the even neighbour. *)
Lemma py_round_tie (z : Z) :
  py_round (IZR z + 0.5) = if Z.even z then z else (z + 1)%Z.
Proof.
  unfold py_round. cbv zeta. rewrite (Zfloor_eq z) by lra.
  destruct (decide _) as [Hn|_]; [exfalso; lra|].
  destruct (decide _) as [Hn|_]; [exfalso; lra|]. done.
Qed.

Example py_round_ties :
  py_round 0.5 = 0%Z ∧ py_round 1.5 = 2%Z ∧ py_round 2.5 = 2%Z ∧
  py_round (-0.5) = 0%Z.
Proof.
  split_and!.
  - replace 0.5 with (IZR 0 + 0.5) by lra. by rewrite py_round_tie.
  - replace 1.5 with (IZR 1 + 0.5) by lra. by rewrite py_round_tie.
  - replace 2.5 with (IZR 2 + 0.5) by lra. by rewrite py_round_tie.
  - replace (-0.5) with (IZR (-1) + 0.5) by lra. by rewrite py_round_tie.
Qed.

Lemma has_axes_lookup (s : gmap string R) (p : string) :
  has_axes s → p ∈ PATINA_PARAMETER_NAMES → s !! p = Some (axis s p).
Proof.
  intros H Hp. destruct (H p Hp) as [v Hv]. unfold axis. by rewrite Hv.
Qed.

(** The index a category derives is [round(v * (n - 1))] for its scalar
    [v]. *)
Lemma vocabulary_index_spec (category : string) (s : gmap string R) (n : Z) :
  has_axes s →
  vocabulary_index category s n =
    Ret (py_round (category_scalar category s * IZR (n - 1))).
Proof.
  intros H. unfold vocabulary_index, category_scalar, getitem.
  rewrite (has_axes_lookup s "exposure_duration") by (done || elem_of_literal).
  rewrite (has_axes_lookup s "agent_intensity") by (done || elem_of_literal).
  rewrite (has_axes_lookup s "material_resistance") by (done || elem_of_literal).
  rewrite (has_axes_lookup s "intervention_state") by (done || elem_of_literal).
  cbv zeta.
  repeat (case_eqb; [simpl; do 3 f_equal; lra|]).
  by rewrite Rmult_0_l, py_round_0.
Qed.

Lemma py_index_lookup {A} (l : list A) (i : Z) (x : A) :
  (0 <= i)%Z → l !! Z.to_nat i = Some x → py_index l i = Ret x.
Proof.
  intros Hi Hx. unfold py_index. cbv zeta.
  destruct (decide (i < 0)%Z); [lia|].
  destruct (decide (i < 0)%Z); [lia|]. by rewrite Hx.
Qed.

(** One category: the phrase at the clamped index and its two neighbours,
    deduplicated. *)
Lemma select_category_spec (s : gmap string R) (category : string)
    (terms : list string) :
  has_axes s → terms ≠ [] →
  let n := Z.of_nat (length terms) in
  let idx := category_index category s n in
  (0 <= idx <= n - 1)%Z ∧
  ∃ t1 t2 t3,
    terms !! Z.to_nat (Z.max 0 (idx - 1)) = Some t1 ∧
    terms !! Z.to_nat idx = Some t2 ∧
    terms !! Z.to_nat (Z.min (n - 1) (idx + 1)) = Some t3 ∧
    select_category s (category, terms) = Ret (category, unique [t1; t2; t3]).
Proof.
  intros Hs Hne n idx.
  assert (Hn : (1 <= n)%Z).
  { subst n. destruct terms; [done|]. simpl. lia. }
  assert (Hidx : (0 <= idx <= n - 1)%Z) by (subst idx; unfold category_index; lia).
  split; [exact Hidx|].
  destruct (lookup_lt_is_Some_2 terms (Z.to_nat (Z.max 0 (idx - 1))))
    as [t1 H1]; [lia|].
  destruct (lookup_lt_is_Some_2 terms (Z.to_nat idx)) as [t2 H2]; [lia|].
  destruct (lookup_lt_is_Some_2 terms (Z.to_nat (Z.min (n - 1) (idx + 1))))
    as [t3 H3]; [lia|].
  exists t1, t2, t3. split_and!; [done..|].
  unfold select_category. fold n.
  rewrite vocabulary_index_spec by done. simpl.
  fold (category_index category s n). fold idx.
  clearbody idx n.
  rewrite (py_index_lookup terms (Z.max 0 (idx - 1)) t1 ltac:(lia) H1). simpl.
  rewrite (py_index_lookup terms idx t2 ltac:(lia) H2). simpl.
  rewrite (py_index_lookup terms (Z.min (n - 1) (idx + 1)) t3 ltac:(lia) H3).
  reflexivity.
Qed.

(** The vocabulary table: six categories with distinct names, each of
    eight distinct phrases. *)
Lemma vocabulary_keys :
  keys PATINA_VISUAL_VOCABULARY =
    [ "surface_texture"; "color_transformation"; "structural_integrity";
      "biological_colonization"; "light_interaction"; "temporal_evidence" ].
Proof. reflexivity. Qed.

Lemma vocabulary_wf :
  Forall (λ it : string * list string, length it.2 = 8%nat ∧ NoDup it.2)
         PATINA_VISUAL_VOCABULARY.
Proof.
  apply (bool_decide_unpack _). vm_compute. exact I.
Qed.

Lemma assoc_Forall2 {A B} (P : string * A → string * B → Prop)
    (l : list (string * A)) (sel : list (string * B)) :
  Forall2 (λ e o, o.1 = e.1 ∧ P e o) l sel →
  NoDup (keys l) →
  keys sel = keys l ∧
  ∀ k v, (k, v) ∈ l → ∃ w, assoc sel k = Some w ∧ P (k, v) (k, w).
Proof.
  induction 1 as [|[k0 v0] [k1 w0] l sel [Hk HP] HF IH]; intros Hnd.
  - split; [done|]. intros k v Hin. by apply elem_of_nil in Hin.
  - simpl in Hk. subst k1. unfold keys in *. rewrite !fmap_cons in *.
    apply NoDup_cons in Hnd as [Hk0 Hnd].
    destruct (IH Hnd) as [Hkeys Hrest].
    split; [simpl; by f_equal|].
    intros k v [[= -> ->]|Hin]%elem_of_cons; simpl.
    + rewrite String.eqb_refl. by exists w0.
    + destruct (String.eqb_spec k k0) as [->|_]; [|by apply Hrest].
      exfalso. apply Hk0. apply list_elem_of_fmap. by exists (k0, v).
Qed.

(** The selection succeeds on every dictionary with the five axes, one
    entry per category, in the order of the table. *)
Lemma select_vocabulary_spec (s : gmap string R) :
  has_axes s →
  ∃ selected,
    _patina_select_vocabulary s = Ret selected ∧
    Forall2 (λ entry out, out.1 = entry.1 ∧ select_category s entry = Ret out)
            PATINA_VISUAL_VOCABULARY selected.
Proof.
  intros Hs. apply for_each_Forall2. intros [category terms] Hin.
  pose proof (proj1 (Forall_forall _ _) vocabulary_wf _ Hin) as [Hlen _].
  simpl in Hlen.
  destruct (select_category_spec s category terms Hs)
    as (_ & t1 & t2 & t3 & _ & _ & _ & Hsel).
  { intros ->. discriminate Hlen. }
  eexists. split; [exact Hsel|]. split; [reflexivity|exact Hsel].
Qed.



(** [total_ruin], of exposure 0.95, is in the last of the eight grades of
    surface texture, [round(0.95 * 7) = 7]: the right neighbour is the
    phrase itself and two phrases are selected. *)
Example vocabulary_of_total_ruin :
  ∃ selected,
    _patina_select_vocabulary (mk_state 0.95 0.90 0.30 0.00 0.40)
      = Ret selected ∧
    assoc selected "surface_texture" =
      Some [ "granular disaggregation — surface dissolving grain by grain";
             "total surface loss exposing weathered substrate core" ].
Proof.
  assert (Hs : valid_coordinate (mk_state 0.95 0.90 0.30 0.00 0.40))
    by (apply mk_state_valid; lra).
  destruct (select_vocabulary_spec _ (valid_has_axes _ Hs))
    as (selected & Hrun & HF).
  exists selected. split; [exact Hrun|].
  apply assoc_Forall2 in HF as [_ Hsel];
    [|rewrite vocabulary_keys; apply (bool_decide_unpack _); vm_compute; exact I].
  destruct (Hsel "surface_texture" _ (list_elem_of_here _ _))
    as (phrases & Hassoc & Hcat).
  assert (Hidx : vocabulary_index "surface_texture"
                   (mk_state 0.95 0.90 0.30 0.00 0.40) 8 = Ret 7%Z).
  { rewrite vocabulary_index_spec by by apply valid_has_axes.
    f_equal. apply py_round_nearest.
    unfold category_scalar, axis. rewrite !mk_state_lookup. simpl.
    change (8 - 1)%Z with 7%Z. lra. }
  unfold select_category in Hcat.
  change (Z.of_nat (length _)) with 8%Z in Hcat.
  rewrite Hidx in Hcat. vm_compute in Hcat.
  rewrite Hassoc. by injection Hcat as <-.
Qed.



(** ** Attractor prompts: sequence mode *)

Example str_replace_period_19 : str_replace "period_19" "period_" "" = "19".
Proof. reflexivity. Qed.

Example str_replace_every_occurrence :
  str_replace "a-b-c" "-" "+" = "a+b+c".
Proof. reflexivity. Qed.

Example py_int_19 : py_int "19" = Some 19%Z.
Proof. reflexivity. Qed.

Example py_int_not_a_number : py_int "bifurcation_edge" = None.
Proof. reflexivity. Qed.

Lemma attractor_states_valid :
  Forall (λ it, valid_coordinate (a_state it.2)) PATINA_ATTRACTOR_PRESETS.
Proof. unfold PATINA_ATTRACTOR_PRESETS. forall_valid. Qed.


(** The invariant of the preset loop, as for the nearest-neighbour scans:
    the result is the first preset among those whose period is nearest to
    the target. *)
Lemma nearest_preset_loop_spec (items : list (string * preset)) (target : Z) :
  ∀ best,
    let best' := nearest_preset_loop items target best in
    (best' = best ∧
     ∀ (j : nat) pname cfg, items !! j = Some (pname, cfg) →
       ¬ beats (Z.abs (p_period cfg - target)) best.2)
    ∨
    (∃ (i : nat) pname cfg,
       items !! i = Some (pname, cfg) ∧
       best' = (Some pname, Some (Z.abs (p_period cfg - target))) ∧
       beats (Z.abs (p_period cfg - target)) best.2 ∧
       ∀ (j : nat) pname' cfg', items !! j = Some (pname', cfg') →
         (Z.abs (p_period cfg - target) <= Z.abs (p_period cfg' - target))%Z ∧
         ((j < i)%nat →
          (Z.abs (p_period cfg - target) < Z.abs (p_period cfg' - target))%Z)).
Proof.
  induction items as [|[pname0 cfg0] items IH]; intros best; cbv zeta.
  - left. split; [done|]. intros j ???. done.
  - simpl. set (d0 := Z.abs (p_period cfg0 - target)).
    destruct best as [bid [b|]]; simpl.
    + destruct (decide (d0 < b)%Z) as [Hlt|Hge].
      * destruct (IH (Some pname0, Some d0))
          as [[-> Hrest] | (i & pname & cfg & Hi & -> & Hbeat & Hmin)];
          right.
        -- exists 0%nat, pname0, cfg0. split_and!; try done.
           intros [|j] pname' cfg' Hj; simpl in Hj.
           ++ injection Hj as <- <-. lia.
           ++ specialize (Hrest _ _ _ Hj). simpl in Hrest. fold d0. lia.
        -- simpl in Hbeat. exists (S i), pname, cfg.
           split_and!; try done; [simpl; lia|].
           intros [|j] pname' cfg' Hj; simpl in Hj.
           ++ injection Hj as <- <-. fold d0. lia.
           ++ destruct (Hmin _ _ _ Hj) as [Hle Hlt']. split; [done|].
              intros Hji. apply Hlt'. lia.
      * destruct (IH (bid, Some b))
          as [[-> Hrest] | (i & pname & cfg & Hi & -> & Hbeat & Hmin)].
        -- left. split; [done|]. intros [|j] pname' cfg' Hj; simpl in Hj.
           ++ injection Hj as <- <-. simpl. fold d0. lia.
           ++ by apply (Hrest _ _ _ Hj).
        -- right. simpl in Hbeat. exists (S i), pname, cfg.
           split_and!; try done.
           intros [|j] pname' cfg' Hj; simpl in Hj.
           ++ injection Hj as <- <-. fold d0. lia.
           ++ destruct (Hmin _ _ _ Hj) as [Hle Hlt']. split; [done|].
              intros Hji. apply Hlt'. lia.
    + destruct (IH (Some pname0, Some d0))
        as [[-> Hrest] | (i & pname & cfg & Hi & -> & Hbeat & Hmin)];
        right.
      * exists 0%nat, pname0, cfg0. split_and!; try done.
        intros [|j] pname' cfg' Hj; simpl in Hj.
        -- injection Hj as <- <-. lia.
        -- specialize (Hrest _ _ _ Hj). simpl in Hrest. fold d0. lia.
      * simpl in Hbeat. exists (S i), pname, cfg.
        split_and!; try done.
        intros [|j] pname' cfg' Hj; simpl in Hj.
        -- injection Hj as <- <-. fold d0. lia.
        -- destruct (Hmin _ _ _ Hj) as [Hle Hlt']. split; [done|].
           intros Hji. apply Hlt'. lia.
Qed.

Lemma assoc_keys {V} (l : list (string * V)) (k : string) :
  k ∈ keys l → ∃ v, assoc l k = Some v.
Proof.
  unfold keys. induction l as [|[k' v'] l IH]; simpl.
  - by intros ?%elem_of_nil.
  - destruct (String.eqb_spec k k') as [->|Hne]; [by eexists|].
    intros [?|Hin]%elem_of_cons; [done|]. by apply IH.
Qed.

Lemma assoc_lookup {V} (l : list (string * V)) (i : nat) (k : string) (v : V) :
  NoDup (keys l) → l !! i = Some (k, v) → assoc l k = Some v.
Proof.
  unfold keys. revert i. induction l as [|[k' v'] l IH]; intros i Hnd Hi.
  - done.
  - rewrite fmap_cons in Hnd. apply NoDup_cons in Hnd as [Hk Hnd]. simpl.
    destruct i as [|i]; simpl in Hi.
    + injection Hi as -> ->. by rewrite String.eqb_refl.
    + destruct (String.eqb_spec k k') as [->|_]; [|by eapply IH].
      exfalso. apply Hk. apply list_elem_of_fmap. exists (k', v).
      split; [done|]. by eapply list_elem_of_lookup_2.
Qed.

Lemma preset_keys_NoDup : NoDup (keys PATINA_RHYTHMIC_PRESETS).
Proof. apply (bool_decide_unpack _). vm_compute. exact I. Qed.

(** What every prompt mode computes first succeeds on a dictionary with
    the five axes. *)
Lemma prompt_prelude (state : gmap string R) :
  has_axes state →
  ∃ vtype vdist vdata vocab canon cdist,
    _patina_nearest_visual_type state = Ret (Some vtype, Fin vdist) ∧
    visual_type_data (Some vtype) = Ret vdata ∧
    _patina_select_vocabulary state = Ret vocab ∧
    _patina_nearest_canonical state = Ret (Some canon, Fin cdist).
Proof.
  intros Hs.
  destruct (nearest_visual_type_ret _ Hs) as (vtype & vdist & Hv & Hin & _).
  destruct (assoc_keys _ _ Hin) as [vdata Hvdata].
  destruct (select_vocabulary_spec _ Hs) as (vocab & Hvocab & _).
  destruct (nearest_canonical_ret _ Hs) as (canon & cdist & Hc & _ & _).
  exists vtype, vdist, vdata, vocab, canon, cdist.
  split_and!; [done| |done..].
  unfold visual_type_data, getitem_assoc. by rewrite Hvdata.
Qed.



Lemma preset_periods :
  (λ it : string * preset, (it.1, p_period it.2)) <$> PATINA_RHYTHMIC_PRESETS =
    [ ("aging_cycle", 16%Z); ("restoration_pendulum", 20%Z);
      ("oxidation_bloom", 24%Z); ("erosion_pulse", 18%Z);
      ("entropy_wave", 30%Z) ].
Proof. reflexivity. Qed.



(** ** Validation of coordinates *)








(** ** The distance as a metric *)

Lemma distance_comm (a b : gmap string R) :
  _patina_euclidean_distance a b = _patina_euclidean_distance b a.
Proof.
  unfold _patina_euclidean_distance. f_equal.
  apply for_each_ext. intros p _. unfold getitem.
  destruct (a !! p) as [x|], (b !! p) as [y|]; simpl; try done.
  f_equal. ring.
Qed.



Lemma distance_axes (a b : gmap string R) :
  has_axes a → has_axes b →
  _patina_euclidean_distance a b =
    Ret (sqrt ((axis a "exposure_duration" - axis b "exposure_duration") ^ 2
               + (axis a "agent_intensity" - axis b "agent_intensity") ^ 2
               + (axis a "material_resistance" - axis b "material_resistance") ^ 2
               + (axis a "intervention_state" - axis b "intervention_state") ^ 2
               + (axis a "aesthetic_character" - axis b "aesthetic_character") ^ 2)).
Proof.
  intros Ha Hb.
  rewrite (distance_same_axes a (project_axes a) b (project_axes b))
    by by apply has_axes_project.
  unfold project_axes. apply distance_mk_state.
Qed.








Lemma distance_le_diagonal (a b : gmap string R) :
  valid_coordinate a → valid_coordinate b →
  ∃ d, _patina_euclidean_distance a b = Ret d ∧ 0 <= d <= sqrt 5.
Proof.
  intros (e & g & r & i & c & -> & He & Hg & Hr & Hi & Hc)%valid_coordinate_inv
         (e' & g' & r' & i' & c' & -> & He' & Hg' & Hr' & Hi' & Hc')%valid_coordinate_inv.
  rewrite distance_mk_state. eexists. split; [reflexivity|].
  split; [apply sqrt_pos|]. apply sqrt_le_1_alt.
  assert (Hsq : ∀ x y, 0 <= x <= 1 → 0 <= y <= 1 → (x - y) ^ 2 <= 1)
    by (intros; nra).
  pose proof (Hsq _ _ He He'). pose proof (Hsq _ _ Hg Hg').
  pose proof (Hsq _ _ Hr Hr'). pose proof (Hsq _ _ Hi Hi').
  pose proof (Hsq _ _ Hc Hc'). lra.
Qed.

(** X4. Two valid coordinates are at most [sqrt 5] apart, and opposite
    corners of the unit cube are exactly that far apart. *)
Theorem distance_bounded :
  (∀ a b, valid_coordinate a → valid_coordinate b →
     ∃ d, _patina_euclidean_distance a b = Ret d ∧ 0 <= d <= sqrt 5) ∧
  _patina_euclidean_distance (mk_state 0 0 0 0 0) (mk_state 1 1 1 1 1) =
    Ret (sqrt 5).
Proof.
  split; [exact distance_le_diagonal|].
  rewrite distance_mk_state. do 2 f_equal. ring.
Qed.

Lemma distance_bounded_witness :
  ∃ d, _patina_euclidean_distance (mk_state 0.00 0.00 0.50 0.00 0.50)
         (mk_state 0.95 0.90 0.30 0.00 0.40) = Ret d ∧ 0 <= d <= sqrt 5.
Proof.
  apply (proj1 distance_bounded); apply mk_state_valid; lra.
Defined.

(** ** The shape of the waveforms *)













(** ** Rounding *)

Lemma py_round_cases (x : R) :
  py_round x = Zfloor x ∨ py_round x = (Zfloor x + 1)%Z.
Proof.
  unfold py_round. cbv zeta.
  repeat destruct (decide _); try destruct (Z.even _); auto.
Qed.

Lemma py_round_IZR (z : Z) : py_round (IZR z) = z.
Proof. apply py_round_nearest. lra. Qed.

(** [round] never reverses the order of two floats. *)
Lemma py_round_mono (x y : R) : x <= y → (py_round x <= py_round y)%Z.
Proof.
  intros Hxy. pose proof (Zfloor_le x y Hxy) as Hf.
  destruct (decide (Zfloor x = Zfloor y)) as [Heq|Hne].
  - unfold py_round. cbv zeta. rewrite Heq.
    pose proof (Zfloor_bound x) as Hx. pose proof (Zfloor_bound y) as Hy.
    rewrite Heq in Hx.
    repeat destruct (decide _); try destruct (Z.even _); try lia; exfalso; lra.
  - destruct (py_round_cases x) as [->| ->], (py_round_cases y) as [->| ->]; lia.
Qed.

(** [round] is at most one half away. *)
Lemma py_round_error (x : R) : Rabs (IZR (py_round x) - x) <= 0.5.
Proof.
  pose proof (Zfloor_bound x) as Hx. unfold py_round. cbv zeta.
  repeat destruct (decide _); try destruct (Z.even _);
    rewrite ?plus_IZR; apply Rabs_le; lra.
Qed.

Lemma py_round_opp (x : R) : py_round (- x) = (- py_round x)%Z.
Proof.
  pose proof (Zfloor_bound x) as Hx.
  destruct (decide (x = IZR (Zfloor x))) as [Hint|Hfrac].
  - rewrite Hint. generalize (Zfloor x). intros z.
    by rewrite <- opp_IZR, !py_round_IZR.
  - assert (Hfl : Zfloor (- x) = (- Zfloor x - 1)%Z).
    { apply Zfloor_eq. rewrite minus_IZR, opp_IZR. lra. }
    unfold py_round. cbv zeta. rewrite Hfl.
    rewrite minus_IZR, opp_IZR.
    repeat destruct (decide _); try (exfalso; lra); try lia.
    replace (- Zfloor x - 1)%Z with (- (Zfloor x + 1))%Z by lia.
    rewrite Z.even_opp.
    replace (Zfloor x + 1)%Z with (Z.succ (Zfloor x)) by lia.
    rewrite Z.even_succ, <- Z.negb_even.
    destruct (Z.even (Zfloor x)); simpl; lia.
Qed.

Lemma round4_mono (x y : R) : x <= y → round4 x <= round4 y.
Proof.
  intros Hxy. unfold round4.
  assert (H : (py_round (x * 10000) <= py_round (y * 10000))%Z)
    by (apply py_round_mono; lra).
  apply IZR_le in H. lra.
Qed.

(** A float with at most four decimals is left unchanged by
    [round(x, 4)]. *)
Lemma round4_grid (x : R) (z : Z) : x = IZR z / 10000 → round4 x = x.
Proof.
  intros ->. unfold round4.
  replace (IZR z / 10000 * 10000) with (IZR z) by lra.
  by rewrite py_round_IZR.
Qed.

Lemma round4_idempotent (x : R) : round4 (round4 x) = round4 x.
Proof. apply (round4_grid _ (py_round (x * 10000))). reflexivity. Qed.

Lemma round4_opp (x : R) : round4 (- x) = - round4 x.
Proof.
  unfold round4. replace (- x * 10000) with (- (x * 10000)) by lra.
  rewrite py_round_opp, opp_IZR. lra.
Qed.

Lemma round4_abs (x : R) : round4 (Rabs x) = Rabs (round4 x).
Proof.
  assert (H0 : round4 0 = 0) by (apply (round4_grid _ 0); lra).
  unfold Rabs. destruct (Rcase_abs x) as [Hneg|Hpos].
  - rewrite round4_opp.
    pose proof (round4_mono x 0 ltac:(lra)) as Hle. rewrite H0 in Hle.
    destruct (Rcase_abs (round4 x)); lra.
  - pose proof (round4_mono 0 x ltac:(lra)) as Hle. rewrite H0 in Hle.
    destruct (Rcase_abs (round4 x)); lra.
Qed.

Lemma round4_error (x : R) : Rabs (round4 x - x) <= 0.00005.
Proof.
  pose proof (py_round_error (x * 10000)) as H. unfold round4.
  revert H. unfold Rabs. repeat destruct (Rcase_abs _); lra.
Qed.

Lemma round4_unit (x : R) : 0 <= x <= 1 → 0 <= round4 x <= 1.
Proof.
  intros [H0 H1].
  assert (E0 : round4 0 = 0) by (apply (round4_grid _ 0); lra).
  assert (E1 : round4 1 = 1) by (apply (round4_grid _ 10000); lra).
  pose proof (round4_mono _ _ H0). pose proof (round4_mono _ _ H1). lra.
Qed.

(** A decimal literal with at most four decimals is a fixed point of
    [round(x, 4)]. *)
Lemma round4_literal (n : Z) (d : positive) (z : Z) :
  (Z.pos d * z = 10000 * n)%Z →
  round4 (Q2R (QArith_base.Qmake n d)) = Q2R (QArith_base.Qmake n d).
Proof.
  intros Hz. apply (round4_grid _ z). unfold Q2R. cbn [QArith_base.Qnum QArith_base.Qden].
  apply (f_equal IZR) in Hz. rewrite !mult_IZR in Hz.
  assert (0 < IZR (Z.pos d)) by (apply IZR_lt; lia).
  apply (Rmult_eq_reg_l (IZR (Z.pos d))); [|lra].
  field_simplify; lra.
Qed.

Ltac round4_lit :=
  match goal with
  | |- round4 (Q2R (QArith_base.Qmake ?n ?d)) = _ =>
      let z := eval vm_compute in (10000 * n / Z.pos d)%Z in
      apply (round4_literal n d z); reflexivity
  end.

Ltac forall_rounded :=
  repeat (apply List.Forall_cons;
          [ cbn [snd];
            match goal with
            | |- round4 <$> mk_state ?e ?g ?r ?i ?c = _ =>
                change (round4 <$> mk_state e g r i c)
                  with (mk_state (round4 e) (round4 g) (round4 r) (round4 i)
                                 (round4 c))
            end;
            apply mk_state_ext; round4_lit
          | ]);
  apply List.Forall_nil.

(** The coordinates of the canonical states have two decimals: rounding
    to four leaves them unchanged. *)
Lemma canonical_states_rounded :
  Forall (λ it : string * gmap string R, round4 <$> it.2 = it.2)
         PATINA_CANONICAL_STATES.
Proof. unfold PATINA_CANONICAL_STATES. forall_rounded. Qed.

Lemma canonical_state_rounded (sid : string) (s : gmap string R) :
  assoc PATINA_CANONICAL_STATES sid = Some s → round4 <$> s = s.
Proof.
  intros Hs%assoc_elem_of.
  apply (proj1 (Forall_forall _ _) canonical_states_rounded _ Hs).
Qed.

Lemma alpha_at_0_any (pattern : string) : interpolation_alpha 0 pattern = 0.
Proof.
  unfold interpolation_alpha. repeat case_eqb.
  - rewrite Rmult_0_r, cos_0. lra.
  - destruct (decide _); lra.
  - destruct (decide _); lra.
  - done.
Qed.

(** ** Rhythmic sequences: cycles, bounds and errors *)

Lemma round4_state_valid (s : gmap string R) :
  valid_coordinate s → valid_coordinate (round4 <$> s).
Proof.
  intros Hs. destruct (valid_coordinate_inv s Hs)
    as (e & g & r & i & c & -> & He & Hg & Hr & Hi & Hc).
  change (round4 <$> mk_state e g r i c)
    with (mk_state (round4 e) (round4 g) (round4 r) (round4 i) (round4 c)).
  apply mk_state_valid; by apply round4_unit.
Qed.




Lemma sample_fields_in_bounds (a b st : gmap string R) (pattern v : string)
    (t d : R) :
  valid_coordinate a → valid_coordinate b → 0 <= t <= 1 →
  _patina_interpolate_states a b t pattern = Ret st →
  _patina_nearest_visual_type st = Ret (Some v, Fin d) →
  0 <= round4 t <= 1 ∧ valid_coordinate (round4 <$> st) ∧
  v ∈ keys PATINA_VISUAL_TYPES ∧ 0 <= round4 d <= round4 (sqrt 5).
Proof.
  intros Ha Hb Ht Hst Hv.
  destruct (interpolate_valid a b t pattern Ha Hb Ht) as (st' & Hst' & Hvalid).
  rewrite Hst in Hst'. apply Ret_inj in Hst' as <-.
  pose proof (nearest_visual_type_spec st Hvalid)
    as (i & sid & e & d' & Hres & Hi & Hsid & Hd & Hd0 & _).
  rewrite Hv in Hres. apply Ret_inj in Hres.
  assert (sid = v) as -> by congruence. assert (d' = d) as -> by congruence.
  split_and!; try by apply round4_unit.
  - by apply round4_state_valid.
  - done.
  - replace 0 with (round4 0) by (apply (round4_grid _ 0); lra).
    by apply round4_mono.
  - apply round4_mono.
    assert (He : valid_coordinate (center e)).
    { pose proof visual_types_valid as Hall. rewrite Forall_forall in Hall.
      apply (Hall (v, e)). by eapply list_elem_of_lookup_2. }
    destruct (distance_le_diagonal st (center e) Hvalid He) as (d2 & Hd2 & Hb2).
    rewrite Hd in Hd2. apply Ret_inj in Hd2 as <-. lra.
Qed.

Lemma replay_sample_in_bounds (a b : gmap string R) (pattern : string)
    (period step : Z) (sample : json) :
  valid_coordinate a → valid_coordinate b → (0 <= step < period)%Z →
  replay_sample a b pattern period step sample → sample_in_bounds sample.
Proof.
  intros Ha Hb Hstep (st & v & d & Hst & Hv & ->). cbv zeta in Hst.
  pose proof (div_unit_interval _ _ Hstep) as Ht.
  assert (Ht' : 0 <= IZR step / IZR period <= 1) by lra.
  destruct (sample_fields_in_bounds a b st pattern v _ d Ha Hb Ht' Hst Hv)
    as (H1 & H2 & H3 & H4).
  by eexists _, _, _, _.
Qed.

Lemma oscillation_sample_in_bounds (a b : gmap string R) (pattern : string)
    (steps_per_cycle step : Z) (phase_offset : R) (sample : json) :
  valid_coordinate a → valid_coordinate b →
  oscillation_sample a b pattern steps_per_cycle phase_offset step sample →
  sample_in_bounds sample.
Proof.
  intros Ha Hb (st & v & d & Hst & Hv & ->). cbv zeta in Hst.
  pose proof (py_fmod1_bounds
                (IZR step / IZR steps_per_cycle + phase_offset)) as Ht.
  assert (Ht' : 0 <= py_fmod1 (IZR step / IZR steps_per_cycle + phase_offset)
                <= 1) by lra.
  destruct (sample_fields_in_bounds a b st pattern v _ d Ha Hb Ht' Hst Hv)
    as (H1 & H2 & H3 & H4).
  by eexists _, _, _, _.
Qed.

Lemma Forall2_Forall_r {A B} (P : A → B → Prop) (Q : B → Prop)
    (l : list A) (k : list B) :
  Forall2 P l k → (∀ x y, x ∈ l → P x y → Q y) → Forall Q k.
Proof.
  induction 1 as [|x y l k Hxy Hlk IH]; intros HPQ; constructor.
  - apply (HPQ x y); [left|done].
  - apply IH. intros x' y' Hx'. apply HPQ. by right.
Qed.

(** X11. Whatever the preset, the states, the pattern, the counts and the
    phase offset, every sample that the two sequence tools emit stays in
    range after rounding: a phase in [[0, 1]], a state that is a valid
    coordinate, a visual type of the catalog and a distance between [0]
    and the rounded diagonal of the cube. *)
Theorem sequence_samples_in_bounds :
  (∀ name, name ∈ keys PATINA_RHYTHMIC_PRESETS →
     ∃ out samples,
       apply_patina_rhythmic_preset name = Ret out ∧
       json_get "sequence" out = Some (JList samples) ∧
       Forall sample_in_bounds samples) ∧
  (∀ state_a_id state_b_id pattern num_cycles steps_per_cycle phase_offset,
     state_a_id ∈ keys PATINA_CANONICAL_STATES →
     state_b_id ∈ keys PATINA_CANONICAL_STATES →
     ∃ out samples,
       generate_patina_rhythmic_sequence state_a_id state_b_id pattern
         num_cycles steps_per_cycle phase_offset = Ret out ∧
       json_get "sequence" out = Some (JList samples) ∧
       Forall sample_in_bounds samples).
Proof.
  split.
  - intros name [cfg Hcfg]%assoc_keys.
    destruct (apply_preset_spec name cfg Hcfg)
      as (a & b & samples & Ha & Hb & Hrun & Hall).
    eexists _, samples. split; [exact Hrun|]. split; [reflexivity|].
    eapply Forall2_Forall_r; [exact Hall|].
    intros step sample Hstep%elem_of_py_range.
    apply replay_sample_in_bounds; [by eapply canonical_state_valid..|done].
  - intros a_id b_id pattern C S phi [a Ha]%assoc_keys [b Hb]%assoc_keys.
    destruct (generate_sequence_spec a_id b_id pattern C S phi a b Ha Hb)
      as (samples & Hrun & Hall).
    eexists _, samples. split; [exact Hrun|]. split; [reflexivity|].
    eapply Forall2_Forall_r; [exact Hall|].
    intros step sample _.
    apply oscillation_sample_in_bounds; by eapply canonical_state_valid.
Qed.

Lemma sequence_samples_in_bounds_witness :
  ∃ out samples,
    generate_patina_rhythmic_sequence "total_ruin" "paper_foxing" "square"
      2 30000 0.99999 = Ret out ∧
    json_get "sequence" out = Some (JList samples) ∧
    Forall sample_in_bounds samples.
Proof.
  apply (proj2 sequence_samples_in_bounds); rewrite canonical_keys;
    elem_of_literal.
Defined.

Lemma assoc_None_keys {V} (l : list (string * V)) (k : string) :
  assoc l k = None ↔ k ∉ keys l.
Proof.
  split.
  - intros Hnone [v Hv]%assoc_keys. congruence.
  - intros Hk. destruct (assoc l k) as [v|] eqn:Hv; [|done].
    exfalso. apply Hk. apply assoc_elem_of in Hv.
    unfold keys. apply list_elem_of_fmap. by exists (k, v).
Qed.

(** X12. The two sequence tools never raise. Each returns an error record
    exactly when an identifier is unknown: the preset name for the replay,
    and for the custom oscillation the first of the two state identifiers
    that is unknown, whatever the pattern, the counts and the offset. The
    record lists the identifiers that are available. *)
Theorem sequence_tools_reject_unknown_names :
  (∀ name, ∃ out,
     apply_patina_rhythmic_preset name = Ret out ∧
     (is_error out ↔ name ∉ keys PATINA_RHYTHMIC_PRESETS) ∧
     (name ∉ keys PATINA_RHYTHMIC_PRESETS →
        out = JDict [ ("error", JStr ("Unknown preset: " +:+ name));
                      ("available", json_strs (keys PATINA_RHYTHMIC_PRESETS)) ])) ∧
  (∀ state_a_id state_b_id pattern num_cycles steps_per_cycle phase_offset,
   ∃ out,
     generate_patina_rhythmic_sequence state_a_id state_b_id pattern
       num_cycles steps_per_cycle phase_offset = Ret out ∧
     (is_error out ↔ state_a_id ∉ keys PATINA_CANONICAL_STATES ∨
                     state_b_id ∉ keys PATINA_CANONICAL_STATES) ∧
     (state_a_id ∉ keys PATINA_CANONICAL_STATES →
        out = JDict [ ("error", JStr ("Unknown: " +:+ state_a_id));
                      ("available", json_strs (keys PATINA_CANONICAL_STATES)) ]) ∧
     (state_a_id ∈ keys PATINA_CANONICAL_STATES →
      state_b_id ∉ keys PATINA_CANONICAL_STATES →
        out = JDict [ ("error", JStr ("Unknown: " +:+ state_b_id));
                      ("available", json_strs (keys PATINA_CANONICAL_STATES)) ])).
Proof.
  split.
  - intros name.
    destruct (assoc PATINA_RHYTHMIC_PRESETS name) as [cfg|] eqn:Hcfg.
    + destruct (apply_preset_spec name cfg Hcfg)
        as (a & b & samples & _ & _ & Hrun & _).
      assert (Hin : name ∈ keys PATINA_RHYTHMIC_PRESETS).
      { destruct (decide (name ∈ keys PATINA_RHYTHMIC_PRESETS)); [done|].
        apply assoc_None_keys in n. congruence. }
      eexists. split; [exact Hrun|]. split; [|done].
      split; [|done]. intros [x Hx]. discriminate Hx.
    + pose proof (proj1 (assoc_None_keys _ _) Hcfg) as Hout.
      unfold apply_patina_rhythmic_preset. rewrite Hcfg.
      eexists. split; [reflexivity|]. split; [|done].
      split; [done|]. intros _. by eexists.
  - intros a_id b_id pattern C S phi.
    destruct (assoc PATINA_CANONICAL_STATES a_id) as [a|] eqn:Ha.
    + assert (Hina : a_id ∈ keys PATINA_CANONICAL_STATES).
      { destruct (decide (a_id ∈ keys PATINA_CANONICAL_STATES)) as [|n]; [done|].
        apply assoc_None_keys in n. congruence. }
      destruct (assoc PATINA_CANONICAL_STATES b_id) as [b|] eqn:Hb.
      * assert (Hinb : b_id ∈ keys PATINA_CANONICAL_STATES).
        { destruct (decide (b_id ∈ keys PATINA_CANONICAL_STATES)) as [|n]; [done|].
          apply assoc_None_keys in n. congruence. }
        destruct (generate_sequence_spec a_id b_id pattern C S phi a b Ha Hb)
          as (samples & Hrun & _).
        eexists. split; [exact Hrun|]. split_and!; [|done..].
        split; [|tauto]. intros [x Hx]. discriminate Hx.
      * pose proof (proj1 (assoc_None_keys _ _) Hb) as Hout.
        unfold generate_patina_rhythmic_sequence. rewrite Ha, Hb.
        eexists. split; [reflexivity|]. split_and!; [|done..].
        split; [tauto|]. intros _. by eexists.
    + pose proof (proj1 (assoc_None_keys _ _) Ha) as Hout.
      unfold generate_patina_rhythmic_sequence. rewrite Ha.
      eexists. split; [reflexivity|]. split_and!; [|done..].
      split; [tauto|]. intros _. by eexists.
Qed.

Lemma sequence_tools_reject_unknown_names_witness :
  apply_patina_rhythmic_preset "tidal" =
    Ret (JDict [ ("error", JStr "Unknown preset: tidal");
                 ("available", json_strs (keys PATINA_RHYTHMIC_PRESETS)) ]).
Proof.
  destruct (proj1 sequence_tools_reject_unknown_names "tidal")
    as (out & Hrun & _ & Hout).
  rewrite Hrun. f_equal. apply Hout.
  apply assoc_None_keys. reflexivity.
Defined.

(** ** Keyframe prompts *)



Lemma keyframe_spec (a b : gmap string R) (pattern prefix : string)
    (period step_size ki : Z) :
  valid_coordinate a → valid_coordinate b → (0 < period)%Z →
  ∃ kf,
    (step ← py_mod (ki * step_size) period;
     t ← py_truediv step period;
     kf_state ← _patina_interpolate_states a b t pattern;
     '(kf_vtype, kf_vdist) ← _patina_nearest_visual_type kf_state;
     kf_vdata ← visual_type_data kf_vtype;
     kf_vocab ← _patina_select_vocabulary kf_state;
     Ret (JDict
       [ ("keyframe", JInt ki);
         ("step", JInt step);
         ("phase", JFloat (Fin (round4 t)));
         ("prompt",
           JStr (join_prompt prefix (composite_keywords kf_vdata kf_vocab)));
         ("nearest_visual_type", json_of_id kf_vtype);
         ("visual_distance", JFloat (round4_x kf_vdist));
         ("state", round_state kf_state) ])) = Ret kf ∧
    keyframe_record a b pattern prefix period step_size ki kf.
Proof.
  intros Ha Hb Hper.
  pose proof (Z.mod_pos_bound (ki * step_size) period Hper) as Hstep.
  pose proof (div_unit_interval _ _ Hstep) as Ht.
  destruct (interpolate_valid a b
              (IZR ((ki * step_size) mod period) / IZR period) pattern Ha Hb)
    as (st & Hst & Hvst); [lra|].
  destruct (nearest_visual_type_ret _ (valid_has_axes _ Hvst))
    as (v & d & Hv & Hin & _).
  destruct (assoc_keys _ _ Hin) as [vdata Hvdata].
  destruct (select_vocabulary_spec _ (valid_has_axes _ Hvst))
    as (vocab & Hvocab & _).
  unfold py_mod, py_truediv. destruct (decide _) as [Hz|_]; [lia|].
  cbn [mbind res_bind]. rewrite Hst. cbn [mbind res_bind]. rewrite Hv.
  cbn [mbind res_bind]. unfold visual_type_data, getitem_assoc.
  rewrite Hvdata. cbn [mbind res_bind].
  rewrite Hvocab. cbn [mbind res_bind].
  eexists. split; [reflexivity|].
  exists st, v, d, vdata, vocab. by split_and!.
Qed.


(** Sequence mode of the attractor prompt, once the state is resolved,
    for a non-zero keyframe count: the keyframes are those of the preset
    that the preset loop returns. *)
Lemma attractor_sequence_spec (attractor_id style : string)
    (custom_state : option (gmap string R)) (keyframe_count : Z)
    (meta : option attractor) (state : gmap string R) :
  (custom_state = Some state ∧ has_axes state ∧ meta = None) ∨
  (custom_state = None ∧
   ∃ m, assoc PATINA_ATTRACTOR_PRESETS attractor_id = Some m ∧
        meta = Some m ∧ state = a_state m) →
  keyframe_count ≠ 0%Z →
  ∃ pname cfg a b keyframes,
    nearest_preset_loop PATINA_RHYTHMIC_PRESETS
      (sequence_target_period meta attractor_id) (None, None) =
      (Some pname, Some (Z.abs (p_period cfg
                                - sequence_target_period meta attractor_id))) ∧
    assoc PATINA_RHYTHMIC_PRESETS pname = Some cfg ∧
    assoc PATINA_CANONICAL_STATES (p_state_a cfg) = Some a ∧
    assoc PATINA_CANONICAL_STATES (p_state_b cfg) = Some b ∧
    generate_patina_attractor_prompt attractor_id custom_state "sequence"
        style keyframe_count =
      Ret (JDict
        [ ("mode", JStr "sequence");
          ("preset_used", JStr pname);
          ("preset_period", JInt (p_period cfg));
          ("keyframe_count", JInt keyframe_count);
          ("keyframes", JList keyframes);
          ("attractor", attractor_info attractor_id meta false) ]) ∧
    Forall2 (keyframe_record a b (p_pattern cfg) (style_prefix style)
               (p_period cfg) (Z.max 1 (p_period cfg / keyframe_count)))
            (py_range keyframe_count) keyframes.
Proof.
  intros Hres Hkfc.
  set (target := sequence_target_period meta attractor_id).
  assert (Hax : has_axes state).
  { destruct Hres as [(_ & Hs & _) | (_ & m & Hm & _ & ->)]; [done|].
    apply valid_has_axes. apply assoc_elem_of in Hm.
    apply (proj1 (Forall_forall _ _) attractor_states_valid _ Hm). }
  destruct (prompt_prelude state Hax)
    as (vtype & vdist & vdata & vocab & canon & cdist
        & Hv & Hvdata & Hvocab & Hcanon).
  destruct (nearest_preset_loop_spec PATINA_RHYTHMIC_PRESETS target (None, None))
    as [[_ Hnone] | (i & pname & cfg & Hi & Hbest & _ & Hmin)].
  { exfalso. by apply (Hnone 0%nat _ _ eq_refl). }
  pose proof (assoc_lookup _ _ _ _ preset_keys_NoDup Hi) as Hcfg.
  destruct (preset_wf _ _ Hcfg) as (Hper & a & b & Ha & Hb).
  pose proof (canonical_state_valid _ _ Ha) as Hva.
  pose proof (canonical_state_valid _ _ Hb) as Hvb.
  exists pname, cfg, a, b.
  destruct (for_each_Forall2
              (keyframe_record a b (p_pattern cfg) (style_prefix style)
                 (p_period cfg) (Z.max 1 (p_period cfg / keyframe_count)))
              (py_range keyframe_count)
              (λ ki,
                 step ← py_mod (ki * Z.max 1 (p_period cfg / keyframe_count))
                           (p_period cfg);
                 t ← py_truediv step (p_period cfg);
                 kf_state ← _patina_interpolate_states a b t (p_pattern cfg);
                 '(kf_vtype, kf_vdist) ← _patina_nearest_visual_type kf_state;
                 kf_vdata ← visual_type_data kf_vtype;
                 kf_vocab ← _patina_select_vocabulary kf_state;
                 Ret (JDict
                   [ ("keyframe", JInt ki);
                     ("step", JInt step);
                     ("phase", JFloat (Fin (round4 t)));
                     ("prompt",
                       JStr (join_prompt (style_prefix style)
                               (composite_keywords kf_vdata kf_vocab)));
                     ("nearest_visual_type", json_of_id kf_vtype);
                     ("visual_distance", JFloat (round4_x kf_vdist));
                     ("state", round_state kf_state) ])))
    as (kfs & Hkfs & Hall).
  { intros ki _. by apply keyframe_spec. }
  exists kfs. split_and!; [done..| |exact Hall].
  unfold generate_patina_attractor_prompt.
  destruct Hres as [(-> & Hs & ->) | (-> & m & Hm & -> & ->)];
    [rewrite (proj2 (first_missing_None _) Hs) | rewrite Hm];
    cbv zeta; rewrite Hv; cbn [mbind res_bind];
    rewrite Hvdata; cbn [mbind res_bind];
    rewrite Hvocab; cbn [mbind res_bind];
    rewrite Hcanon; cbn [mbind res_bind];
    change (String.eqb "sequence" "composite") with false;
    change (String.eqb "sequence" "split_view") with false;
    change (String.eqb "sequence" "sequence") with true;
    cbv iota; fold target; rewrite Hbest; cbn [fst];
    unfold getitem_assoc; rewrite Hcfg; cbn [mbind res_bind];
    rewrite Ha; cbn [mbind res_bind]; rewrite Hb; cbn [mbind res_bind];
    unfold py_floordiv; (destruct (decide _) as [Hz|_]; [done|]);
    cbn [mbind res_bind]; fold (style_prefix style);
    rewrite Hkfs; reflexivity.
Qed.



(** Sequence mode with a keyframe count of zero divides by it. *)
Lemma attractor_sequence_zero (attractor_id style : string)
    (custom_state : option (gmap string R))
    (meta : option attractor) (state : gmap string R) :
  (custom_state = Some state ∧ has_axes state ∧ meta = None) ∨
  (custom_state = None ∧
   ∃ m, assoc PATINA_ATTRACTOR_PRESETS attractor_id = Some m ∧
        meta = Some m ∧ state = a_state m) →
  generate_patina_attractor_prompt attractor_id custom_state "sequence" style 0
    = Raise ZeroDivisionError.
Proof.
  intros Hres.
  assert (Hax : has_axes state).
  { destruct Hres as [(_ & Hs & _) | (_ & m & Hm & _ & ->)]; [done|].
    apply valid_has_axes. apply assoc_elem_of in Hm.
    apply (proj1 (Forall_forall _ _) attractor_states_valid _ Hm). }
  destruct (prompt_prelude state Hax)
    as (vtype & vdist & vdata & vocab & canon & cdist
        & Hv & Hvdata & Hvocab & Hcanon).
  set (target := sequence_target_period meta attractor_id).
  destruct (nearest_preset_loop_spec PATINA_RHYTHMIC_PRESETS target (None, None))
    as [[_ Hnone] | (i & pname & cfg & Hi & Hbest & _ & Hmin)].
  { exfalso. by apply (Hnone 0%nat _ _ eq_refl). }
  pose proof (assoc_lookup _ _ _ _ preset_keys_NoDup Hi) as Hcfg.
  destruct (preset_wf _ _ Hcfg) as (Hper & a & b & Ha & Hb).
  unfold generate_patina_attractor_prompt.
  destruct Hres as [(-> & Hs & ->) | (-> & m & Hm & -> & ->)];
    [rewrite (proj2 (first_missing_None _) Hs) | rewrite Hm];
    cbv zeta; rewrite Hv; cbn [mbind res_bind];
    rewrite Hvdata; cbn [mbind res_bind];
    rewrite Hvocab; cbn [mbind res_bind];
    rewrite Hcanon; cbn [mbind res_bind];
    change (String.eqb "sequence" "composite") with false;
    change (String.eqb "sequence" "split_view") with false;
    change (String.eqb "sequence" "sequence") with true;
    cbv iota; fold target; rewrite Hbest; cbn [fst];
    unfold getitem_assoc; rewrite Hcfg; cbn [mbind res_bind];
    rewrite Ha; cbn [mbind res_bind]; rewrite Hb; cbn [mbind res_bind];
    unfold py_floordiv; (destruct (decide _) as [_|Hz]; [|done]);
    reflexivity.
Qed.



Lemma keyframe_record_functional (a b : gmap string R) (pattern prefix : string)
    (period step_size ki : Z) (kf kf' : json) :
  keyframe_record a b pattern prefix period step_size ki kf →
  keyframe_record a b pattern prefix period step_size ki kf' →
  kf = kf'.
Proof.
  intros (st & v & d & vdata & vocab & Hst & _ & Hv & Hvd & Hvoc & ->)
         (st' & v' & d' & vdata' & vocab' & Hst' & _ & Hv' & Hvd' & Hvoc' & ->).
  cbv zeta in *. rewrite Hst in Hst'. apply Ret_inj in Hst' as <-.
  rewrite Hv in Hv'. apply Ret_inj in Hv'.
  assert (v' = v) as -> by congruence. assert (d' = d) as -> by congruence.
  rewrite Hvd in Hvd'. assert (vdata' = vdata) as -> by congruence.
  rewrite Hvoc in Hvoc'. apply Ret_inj in Hvoc' as <-. reflexivity.
Qed.

Lemma Forall2_functional {A B} (P : A → B → Prop) (l : list A) (k k' : list B) :
  (∀ x y y', P x y → P x y' → y = y') →
  Forall2 P l k → Forall2 P l k' → k = k'.
Proof.
  intros Hfun Hk. revert k'.
  induction Hk as [|x y l k Hxy Hlk IH]; intros k' Hk'.
  - by apply Forall2_nil_inv_l in Hk'.
  - apply Forall2_cons_inv_l in Hk' as (y' & k'' & Hxy' & Hlk' & ->).
    f_equal; [by eapply Hfun|by apply IH].
Qed.



(** ** Attractor prompts: modes, precedence and prompt text *)

(** The two single-prompt modes and the rejection of an unknown mode, once
    the state is resolved. *)
Lemma attractor_prompt_static (attractor_id style mode : string)
    (custom_state : option (gmap string R)) (keyframe_count : Z)
    (meta : option attractor) (state : gmap string R) :
  (custom_state = Some state ∧ has_axes state ∧ meta = None) ∨
  (custom_state = None ∧
   ∃ m, assoc PATINA_ATTRACTOR_PRESETS attractor_id = Some m ∧
        meta = Some m ∧ state = a_state m) →
  mode ≠ "sequence" →
  ∃ vtype vdist vdata vocab canon cdist,
    _patina_nearest_visual_type state = Ret (Some vtype, Fin vdist) ∧
    assoc PATINA_VISUAL_TYPES vtype = Some vdata ∧
    _patina_select_vocabulary state = Ret vocab ∧
    _patina_nearest_canonical state = Ret (Some canon, Fin cdist) ∧
    generate_patina_attractor_prompt attractor_id custom_state mode style
        keyframe_count =
      Ret (if String.eqb mode "composite" then
             JDict
               [ ("mode", JStr "composite");
                 ("prompt", JStr (join_prompt (style_prefix style)
                                    (composite_keywords vdata vocab)));
                 ("nearest_visual_type", JStr vtype);
                 ("visual_distance", JFloat (Fin (round4 vdist)));
                 ("nearest_canonical_state", JStr canon);
                 ("optical_properties",
                   JDict (prod_map (λ k, k) JStr <$> optical vdata));
                 ("color_associations", json_strs (color_associations vdata));
                 ("attractor", attractor_info attractor_id meta true);
                 ("state", round_state state) ]
           else if String.eqb mode "split_view" then
             JDict
               [ ("mode", JStr "split_view");
                 ("panels",
                   JDict ((λ '(category, terms),
                             (category,
                              JDict [ ("prompt",
                                        JStr (join_prompt (style_prefix style)
                                                terms));
                                      ("terms", json_strs terms) ])) <$> vocab));
                 ("nearest_visual_type", JStr vtype);
                 ("visual_distance", JFloat (Fin (round4 vdist)));
                 ("optical_properties",
                   JDict (prod_map (λ k, k) JStr <$> optical vdata));
                 ("color_associations", json_strs (color_associations vdata));
                 ("attractor", attractor_info attractor_id meta false);
                 ("state", round_state state) ]
           else
             JDict
               [ ("error", JStr ("Unknown mode: " +:+ mode));
                 ("available",
                   json_strs [ "composite"; "split_view"; "sequence" ]) ]).
Proof.
  intros Hres Hmode.
  assert (Hax : has_axes state).
  { destruct Hres as [(_ & Hs & _) | (_ & m & Hm & _ & ->)]; [done|].
    apply valid_has_axes. apply assoc_elem_of in Hm.
    apply (proj1 (Forall_forall _ _) attractor_states_valid _ Hm). }
  destruct (nearest_visual_type_ret _ Hax) as (vtype & vdist & Hv & Hin & _).
  destruct (assoc_keys _ _ Hin) as [vdata Hvdata].
  destruct (select_vocabulary_spec _ Hax) as (vocab & Hvocab & _).
  destruct (nearest_canonical_ret _ Hax) as (canon & cdist & Hc & _ & _).
  exists vtype, vdist, vdata, vocab, canon, cdist.
  split_and!; [done..|].
  unfold generate_patina_attractor_prompt.
  destruct Hres as [(-> & Hs & ->) | (-> & m & Hm & -> & ->)];
    [rewrite (proj2 (first_missing_None _) Hs) | rewrite Hm];
    cbv zeta; rewrite Hv; cbn [mbind res_bind];
    unfold visual_type_data, getitem_assoc;
    rewrite Hvdata; cbn [mbind res_bind];
    rewrite Hvocab; cbn [mbind res_bind];
    rewrite Hc; cbn [mbind res_bind]; fold (style_prefix style);
    (destruct (String.eqb_spec mode "composite"); [reflexivity|]);
    (destruct (String.eqb_spec mode "split_view"); [reflexivity|]);
    (destruct (String.eqb_spec mode "sequence"); [done|]);
    reflexivity.
Qed.



Lemma target_period_custom (attractor_id : string) :
  sequence_target_period None attractor_id = 30%Z.
Proof. reflexivity. Qed.

(** X17. A custom state takes precedence over the attractor identifier: with
    a dictionary that has the five axes, the identifier (known or not) is
    only echoed in the [attractor] entry, whose name and classification
    are those of a custom state; every other entry of the result, and any
    exception, are the same for all identifiers. *)
Theorem custom_state_overrides_attractor_id (cs : gmap string R)
    (id1 id2 mode style : string) (keyframe_count : Z) :
  has_axes cs →
  agree_except "attractor"
    (generate_patina_attractor_prompt id1 (Some cs) mode style keyframe_count)
    (generate_patina_attractor_prompt id2 (Some cs) mode style keyframe_count) ∧
  ∀ out,
    generate_patina_attractor_prompt id1 (Some cs) mode style keyframe_count
      = Ret out →
    ¬ is_error out →
    ∃ info,
      json_get "attractor" out = Some info ∧
      json_get "id" info =
        Some (JStr (if String.eqb id1 "" then "custom" else id1)) ∧
      json_get "name" info = Some (JStr "Custom State") ∧
      json_get "classification" info = Some (JStr "custom").
Proof.
  intros Hcs.
  assert (Hres : ∀ attractor_id : string,
    (Some cs = Some cs ∧ has_axes cs ∧ @None attractor = None) ∨
    (Some cs = None ∧
     ∃ m, assoc PATINA_ATTRACTOR_PRESETS attractor_id = Some m ∧
          None = Some m ∧ cs = a_state m)) by (intros; by left).
  destruct (decide (mode = "sequence")) as [->|Hseq].
  - destruct (decide (keyframe_count = 0%Z)) as [->|Hkfc].
    + rewrite !(attractor_sequence_zero _ style (Some cs) None cs) by by left.
      split; [reflexivity|]. intros out Hout. discriminate Hout.
    + destruct (attractor_sequence_spec id1 style (Some cs) keyframe_count
                  None cs (Hres id1) Hkfc)
        as (pname & cfg & a & b & kfs & Hbest & Hcfg & Ha & Hb & Hrun & Hall).
      destruct (attractor_sequence_spec id2 style (Some cs) keyframe_count
                  None cs (Hres id2) Hkfc)
        as (pname' & cfg' & a' & b' & kfs' & Hbest' & Hcfg' & Ha' & Hb'
            & Hrun' & Hall').
      rewrite target_period_custom in Hbest, Hbest'.
      rewrite Hbest in Hbest'.
      assert (pname' = pname) as -> by congruence.
      assert (cfg' = cfg) as -> by congruence.
      assert (a' = a) as -> by congruence. assert (b' = b) as -> by congruence.
      assert (kfs' = kfs) as ->.
      { eapply Forall2_functional; [|exact Hall'|exact Hall].
        intros x y y'. apply keyframe_record_functional. }
      rewrite Hrun, Hrun'. split.
      * intros k Hk. cbn [json_get assoc].
        repeat (case_eqb; [reflexivity|]). by case_eqb.
      * intros out [= <-] _. eexists. split; [reflexivity|].
        by split_and!.
  - destruct (attractor_prompt_static id1 style mode (Some cs) keyframe_count
                None cs (Hres id1) Hseq)
      as (vtype & vdist & vdata & vocab & canon & cdist
          & Hv & Hvdata & Hvocab & Hc & Hrun).
    destruct (attractor_prompt_static id2 style mode (Some cs) keyframe_count
                None cs (Hres id2) Hseq)
      as (vtype' & vdist' & vdata' & vocab' & canon' & cdist'
          & Hv' & Hvdata' & Hvocab' & Hc' & Hrun').
    rewrite Hv in Hv'. apply Ret_inj in Hv'.
    assert (vtype' = vtype) as -> by congruence.
    assert (vdist' = vdist) as -> by congruence.
    assert (vdata' = vdata) as -> by congruence.
    assert (vocab' = vocab) as -> by congruence.
    rewrite Hc in Hc'. apply Ret_inj in Hc'.
    assert (canon' = canon) as -> by congruence.
    rewrite Hrun, Hrun'. split.
    + intros k Hk.
      destruct (String.eqb mode "composite");
        [|destruct (String.eqb mode "split_view")];
        cbn [json_get assoc]; repeat (case_eqb; [reflexivity|]);
        by repeat case_eqb.
    + intros out [= <-].
      destruct (String.eqb mode "composite");
        [|destruct (String.eqb mode "split_view")].
      * intros _. eexists. split; [reflexivity|]. by split_and!.
      * intros _. eexists. split; [reflexivity|]. by split_and!.
      * intros Herr. exfalso. apply Herr. by eexists.
Qed.

Lemma custom_state_overrides_attractor_id_witness :
  ∃ out1 out2,
    generate_patina_attractor_prompt "period_19"
      (Some (mk_state 0.30 0.20 0.60 0.05 0.85)) "composite" "" 4 = Ret out1 ∧
    generate_patina_attractor_prompt "no_such_attractor"
      (Some (mk_state 0.30 0.20 0.60 0.05 0.85)) "composite" "" 4 = Ret out2 ∧
    json_get "prompt" out1 = json_get "prompt" out2.
Proof.
  assert (Hs : has_axes (mk_state 0.30 0.20 0.60 0.05 0.85))
    by (apply valid_has_axes, mk_state_valid; lra).
  pose proof (proj1 (custom_state_overrides_attractor_id
                       (mk_state 0.30 0.20 0.60 0.05 0.85)
                       "period_19" "no_such_attractor" "composite" "" 4 Hs))
    as Hagree.
  destruct (attractor_prompt_static "period_19" "" "composite"
              (Some (mk_state 0.30 0.20 0.60 0.05 0.85)) 4 None
              (mk_state 0.30 0.20 0.60 0.05 0.85))
    as (? & ? & ? & ? & ? & ? & _ & _ & _ & _ & Hrun1);
    [left; split_and!; [reflexivity|exact Hs|reflexivity]|discriminate|].
  destruct (attractor_prompt_static "no_such_attractor" "" "composite"
              (Some (mk_state 0.30 0.20 0.60 0.05 0.85)) 4 None
              (mk_state 0.30 0.20 0.60 0.05 0.85))
    as (? & ? & ? & ? & ? & ? & _ & _ & _ & _ & Hrun2);
    [left; split_and!; [reflexivity|exact Hs|reflexivity]|discriminate|].
  rewrite Hrun1, Hrun2 in Hagree. eexists _, _.
  split; [exact Hrun1|]. split; [exact Hrun2|].
  apply Hagree. discriminate.
Defined.






(** ** Vocabulary: the index follows the weathering *)

Lemma valid_axis_bounds (s : gmap string R) (p : string) :
  valid_coordinate s → p ∈ PATINA_PARAMETER_NAMES → 0 <= axis s p <= 1.
Proof.
  intros (e & g & r & i & c & -> & He & Hg & Hr & Hi & Hc)%valid_coordinate_inv Hp.
  unfold PATINA_PARAMETER_NAMES in Hp. rewrite !elem_of_cons, elem_of_nil in Hp.
  destruct Hp as [->|[->|[->|[->|[->|[]]]]]]; done.
Qed.

Lemma category_scalar_unit (category : string) (s : gmap string R) :
  valid_coordinate s → 0 <= category_scalar category s <= 1.
Proof.
  intros Hs.
  pose proof (valid_axis_bounds s "exposure_duration" Hs ltac:(elem_of_literal)).
  pose proof (valid_axis_bounds s "agent_intensity" Hs ltac:(elem_of_literal)).
  pose proof (valid_axis_bounds s "material_resistance" Hs ltac:(elem_of_literal)).
  pose proof (valid_axis_bounds s "intervention_state" Hs ltac:(elem_of_literal)).
  unfold category_scalar. cbv zeta.
  generalize dependent (axis s "exposure_duration").
  generalize dependent (axis s "agent_intensity").
  generalize dependent (axis s "material_resistance").
  generalize dependent (axis s "intervention_state").
  intros i Hi r Hr g Hg e He.
  repeat case_eqb; try lra; nra.
Qed.

Lemma category_scalar_mono (category : string) (s s' : gmap string R) :
  valid_coordinate s → valid_coordinate s' →
  axis s "exposure_duration" <= axis s' "exposure_duration" →
  axis s "agent_intensity" <= axis s' "agent_intensity" →
  axis s' "material_resistance" <= axis s "material_resistance" →
  axis s' "intervention_state" <= axis s "intervention_state" →
  category_scalar category s <= category_scalar category s'.
Proof.
  intros Hs Hs'.
  pose proof (valid_axis_bounds s "exposure_duration" Hs ltac:(elem_of_literal)).
  pose proof (valid_axis_bounds s "agent_intensity" Hs ltac:(elem_of_literal)).
  pose proof (valid_axis_bounds s "material_resistance" Hs ltac:(elem_of_literal)).
  pose proof (valid_axis_bounds s "intervention_state" Hs ltac:(elem_of_literal)).
  pose proof (valid_axis_bounds s' "exposure_duration" Hs' ltac:(elem_of_literal)).
  pose proof (valid_axis_bounds s' "agent_intensity" Hs' ltac:(elem_of_literal)).
  pose proof (valid_axis_bounds s' "material_resistance" Hs' ltac:(elem_of_literal)).
  pose proof (valid_axis_bounds s' "intervention_state" Hs' ltac:(elem_of_literal)).
  unfold category_scalar. cbv zeta.
  generalize dependent (axis s "exposure_duration").
  generalize dependent (axis s "agent_intensity").
  generalize dependent (axis s "material_resistance").
  generalize dependent (axis s "intervention_state").
  generalize dependent (axis s' "exposure_duration").
  generalize dependent (axis s' "agent_intensity").
  generalize dependent (axis s' "material_resistance").
  generalize dependent (axis s' "intervention_state").
  intros i' Hi' r' Hr' g' Hg' e' He' i Hi r Hr g Hg e He Hee Hgg Hrr Hii.
  repeat case_eqb; try lra; nra.
Qed.

(** X19. More weathering never selects an earlier phrase. For two valid
    coordinates, the second with at least the exposure and the agent
    intensity of the first and at most its material resistance and
    intervention, the index that every vocabulary category computes for the
    second is at least the index for the first; and on valid coordinates
    the index is within the list before any clamping. *)
Theorem vocabulary_index_monotone (s s' : gmap string R)
    (category : string) (terms : list string) :
  valid_coordinate s → valid_coordinate s' →
  axis s "exposure_duration" <= axis s' "exposure_duration" →
  axis s "agent_intensity" <= axis s' "agent_intensity" →
  axis s' "material_resistance" <= axis s "material_resistance" →
  axis s' "intervention_state" <= axis s "intervention_state" →
  (category, terms) ∈ PATINA_VISUAL_VOCABULARY →
  ∃ idx idx',
    vocabulary_index category s (Z.of_nat (length terms)) = Ret idx ∧
    vocabulary_index category s' (Z.of_nat (length terms)) = Ret idx' ∧
    (0 <= idx <= idx')%Z ∧ (idx' <= Z.of_nat (length terms) - 1)%Z.
Proof.
  intros Hs Hs' He Hg Hr Hi Hin.
  pose proof (proj1 (Forall_forall _ _) vocabulary_wf _ Hin) as [Hlen _].
  cbn [snd] in Hlen. rewrite Hlen.
  rewrite !vocabulary_index_spec by by apply valid_has_axes.
  change (Z.of_nat 8 - 1)%Z with 7%Z.
  pose proof (category_scalar_unit category s Hs) as H0.
  pose proof (category_scalar_unit category s' Hs') as H1.
  pose proof (category_scalar_mono category s s' Hs Hs' He Hg Hr Hi) as Hle.
  eexists _, _. split_and!; [reflexivity..| | |].
  - rewrite <- (py_round_IZR 0). apply py_round_mono. lra.
  - apply py_round_mono. lra.
  - rewrite <- (py_round_IZR 7) at 2. apply py_round_mono. lra.
Qed.

Lemma vocabulary_index_monotone_witness :
  ∃ idx idx',
    vocabulary_index "structural_integrity"
      (mk_state 0.30 0.20 0.60 0.05 0.85) 8 = Ret idx ∧
    vocabulary_index "structural_integrity"
      (mk_state 0.95 0.90 0.30 0.00 0.40) 8 = Ret idx' ∧
    (0 <= idx <= idx')%Z ∧ (idx' <= 8 - 1)%Z.
Proof.
  assert (Hs : valid_coordinate (mk_state 0.30 0.20 0.60 0.05 0.85))
    by (apply mk_state_valid; lra).
  assert (Hs' : valid_coordinate (mk_state 0.95 0.90 0.30 0.00 0.40))
    by (apply mk_state_valid; lra).
  destruct (assoc PATINA_VISUAL_VOCABULARY "structural_integrity")
    as [terms|] eqn:Hterms; [|discriminate Hterms].
  pose proof (assoc_elem_of _ _ _ Hterms) as Hin.
  assert (Hlen : Z.of_nat (length terms) = 8%Z)
    by (injection Hterms as <-; reflexivity).
  rewrite <- Hlen.
  apply (vocabulary_index_monotone _ _ _ _ Hs Hs'); [..|exact Hin];
    unfold axis; rewrite !mk_state_lookup; simpl; lra.
Defined.

(** ** Vocabulary extraction by identifier *)

(** X20. In [extract_patina_visual_vocabulary] the identifier takes
    precedence over the coordinates: with a known identifier the state
    argument is ignored, even a malformed one, the result describes the
    canonical state, which is classified as itself at distance 0, and
    [strength] is only echoed; with an unknown identifier the call is
    rejected even when valid coordinates come with it. *)
Theorem patina_id_takes_precedence :
  (∀ pid state strength, pid ∈ keys PATINA_CANONICAL_STATES →
     ∃ out s,
       assoc PATINA_CANONICAL_STATES pid = Some s ∧
       extract_patina_visual_vocabulary state (Some pid) strength = Ret out ∧
       ¬ is_error out ∧
       json_get "input_state" out = Some (JState s) ∧
       json_get "nearest_canonical_state" out = Some (JStr pid) ∧
       json_get "canonical_distance" out = Some (JFloat (Fin 0)) ∧
       json_get "strength" out = Some (JFloat (Fin strength)) ∧
       ∀ state' strength',
         agree_except "strength"
           (extract_patina_visual_vocabulary state (Some pid) strength)
           (extract_patina_visual_vocabulary state' (Some pid) strength')) ∧
  (∀ pid state strength, pid ∉ keys PATINA_CANONICAL_STATES →
     extract_patina_visual_vocabulary state (Some pid) strength =
       Ret (unknown_state pid)).
Proof.
  split.
  - intros pid state strength [s Hs]%assoc_keys.
    pose proof (canonical_state_valid _ _ Hs) as Hvalid.
    pose proof (valid_has_axes _ Hvalid) as Hax.
    destruct (nearest_visual_type_ret _ Hax) as (vtype & vdist & Hv & Hin & _).
    destruct (assoc_keys _ _ Hin) as [vdata Hvdata].
    destruct (select_vocabulary_spec _ Hax) as (vocab & Hvocab & _).
    destruct (nearest_canonical_spec s Hvalid)
      as (i & sid & e & d & Hc & _ & _ & _ & _ & _ & Hself).
    destruct (Hself pid s (assoc_elem_of _ _ _ Hs) eq_refl) as [-> ->].
    assert (Hrun : ∀ st strength0,
      extract_patina_visual_vocabulary st (Some pid) strength0 =
        Ret (JDict
          [ ("nearest_visual_type", JStr vtype);
            ("distance", JFloat (Fin (round4 vdist)));
            ("keywords", json_strs (keywords vdata));
            ("optical_properties",
              JDict (prod_map (λ k, k) JStr <$> optical vdata));
            ("color_associations", json_strs (color_associations vdata));
            ("nearest_canonical_state", JStr pid);
            ("canonical_distance", JFloat (Fin (round4 0)));
            ("vocabulary_by_category",
              JDict (prod_map (λ k, k) json_strs <$> vocab));
            ("strength", JFloat (Fin strength0));
            ("input_state", round_state s) ])).
    { intros st strength0. unfold extract_patina_visual_vocabulary.
      destruct st; cbv beta iota zeta; rewrite Hs;
        rewrite (proj2 (first_missing_None _) Hax);
        rewrite Hv; cbn [mbind res_bind];
        unfold visual_type_data, getitem_assoc;
        rewrite Hvdata; cbn [mbind res_bind];
        rewrite Hvocab; cbn [mbind res_bind];
        rewrite Hc; reflexivity. }
    assert (H0 : round4 0 = 0) by (apply (round4_grid _ 0); lra).
    eexists _, s. split; [done|]. split; [apply Hrun|].
    split_and!.
    + intros [x Hx]. discriminate Hx.
    + simpl. unfold round_state. by rewrite (canonical_state_rounded _ _ Hs).
    + reflexivity.
    + simpl. by rewrite H0.
    + reflexivity.
    + intros state' strength'. rewrite !Hrun. intros k Hk.
      cbn [json_get assoc]. repeat (case_eqb; [reflexivity|]).
      by repeat case_eqb.
  - intros pid state strength Hpid%assoc_None_keys.
    unfold extract_patina_visual_vocabulary.
    destruct state; cbv beta iota zeta; by rewrite Hpid.
Qed.

Lemma patina_id_takes_precedence_witness :
  ∃ out,
    extract_patina_visual_vocabulary (Some ∅) (Some "deep_rust") 2 = Ret out ∧
    json_get "nearest_canonical_state" out = Some (JStr "deep_rust") ∧
    json_get "canonical_distance" out = Some (JFloat (Fin 0)).
Proof.
  destruct (proj1 patina_id_takes_precedence "deep_rust" (Some ∅) 2)
    as (out & s & _ & Hrun & _ & _ & Hc & Hd & _).
  - rewrite canonical_keys. elem_of_literal.
  - exists out. split_and!; assumption.
Defined.

(** ** Trajectories *)

Lemma trajectory_step_spec (a b : gmap string R) (num_steps i : Z) :
  valid_coordinate a → valid_coordinate b → (0 <= i <= num_steps)%Z →
  (0 < num_steps)%Z →
  ∃ record,
    (t ← py_truediv i num_steps;
     state ← dict_comp PATINA_PARAMETER_NAMES
               (λ p, x ← getitem a p; y ← getitem b p;
                     Ret (round4 (x + t * (y - x))))
               ∅;
     '(vtype, vdist) ← _patina_nearest_visual_type state;
     '(nearest_canon, cdist) ← _patina_nearest_canonical state;
     Ret (JDict [ ("step", JInt i);
                  ("t", JFloat (Fin (round4 t)));
                  ("state", JState state);
                  ("nearest_visual_type", json_of_id vtype);
                  ("visual_distance", JFloat (round4_x vdist));
                  ("nearest_canonical", json_of_id nearest_canon);
                  ("canonical_distance", JFloat (round4_x cdist)) ])) =
      Ret record ∧
    trajectory_record a b num_steps i record.
Proof.
  intros Ha Hb Hi Hn.
  assert (Ht : 0 <= IZR i / IZR num_steps <= 1).
  { assert (0 < IZR num_steps) by (apply IZR_lt; lia).
    assert (0 <= IZR i) by (apply IZR_le; lia).
    assert (IZR i <= IZR num_steps) by (apply IZR_le; lia).
    assert (0 < / IZR num_steps) by by apply Rinv_0_lt_compat.
    assert (IZR num_steps * / IZR num_steps = 1) by (apply Rinv_r; lra).
    unfold Rdiv. split; nra. }
  destruct (interpolate_valid a b _ "linear" Ha Hb Ht) as (st & Hst & Hvst).
  pose proof (round4_state_valid _ Hvst) as Hvr.
  pose proof (nearest_visual_type_spec _ Hvr) as Hvspec.
  pose proof (nearest_canonical_spec _ Hvr) as Hcspec.
  destruct Hvspec as (iv & v & ev & vd & Hv & Hvrest).
  destruct Hcspec as (ic & c & ec & cd & Hc & Hcrest).
  assert (Hstate :
    dict_comp PATINA_PARAMETER_NAMES
      (λ p, x ← getitem a p; y ← getitem b p;
            Ret (round4 (x + IZR i / IZR num_steps * (y - x)))) ∅ =
    Ret (round4 <$> st)).
  { clear Hv Hvrest Hc Hcrest Hvr Hvst. revert Hst.
    destruct (valid_coordinate_inv a Ha) as (e & g & r & j & k & -> & _).
    destruct (valid_coordinate_inv b Hb) as (e' & g' & r' & j' & k' & -> & _).
    rewrite interpolate_mk_state. cbv zeta.
    rewrite alpha_other by discriminate. intros [= <-].
    unfold PATINA_PARAMETER_NAMES, dict_comp, getitem.
    rewrite !mk_state_lookup. simpl. reflexivity. }
  unfold py_truediv. destruct (decide _) as [Hz|_]; [lia|].
  cbn [mbind res_bind]. rewrite Hstate. cbn [mbind res_bind].
  rewrite Hv. cbn [mbind res_bind]. rewrite Hc. cbn [mbind res_bind].
  eexists. split; [reflexivity|].
  exists st, v, vd, c, cd. cbv zeta. split_and!; [done|done| | |reflexivity].
  - rewrite <- Hv. by exists iv, v, ev, vd.
  - rewrite <- Hc. by exists ic, c, ec, cd.
Qed.

Lemma trajectory_spec (start_id end_id : string) (a b : gmap string R)
    (num_steps : Z) :
  assoc PATINA_CANONICAL_STATES start_id = Some a →
  assoc PATINA_CANONICAL_STATES end_id = Some b →
  (0 < num_steps)%Z →
  ∃ d trajectory,
    _patina_euclidean_distance a b = Ret d ∧
    compute_patina_trajectory start_id end_id num_steps =
      Ret (JDict [ ("start", JStr start_id);
                   ("end", JStr end_id);
                   ("total_distance", JFloat (Fin (round4 d)));
                   ("num_steps", JInt num_steps);
                   ("trajectory", JList trajectory) ]) ∧
    Forall2 (trajectory_record a b num_steps) (py_range (num_steps + 1))
            trajectory.
Proof.
  intros Ha Hb Hn.
  pose proof (canonical_state_valid _ _ Ha) as Hva.
  pose proof (canonical_state_valid _ _ Hb) as Hvb.
  destruct (distance_valid a b Hva Hvb) as [d Hd].
  unfold compute_patina_trajectory. rewrite Ha, Hb, Hd. cbn [mbind res_bind].
  match goal with
  | |- context [for_each ?l ?f] =>
      destruct (for_each_Forall2 (trajectory_record a b num_steps) l f)
        as (tr & Htr & Hall)
  end.
  { intros i Hi%elem_of_py_range. apply trajectory_step_spec; [done..|lia|done]. }
  rewrite Htr. cbn [mbind res_bind]. by exists d, tr.
Qed.



Lemma nearest_spec_self {E} (center_of : E → gmap string R)
    (items : list (string * E)) (sid : string) (e : E) (v : string) (d : R) :
  (sid, e) ∈ items →
  nearest_spec center_of items (center_of e) (Ret (Some v, Fin d)) →
  v = sid ∧ d = 0.
Proof.
  intros Hin (i & sid' & e' & d' & Hres & _ & _ & _ & _ & _ & Hself).
  apply Ret_inj in Hres.
  assert (sid' = v) as -> by congruence. assert (d' = d) as -> by congruence.
  destruct (Hself sid e Hin eq_refl) as [-> ->]. done.
Qed.

(** X22. A trajectory starts at the start state and ends at the end state:
    for a positive number of steps, the first record is at [t = 0] and the
    last at [t = 1]; their states are the two canonical coordinates
    themselves, and each is classified as its own canonical state at
    distance 0. *)
Theorem trajectory_endpoints (start_id end_id : string) (num_steps : Z) :
  start_id ∈ keys PATINA_CANONICAL_STATES →
  end_id ∈ keys PATINA_CANONICAL_STATES →
  (0 < num_steps)%Z →
  ∃ a b out trajectory first last,
    assoc PATINA_CANONICAL_STATES start_id = Some a ∧
    assoc PATINA_CANONICAL_STATES end_id = Some b ∧
    compute_patina_trajectory start_id end_id num_steps = Ret out ∧
    json_get "trajectory" out = Some (JList trajectory) ∧
    trajectory !! 0%nat = Some first ∧
    trajectory !! Z.to_nat num_steps = Some last ∧
    length trajectory = S (Z.to_nat num_steps) ∧
    json_get "t" first = Some (JFloat (Fin 0)) ∧
    json_get "state" first = Some (JState a) ∧
    json_get "nearest_canonical" first = Some (JStr start_id) ∧
    json_get "canonical_distance" first = Some (JFloat (Fin 0)) ∧
    json_get "t" last = Some (JFloat (Fin 1)) ∧
    json_get "state" last = Some (JState b) ∧
    json_get "nearest_canonical" last = Some (JStr end_id) ∧
    json_get "canonical_distance" last = Some (JFloat (Fin 0)).
Proof.
  intros [a Ha]%assoc_keys [b Hb]%assoc_keys Hn.
  pose proof (canonical_state_valid _ _ Ha) as Hva.
  pose proof (canonical_state_valid _ _ Hb) as Hvb.
  destruct (trajectory_spec start_id end_id a b num_steps Ha Hb Hn)
    as (d & tr & Hd & Hrun & Hall).
  apply Forall2_py_range in Hall as [Hlen Hall].
  assert (Hlen' : length tr = S (Z.to_nat num_steps)) by lia.
  destruct (lookup_lt_is_Some_2 tr 0%nat) as [first Hfirst]; [lia|].
  destruct (lookup_lt_is_Some_2 tr (Z.to_nat num_steps)) as [last Hlast]; [lia|].
  exists a, b. eexists _, tr, first, last.
  assert (H0 : round4 0 = 0) by (apply (round4_grid _ 0); lra).
  assert (H1 : round4 1 = 1) by (apply (round4_grid _ 10000); lra).
  assert (Hnz : IZR num_steps ≠ 0) by (apply not_0_IZR; lia).
  destruct (Hall _ _ Hfirst)
    as [_ (st & v & vd & c & cd & Hst & _ & _ & Hc & ->)].
  destruct (Hall _ _ Hlast)
    as [_ (st' & v' & vd' & c' & cd' & Hst' & _ & _ & Hc' & ->)].
  cbv zeta in Hst, Hst'. rewrite Z2Nat.id in Hst' by lia.
  change (Z.of_nat 0) with 0%Z in *.
  assert (Ht0 : IZR 0 / IZR num_steps = 0) by (unfold Rdiv; lra).
  assert (Ht1 : IZR num_steps / IZR num_steps = 1) by by field.
  rewrite Ht0 in Hst. rewrite Ht1 in Hst'.
  rewrite (interpolate_alpha_0 a b 0 "linear" Hva Hvb (alpha_at_0_any _)) in Hst.
  rewrite (interpolate_alpha_1 a b 1 "linear" Hva Hvb) in Hst'
    by (by apply alpha_other).
  apply Ret_inj in Hst as <-. apply Ret_inj in Hst' as <-.
  rewrite (canonical_state_rounded _ _ Ha) in Hc, Hfirst |- *.
  rewrite (canonical_state_rounded _ _ Hb) in Hc', Hlast |- *.
  destruct (nearest_spec_self (λ coords, coords) _ start_id a c cd
              (assoc_elem_of _ _ _ Ha) Hc) as [-> ->].
  destruct (nearest_spec_self (λ coords, coords) _ end_id b c' cd'
              (assoc_elem_of _ _ _ Hb) Hc') as [-> ->].
  rewrite Z2Nat.id in Hlast |- * by lia.
  rewrite Ht0, H0 in Hfirst |- *. rewrite H0 in Hlast.
  rewrite Ht1, H1 in Hlast |- *.
  split_and!; [done|done|exact Hrun|reflexivity|exact Hfirst|exact Hlast
              |exact Hlen'|reflexivity..].
Qed.

Lemma trajectory_endpoints_witness :
  ∃ out trajectory last,
    compute_patina_trajectory "gentle_patina" "total_ruin" 7 = Ret out ∧
    json_get "trajectory" out = Some (JList trajectory) ∧
    trajectory !! 7%nat = Some last ∧
    json_get "nearest_canonical" last = Some (JStr "total_ruin") ∧
    json_get "canonical_distance" last = Some (JFloat (Fin 0)).
Proof.
  destruct (trajectory_endpoints "gentle_patina" "total_ruin" 7)
    as (a & b & out & tr & first & last & _ & _ & Hrun & Htr & _ & Hlast & _
        & _ & _ & _ & _ & _ & _ & Hc & Hd).
  - rewrite canonical_keys. elem_of_literal.
  - rewrite canonical_keys. elem_of_literal.
  - lia.
  - exists out, tr, last. split_and!; assumption.
Defined.

(** X23. The number of steps of a trajectory is never validated: zero
    steps raise [ZeroDivisionError], and a negative number gives a result
    with the total distance and an empty trajectory. Unknown identifiers
    are rejected first, the start before the end, whatever the number of
    steps. *)
Theorem trajectory_step_count_is_not_validated :
  (∀ start_id end_id,
     start_id ∈ keys PATINA_CANONICAL_STATES →
     end_id ∈ keys PATINA_CANONICAL_STATES →
     compute_patina_trajectory start_id end_id 0 = Raise ZeroDivisionError) ∧
  (∀ start_id end_id num_steps,
     start_id ∈ keys PATINA_CANONICAL_STATES →
     end_id ∈ keys PATINA_CANONICAL_STATES →
     (num_steps < 0)%Z →
     ∃ out d,
       compute_patina_trajectory start_id end_id num_steps = Ret out ∧
       ¬ is_error out ∧
       json_get "total_distance" out = Some (JFloat (Fin d)) ∧
       json_get "trajectory" out = Some (JList [])) ∧
  (∀ start_id end_id num_steps,
     start_id ∉ keys PATINA_CANONICAL_STATES →
     compute_patina_trajectory start_id end_id num_steps =
       Ret (unknown_state start_id)) ∧
  (∀ start_id end_id num_steps,
     start_id ∈ keys PATINA_CANONICAL_STATES →
     end_id ∉ keys PATINA_CANONICAL_STATES →
     compute_patina_trajectory start_id end_id num_steps =
       Ret (unknown_state end_id)).
Proof.
  split_and!.
  - intros start_id end_id [a Ha]%assoc_keys [b Hb]%assoc_keys.
    destruct (distance_valid a b) as [d Hd];
      [by eapply canonical_state_valid..|].
    unfold compute_patina_trajectory. rewrite Ha, Hb, Hd. reflexivity.
  - intros start_id end_id n [a Ha]%assoc_keys [b Hb]%assoc_keys Hn.
    destruct (distance_valid a b) as [d Hd];
      [by eapply canonical_state_valid..|].
    unfold compute_patina_trajectory. rewrite Ha, Hb, Hd.
    cbn [mbind res_bind].
    assert (Hrange : py_range (n + 1) = []).
    { unfold py_range. by replace (Z.to_nat (n + 1)) with 0%nat by lia. }
    rewrite Hrange. cbn [for_each mbind res_bind].
    eexists _, _. split; [reflexivity|]. split_and!; [|reflexivity..].
    intros [x Hx]. discriminate Hx.
  - intros start_id end_id n Hs%assoc_None_keys.
    unfold compute_patina_trajectory. by rewrite Hs.
  - intros start_id end_id n [a Ha]%assoc_keys He%assoc_None_keys.
    unfold compute_patina_trajectory. by rewrite Ha, He.
Qed.

Lemma trajectory_step_count_is_not_validated_witness :
  compute_patina_trajectory "deep_rust" "paper_foxing" 0 = Raise ZeroDivisionError.
Proof.
  apply (proj1 trajectory_step_count_is_not_validated);
    rewrite canonical_keys; elem_of_literal.
Defined.

(** ** The distance report *)

Lemma foldl_max_first {A} (key : A → R) (xs : list A) :
  ∀ best,
    let r := foldl (λ best y, if decide (key best < key y) then y else best)
                   best xs in
    (∀ y, y ∈ xs → key y <= key r) ∧
    ((r = best ∧ ∀ y, y ∈ xs → key y <= key best) ∨
     (∃ i : nat, xs !! i = Some r ∧ key best < key r ∧
        ∀ (j : nat) y, (j < i)%nat → xs !! j = Some y → key y < key r)).
Proof.
  induction xs as [|x xs IH]; intros best; cbv zeta; simpl.
  - split; [by intros y ?%elem_of_nil|]. left. split; [done|].
    by intros y ?%elem_of_nil.
  - destruct (decide (key best < key x)) as [Hlt|Hge].
    + destruct (IH x) as (Hall & Hcase). cbv zeta in *.
      assert (Hx : key x <=
        key (foldl (λ best y, if decide (key best < key y) then y else best)
                   x xs)).
      { destruct Hcase as [[-> _]|(i & _ & Hi & _)]; lra. }
      split.
      * intros y [->|Hy]%elem_of_cons; [done|by apply Hall].
      * right. destruct Hcase as [[-> Hle]|(i & Hi & Hbest & Hfirst)].
        -- exists 0%nat. split; [done|]. split; [done|]. intros j y Hj. lia.
        -- exists (S i). split; [done|]. split; [lra|].
           intros [|j] y Hj Hy; simpl in Hy.
           ++ injection Hy as <-. done.
           ++ apply (Hfirst j); [lia|done].
    + destruct (IH best) as (Hall & Hcase). cbv zeta in *.
      assert (Hb : key best <=
        key (foldl (λ best y, if decide (key best < key y) then y else best)
                   best xs)).
      { destruct Hcase as [[-> _]|(i & _ & Hi & _)]; lra. }
      split.
      * intros y [->|Hy]%elem_of_cons; [lra|by apply Hall].
      * destruct Hcase as [[-> Hle]|(i & Hi & Hbest & Hfirst)].
        -- left. split; [done|].
           intros y [->|Hy]%elem_of_cons; [lra|by apply Hle].
        -- right. exists (S i). split; [done|]. split; [done|].
           intros [|j] y Hj Hy; simpl in Hy.
           ++ injection Hy as <-. lra.
           ++ apply (Hfirst j); [lia|done].
Qed.

(** [max(xs, key=key)] on a non-empty list returns the first element, in
    the order of the list, among those of greatest key. *)
Lemma py_max_key_first {A} (key : A → R) (xs : list A) :
  xs ≠ [] →
  ∃ (i : nat) m,
    py_max_key key xs = inr m ∧ xs !! i = Some m ∧
    (∀ y, y ∈ xs → key y <= key m) ∧
    (∀ (j : nat) y, (j < i)%nat → xs !! j = Some y → key y < key m).
Proof.
  destruct xs as [|x xs]; [done|]. intros _. simpl.
  destruct (foldl_max_first key xs x) as (Hall & Hcase). cbv zeta in *.
  destruct Hcase as [[Heq Hle]|(i & Hi & Hbest & Hfirst)].
  - exists 0%nat. eexists. split; [reflexivity|]. rewrite Heq.
    split_and!; [done| |intros j y Hj; lia].
    intros y [->|Hy]%elem_of_cons; [lra|by apply Hle].
  - exists (S i). eexists. split; [reflexivity|]. split_and!; [done| |].
    + intros y [->|Hy]%elem_of_cons; [lra|by apply Hall].
    + intros [|j] y Hj Hy; simpl in Hy.
      * injection Hy as <-. done.
      * apply (Hfirst j); [lia|done].
Qed.

Lemma foldl_max_fmap {A B} (key : B → R) (f : A → B) (xs : list A) (best : A) :
  foldl (λ best y, if decide (key best < key y) then y else best)
        (f best) (f <$> xs) =
  f (foldl (λ best y, if decide (key (f best) < key (f y)) then y else best)
           best xs).
Proof.
  revert best. induction xs as [|x xs IH]; intros best; simpl; [done|].
  destruct (decide _); apply IH.
Qed.

Lemma py_max_key_fmap {A B} (key : B → R) (f : A → B) (xs : list A) :
  py_max_key key (f <$> xs) =
    match py_max_key (λ x, key (f x)) xs with
    | inl e => inl e
    | inr m => inr (f m)
    end.
Proof.
  destruct xs as [|x xs]; simpl; [done|]. f_equal. apply foldl_max_fmap.
Qed.

Lemma py_max_key_ext {A} (key key' : A → R) (xs : list A) :
  (∀ x, key x = key' x) → py_max_key key xs = py_max_key key' xs.
Proof.
  intros Hext. destruct xs as [|x xs]; simpl; [done|]. f_equal.
  revert x. induction xs as [|y xs IH]; intros x; simpl; [done|].
  rewrite !Hext. destruct (decide _); apply IH.
Qed.

(** The report on two known identifiers, in terms of the rounded
    differences on the axes. *)
Lemma distance_report_spec (id1 id2 : string) (a b : gmap string R) :
  assoc PATINA_CANONICAL_STATES id1 = Some a →
  assoc PATINA_CANONICAL_STATES id2 = Some b →
  ∃ d (i : nat) dominant,
    _patina_euclidean_distance a b = Ret d ∧
    py_max_key (λ p, Rabs (axis_diff a b p)) PATINA_PARAMETER_NAMES =
      inr dominant ∧
    PATINA_PARAMETER_NAMES !! i = Some dominant ∧
    (∀ p, p ∈ PATINA_PARAMETER_NAMES →
          Rabs (axis_diff a b p) <= Rabs (axis_diff a b dominant)) ∧
    (∀ (j : nat) p, (j < i)%nat → PATINA_PARAMETER_NAMES !! j = Some p →
          Rabs (axis_diff a b p) < Rabs (axis_diff a b dominant)) ∧
    compute_patina_distance id1 id2 =
      Ret (inr (JDict
        [ ("patina_id_1", JStr id1);
          ("patina_id_2", JStr id2);
          ("euclidean_distance", JFloat (Fin (round4 d)));
          ("per_parameter_diff",
            JDict ((λ p, (p, JFloat (Fin (axis_diff a b p))))
                     <$> PATINA_PARAMETER_NAMES));
          ("abs_per_parameter",
            JDict ((λ p, (p, JFloat (Fin (Rabs (axis_diff a b p)))))
                     <$> PATINA_PARAMETER_NAMES));
          ("max_parameter_diff",
            JFloat (Fin (Rabs (axis_diff a b dominant))));
          ("dominant_axis", JStr dominant) ])).
Proof.
  intros Ha Hb.
  pose proof (canonical_state_valid _ _ Ha) as Hva.
  pose proof (canonical_state_valid _ _ Hb) as Hvb.
  destruct (distance_valid a b Hva Hvb) as [d Hd].
  destruct (py_max_key_first (λ p, Rabs (axis_diff a b p))
              PATINA_PARAMETER_NAMES) as (i & dominant & Hdom & Hi & Hmax & Hfirst);
    [done|].
  exists d, i, dominant. split_and!; [done..|].
  set (diffs := (λ p, (p, axis_diff a b p)) <$> PATINA_PARAMETER_NAMES).
  assert (Hdiffs :
    for_each PATINA_PARAMETER_NAMES
      (λ p, y ← getitem b p; x ← getitem a p; Ret (p, round4 (y - x))) =
    Ret diffs).
  { subst diffs. unfold axis_diff, axis. clear - Hva Hvb.
    destruct (valid_coordinate_inv a Hva) as (e & g & r & j & k & -> & _).
    destruct (valid_coordinate_inv b Hvb) as (e' & g' & r' & j' & k' & -> & _).
    unfold PATINA_PARAMETER_NAMES, for_each, getitem.
    rewrite !mk_state_lookup. simpl. reflexivity. }
  assert (Hround : ∀ p, round4 (Rabs (axis_diff a b p)) = Rabs (axis_diff a b p)).
  { intros p. unfold axis_diff. by rewrite round4_abs, round4_idempotent. }
  unfold compute_patina_distance. rewrite Ha, Hb, Hdiffs.
  cbn [mbind res_bind]. rewrite Hd. cbn [mbind res_bind].
  subst diffs. unfold py_max. rewrite <- !list_fmap_compose.
  rewrite !py_max_key_fmap. cbn [snd compose].
  rewrite Hdom. cbn [fst]. rewrite Hround.
  assert (Habs :
    (prod_map (λ k : string, k) (λ v : R, JFloat (Fin (round4 (Rabs v))))
       ∘ (λ p : string, (p, axis_diff a b p))) <$> PATINA_PARAMETER_NAMES =
    (λ p, (p, JFloat (Fin (Rabs (axis_diff a b p)))))
      <$> PATINA_PARAMETER_NAMES).
  { apply list_fmap_ext. intros _ p _. unfold compose, prod_map.
    cbn [fst snd]. by rewrite Hround. }
  rewrite Habs. reflexivity.
Qed.

Lemma component_le_distance (a b : gmap string R) (p : string) (d : R) :
  has_axes a → has_axes b → p ∈ PATINA_PARAMETER_NAMES →
  _patina_euclidean_distance a b = Ret d →
  Rabs (axis b p - axis a p) <= d.
Proof.
  intros Ha Hb Hp. rewrite distance_axes by done. intros [= <-].
  rewrite <- sqrt_Rsqr_abs. apply sqrt_le_1_alt. unfold Rsqr.
  pose proof (pow2_ge_0 (axis a "exposure_duration" - axis b "exposure_duration")).
  pose proof (pow2_ge_0 (axis a "agent_intensity" - axis b "agent_intensity")).
  pose proof (pow2_ge_0 (axis a "material_resistance" - axis b "material_resistance")).
  pose proof (pow2_ge_0 (axis a "intervention_state" - axis b "intervention_state")).
  pose proof (pow2_ge_0 (axis a "aesthetic_character" - axis b "aesthetic_character")).
  unfold PATINA_PARAMETER_NAMES in Hp. rewrite !elem_of_cons, elem_of_nil in Hp.
  destruct Hp as [->|[->|[->|[->|[->|[]]]]]]; lra.
Qed.

(** X24. The distance report on two known identifiers never raises. It
    holds the rounded distance, the rounded difference on every axis and
    its absolute value; [max_parameter_diff] is the greatest of these
    absolute values, [dominant_axis] is the first axis, in the order of
    the parameter names, that attains it, and the greatest difference on
    one axis never exceeds the reported distance. *)
Theorem distance_report (id1 id2 : string) :
  id1 ∈ keys PATINA_CANONICAL_STATES → id2 ∈ keys PATINA_CANONICAL_STATES →
  ∃ a b d out m dom (i : nat),
    assoc PATINA_CANONICAL_STATES id1 = Some a ∧
    assoc PATINA_CANONICAL_STATES id2 = Some b ∧
    _patina_euclidean_distance a b = Ret d ∧
    compute_patina_distance id1 id2 = Ret (inr out) ∧
    ¬ is_error out ∧
    json_get "euclidean_distance" out = Some (JFloat (Fin (round4 d))) ∧
    json_get "per_parameter_diff" out =
      Some (JDict ((λ p, (p, JFloat (Fin (axis_diff a b p))))
                     <$> PATINA_PARAMETER_NAMES)) ∧
    json_get "abs_per_parameter" out =
      Some (JDict ((λ p, (p, JFloat (Fin (Rabs (axis_diff a b p)))))
                     <$> PATINA_PARAMETER_NAMES)) ∧
    json_get "max_parameter_diff" out = Some (JFloat (Fin m)) ∧
    json_get "dominant_axis" out = Some (JStr dom) ∧
    PATINA_PARAMETER_NAMES !! i = Some dom ∧
    m = Rabs (axis_diff a b dom) ∧
    (∀ p, p ∈ PATINA_PARAMETER_NAMES → Rabs (axis_diff a b p) <= m) ∧
    (∀ (j : nat) p, (j < i)%nat → PATINA_PARAMETER_NAMES !! j = Some p →
       Rabs (axis_diff a b p) < m) ∧
    0 <= m <= round4 d.
Proof.
  intros [a Ha]%assoc_keys [b Hb]%assoc_keys.
  destruct (distance_report_spec id1 id2 a b Ha Hb)
    as (d & i & dom & Hd & _ & Hi & Hmax & Hfirst & Hrun).
  exists a, b, d. eexists _, _, dom, i.
  split_and!; [done|done|done|exact Hrun| |reflexivity..|exact Hi|reflexivity
              |exact Hmax|exact Hfirst|apply Rabs_pos|].
  - intros [x Hx]. discriminate Hx.
  - unfold axis_diff. rewrite <- round4_abs. apply round4_mono.
    apply component_le_distance; [by eapply valid_has_axes, canonical_state_valid..
                                 | |done].
    by eapply list_elem_of_lookup_2.
Qed.

Lemma distance_report_witness :
  ∃ out dom,
    compute_patina_distance "fresh_pristine" "total_ruin" = Ret (inr out) ∧
    json_get "dominant_axis" out = Some (JStr dom).
Proof.
  destruct (distance_report "fresh_pristine" "total_ruin")
    as (a & b & d & out & m & dom & i & _ & _ & _ & Hrun & _ & _ & _ & _ & _
        & Hdom & _).
  - rewrite canonical_keys. elem_of_literal.
  - rewrite canonical_keys. elem_of_literal.
  - exists out, dom. split; assumption.
Defined.

Lemma axis_diff_opp (a b : gmap string R) (p : string) :
  axis_diff b a p = - axis_diff a b p.
Proof.
  unfold axis_diff. rewrite <- round4_opp. f_equal. lra.
Qed.

(** X25. Swapping the two identifiers of a distance report negates the
    difference on every axis and changes nothing else: the distance, the
    absolute differences, the greatest difference and the dominant axis
    are the same. *)
Theorem distance_report_swap (id1 id2 : string) :
  id1 ∈ keys PATINA_CANONICAL_STATES → id2 ∈ keys PATINA_CANONICAL_STATES →
  ∃ a b out12 out21,
    assoc PATINA_CANONICAL_STATES id1 = Some a ∧
    assoc PATINA_CANONICAL_STATES id2 = Some b ∧
    compute_patina_distance id1 id2 = Ret (inr out12) ∧
    compute_patina_distance id2 id1 = Ret (inr out21) ∧
    (∀ k, k ∈ [ "euclidean_distance"; "abs_per_parameter";
                "max_parameter_diff"; "dominant_axis" ] →
          is_Some (json_get k out12) ∧ json_get k out21 = json_get k out12) ∧
    json_get "per_parameter_diff" out12 =
      Some (JDict ((λ p, (p, JFloat (Fin (axis_diff a b p))))
                     <$> PATINA_PARAMETER_NAMES)) ∧
    json_get "per_parameter_diff" out21 =
      Some (JDict ((λ p, (p, JFloat (Fin (- axis_diff a b p))))
                     <$> PATINA_PARAMETER_NAMES)).
Proof.
  intros [a Ha]%assoc_keys [b Hb]%assoc_keys.
  destruct (distance_report_spec id1 id2 a b Ha Hb)
    as (d & i & dom & Hd & Hdom & _ & _ & _ & Hrun).
  destruct (distance_report_spec id2 id1 b a Hb Ha)
    as (d' & i' & dom' & Hd' & Hdom' & _ & _ & _ & Hrun').
  rewrite distance_comm, Hd in Hd'. apply Ret_inj in Hd' as <-.
  rewrite (py_max_key_ext _ (λ p, Rabs (axis_diff a b p))) in Hdom'
    by (intros p; by rewrite axis_diff_opp, Rabs_Ropp).
  rewrite Hdom in Hdom'. assert (dom' = dom) as -> by congruence.
  assert (Habs : ∀ p, Rabs (axis_diff b a p) = Rabs (axis_diff a b p))
    by (intros p; by rewrite axis_diff_opp, Rabs_Ropp).
  assert (Hl1 :
    (λ p, (p, JFloat (Fin (Rabs (axis_diff b a p))))) <$> PATINA_PARAMETER_NAMES =
    (λ p, (p, JFloat (Fin (Rabs (axis_diff a b p))))) <$> PATINA_PARAMETER_NAMES).
  { apply list_fmap_ext. intros _ p _. by rewrite Habs. }
  assert (Hl2 :
    (λ p, (p, JFloat (Fin (axis_diff b a p)))) <$> PATINA_PARAMETER_NAMES =
    (λ p, (p, JFloat (Fin (- axis_diff a b p)))) <$> PATINA_PARAMETER_NAMES).
  { apply list_fmap_ext. intros _ p _. by rewrite axis_diff_opp. }
  rewrite Hl1, Hl2, Habs in Hrun'.
  exists a, b. eexists _, _.
  split_and!; [done|done|exact Hrun|exact Hrun'| |reflexivity..].
  intros k Hk. rewrite !elem_of_cons, elem_of_nil in Hk.
  destruct Hk as [->|[->|[->|[->|[]]]]]; split; try reflexivity; by eexists.
Qed.

Lemma distance_report_swap_witness :
  ∃ out12 out21,
    compute_patina_distance "deep_rust" "cracked_glaze" = Ret (inr out12) ∧
    compute_patina_distance "cracked_glaze" "deep_rust" = Ret (inr out21) ∧
    json_get "dominant_axis" out21 = json_get "dominant_axis" out12.
Proof.
  destruct (distance_report_swap "deep_rust" "cracked_glaze")
    as (a & b & out12 & out21 & _ & _ & H12 & H21 & Hsame & _).
  - rewrite canonical_keys. elem_of_literal.
  - rewrite canonical_keys. elem_of_literal.
  - exists out12, out21. split_and!; [assumption..|].
    apply Hsame. elem_of_literal.
Defined.

(** X26. A canonical state compared with itself: the distance and every
    difference are 0, and the dominant axis is nevertheless reported, as
    the first parameter name. An unknown identifier is rejected, the
    first before the second. *)
Theorem distance_report_self_and_unknown :
  (∀ sid, sid ∈ keys PATINA_CANONICAL_STATES →
     ∃ out,
       compute_patina_distance sid sid = Ret (inr out) ∧
       json_get "euclidean_distance" out = Some (JFloat (Fin 0)) ∧
       json_get "per_parameter_diff" out =
         Some (JDict ((λ p, (p, JFloat (Fin 0))) <$> PATINA_PARAMETER_NAMES)) ∧
       json_get "max_parameter_diff" out = Some (JFloat (Fin 0)) ∧
       json_get "dominant_axis" out = Some (JStr "exposure_duration")) ∧
  (∀ id1 id2, id1 ∉ keys PATINA_CANONICAL_STATES →
     compute_patina_distance id1 id2 = Ret (inr (unknown_state id1))) ∧
  (∀ id1 id2, id1 ∈ keys PATINA_CANONICAL_STATES →
     id2 ∉ keys PATINA_CANONICAL_STATES →
     compute_patina_distance id1 id2 = Ret (inr (unknown_state id2))).
Proof.
  split_and!.
  - intros sid [a Ha]%assoc_keys.
    destruct (distance_report_spec sid sid a a Ha Ha)
      as (d & i & dom & Hd & Hdom & Hi & Hmax & Hfirst & Hrun).
    pose proof (canonical_state_valid _ _ Ha) as Hva.
    rewrite (distance_refl a Hva) in Hd. apply Ret_inj in Hd as <-.
    assert (H0 : round4 0 = 0) by (apply (round4_grid _ 0); lra).
    assert (Hz : ∀ p, axis_diff a a p = 0).
    { intros p. unfold axis_diff. by rewrite Rminus_diag. }
    assert (dom = "exposure_duration") as ->.
    { destruct i as [|i]; [by injection Hi as <-|]. exfalso.
      pose proof (Hfirst 0%nat "exposure_duration" ltac:(lia) eq_refl) as Hlt.
      rewrite !Hz in Hlt. lra. }
    assert (Hl :
      (λ p, (p, JFloat (Fin (axis_diff a a p)))) <$> PATINA_PARAMETER_NAMES =
      (λ p, (p, JFloat (Fin 0))) <$> PATINA_PARAMETER_NAMES).
    { apply list_fmap_ext. intros _ p _. by rewrite Hz. }
    rewrite Hl, Hz, Rabs_R0, H0 in Hrun.
    eexists. split; [exact Hrun|]. by split_and!.
  - intros id1 id2 H1%assoc_None_keys.
    unfold compute_patina_distance. by rewrite H1.
  - intros id1 id2 [a Ha]%assoc_keys H2%assoc_None_keys.
    unfold compute_patina_distance. by rewrite Ha, H2.
Qed.

Lemma distance_report_self_and_unknown_witness :
  ∃ out,
    compute_patina_distance "stone_erosion" "stone_erosion" = Ret (inr out) ∧
    json_get "dominant_axis" out = Some (JStr "exposure_duration").
Proof.
  destruct (proj1 distance_report_self_and_unknown "stone_erosion")
    as (out & Hrun & _ & _ & _ & Hdom).
  - rewrite canonical_keys. elem_of_literal.
  - exists out. split; assumption.
Defined.

(** ** Intent classification *)



Lemma match_patterns_keys (text : string) (table : list (string * list string))
    (k : string) :
  k ∈ match_patterns text table → k ∈ keys table.
Proof.
  unfold match_patterns, keys. intros (entry & -> & Hin)%list_elem_of_fmap.
  apply list_elem_of_In, filter_In in Hin as [Hin _].
  apply list_elem_of_fmap. exists entry. split; [done|].
  by apply list_elem_of_In.
Qed.

Lemma material_pattern_keys : keys material_patterns = keys MATERIAL_CATEGORIES.
Proof. reflexivity. Qed.


Lemma condition_pattern_keys : keys condition_patterns = keys CONDITION_GRADES.
Proof. reflexivity. Qed.

Lemma condition_keys :
  keys CONDITION_GRADES =
    [ "pristine"; "light_weathering"; "moderate_weathering"; "advanced_decay";
      "severe_deterioration"; "ruin" ].
Proof. reflexivity. Qed.

Lemma material_keys :
  keys MATERIAL_CATEGORIES =
    [ "ferrous_metal"; "copper_alloy"; "silver"; "limestone"; "sandstone";
      "wood"; "ceramic_glaze"; "paper_textile"; "paint_coating"; "concrete";
      "glass" ].
Proof. reflexivity. Qed.


(** The condition that [classify_weathering_intent] settles on. *)
Lemma classified_condition_known (text : string) :
  let condition :=
    match conditions (_extract_keywords text) with
    | c :: _ => c
    | [] =>
        if existsb (λ w, py_in w (py_lower text)) [ "old"; "ancient"; "centuries" ]
        then "advanced_decay"
        else if existsb (λ w, py_in w (py_lower text))
                  [ "aged"; "vintage"; "antique" ]
        then "moderate_weathering"
        else if existsb (λ w, py_in w (py_lower text)) [ "new"; "clean"; "fresh" ]
        then "pristine"
        else "moderate_weathering"
    end in
  condition ∈ keys CONDITION_GRADES.
Proof.
  cbv zeta. destruct (conditions (_extract_keywords text)) as [|c cs] eqn:Hc.
  - rewrite condition_keys.
    repeat destruct (existsb _ _); elem_of_literal.
  - rewrite <- condition_pattern_keys.
    apply (match_patterns_keys (py_lower text)).
    change (conditions (_extract_keywords text))
      with (match_patterns (py_lower text) condition_patterns) in Hc.
    rewrite Hc. left.
Qed.



Lemma classify_intent_spec (text : string) :
  ∃ c,
    classify_intent text = Ret c ∧
    cl_matches c = _extract_keywords text ∧
    cl_primary_material c =
      match materials (_extract_keywords text) with
      | m :: _ => m
      | [] => "ferrous_metal"
      end ∧
    assoc MATERIAL_CATEGORIES (cl_primary_material c) = Some (cl_material c) ∧
    cl_primary_agents c =
      match agents (_extract_keywords text) with
      | [] => [ "water"; "uv_solar" ]
      | _ :: _ => agents (_extract_keywords text)
      end ∧
    cl_condition c =
      match conditions (_extract_keywords text) with
      | c :: _ => c
      | [] =>
          if existsb (λ w, py_in w (py_lower text))
               [ "old"; "ancient"; "centuries" ]
          then "advanced_decay"
          else if existsb (λ w, py_in w (py_lower text))
                    [ "aged"; "vintage"; "antique" ]
          then "moderate_weathering"
          else if existsb (λ w, py_in w (py_lower text))
                    [ "new"; "clean"; "fresh" ]
          then "pristine"
          else "moderate_weathering"
      end ∧
    assoc CONDITION_GRADES (cl_condition c) = Some (cl_grade c) ∧
    cl_aesthetic c =
      match aesthetics (_extract_keywords text) with
      | a :: _ => a
      | [] => "wabi_sabi"
      end ∧
    cl_canonical_state c =
      default "gentle_patina" (assoc condition_to_canonical (cl_condition c)) ∧
    cl_confidence c =
      round2 (Rmax (Rmin (IZR (Z.of_nat (total_matches text)) / 5.0) 1.0) 0.3).
Proof.
  unfold classify_intent. cbv zeta.
  pose proof (classified_condition_known text) as Hcond. cbv zeta in Hcond.
  set (condition := match conditions (_extract_keywords text) with
                    | [] => _
                    | c :: _ => c
                    end) in *.
  set (primary_material := match materials (_extract_keywords text) with
                           | [] => "ferrous_metal"
                           | m :: _ => m
                           end).
  assert (Hmat : primary_material ∈ keys MATERIAL_CATEGORIES).
  { subst primary_material.
    destruct (materials (_extract_keywords text)) as [|m ms] eqn:Hm.
    - rewrite material_keys. elem_of_literal.
    - rewrite <- material_pattern_keys.
      apply (match_patterns_keys (py_lower text)).
      change (materials (_extract_keywords text))
        with (match_patterns (py_lower text) material_patterns) in Hm.
      rewrite Hm. left. }
  destruct (assoc_keys _ _ Hmat) as [mat Hmat'].
  destruct (assoc_keys _ _ Hcond) as [grade Hgrade].
  unfold getitem_assoc. rewrite Hmat'. cbn [mbind res_bind].
  rewrite Hgrade. cbn [mbind res_bind].
  eexists. split; [reflexivity|]. cbn [cl_matches cl_primary_material
    cl_material cl_primary_agents cl_condition cl_grade cl_aesthetic
    cl_canonical_state cl_confidence].
  split_and!; try reflexivity; done.
Qed.


Lemma filter_nil_Forall {A} (f : A → bool) (l : list A) :
  List.filter f l = [] → Forall (λ x, f x = false) l.
Proof.
  induction l as [|x l IH]; simpl; [constructor|].
  destruct (f x) eqn:Hx; [discriminate|]. intros Hl. constructor; auto.
Qed.

(** X28. When no condition keyword occurs in the text, the condition is
    inferred from four words only: [old] or [centuries] give
    [advanced_decay], otherwise [antique] gives [moderate_weathering],
    otherwise [clean] gives [pristine], and anything else
    [moderate_weathering]. The other words of the fallback lists
    ([ancient], [aged], [vintage], [new], [fresh]) are condition keywords
    themselves and cannot occur in such a text. *)
Theorem condition_fallback_words (text : string) :
  conditions (_extract_keywords text) = [] →
  ∃ c,
    classify_weathering_intent text = Ret (json_of_classification c) ∧
    cl_condition c =
      (if py_in "old" (py_lower text) || py_in "centuries" (py_lower text)
       then "advanced_decay"
       else if py_in "antique" (py_lower text) then "moderate_weathering"
       else if py_in "clean" (py_lower text) then "pristine"
       else "moderate_weathering") ∧
    ∀ w, w ∈ [ "ancient"; "aged"; "vintage"; "new"; "fresh" ] →
         py_in w (py_lower text) = false.
Proof.
  intros Hnone.
  destruct (classify_intent_spec text)
    as (c & Hrun & _ & _ & _ & _ & Hcond & _).
  rewrite Hnone in Hcond.
  change (conditions (_extract_keywords text))
    with (match_patterns (py_lower text) condition_patterns) in Hnone.
  unfold match_patterns in Hnone. apply fmap_nil_inv in Hnone.
  apply filter_nil_Forall in Hnone. unfold condition_patterns in Hnone.
  repeat match goal with
         | H : Forall _ (_ :: _) |- _ => apply Forall_cons_1 in H as [? H]
         end.
  cbn [snd existsb] in *.
  repeat match goal with
         | H : (_ || _)%bool = false |- _ => apply orb_false_elim in H as [? H]
         end.
  assert (Hwords : ∀ w, w ∈ [ "ancient"; "aged"; "vintage"; "new"; "fresh" ] →
                        py_in w (py_lower text) = false).
  { intros w Hw. rewrite !elem_of_cons, elem_of_nil in Hw.
    destruct Hw as [->|[->|[->|[->|[->|[]]]]]]; assumption. }
  exists c. split_and!.
  - unfold classify_weathering_intent. by rewrite Hrun.
  - rewrite Hcond. cbn [existsb].
    rewrite (Hwords "ancient"), (Hwords "aged"), (Hwords "vintage"),
      (Hwords "new"), (Hwords "fresh") by elem_of_literal.
    destruct (py_in "old" (py_lower text)),
             (py_in "centuries" (py_lower text)),
             (py_in "antique" (py_lower text)),
             (py_in "clean" (py_lower text)); reflexivity.
  - exact Hwords.
Qed.

Lemma condition_fallback_words_witness :
  ∃ c,
    classify_weathering_intent "Gold leaf on a clean frame" =
      Ret (json_of_classification c) ∧
    cl_condition c = "advanced_decay".
Proof.
  destruct (condition_fallback_words "Gold leaf on a clean frame" eq_refl)
    as (c & Hrun & Hcond & _).
  exists c. split; [exact Hrun|exact Hcond].
Defined.

(** ** Parameter mapping *)

Lemma materials_wf :
  Forall (λ it : string * material,
            length (m_visual_markers it.2) = 5%nat ∧
            length (m_color_progression it.2) = 5%nat)
         MATERIAL_CATEGORIES.
Proof. apply (bool_decide_unpack _). vm_compute. exact I. Qed.

Lemma grades_wf :
  Forall (λ it : string * grade, (1 <= c_grade it.2 <= 6)%Z) CONDITION_GRADES.
Proof. apply (bool_decide_unpack _). vm_compute. exact I. Qed.

Lemma grade_state_known (material_id condition_grade : string) :
  condition_grade ∈ keys CONDITION_GRADES →
  default "gentle_patina" (assoc (grade_to_state material_id) condition_grade)
    ∈ keys PATINA_CANONICAL_STATES.
Proof.
  intros Hcg. rewrite condition_keys, !elem_of_cons, elem_of_nil in Hcg.
  rewrite canonical_keys. unfold grade_to_state.
  destruct Hcg as [->|[->|[->|[->|[->|[->|[]]]]]]]; simpl;
    try destruct (String.eqb material_id _); elem_of_literal.
Qed.


Lemma mapping_spec (material_id condition_grade primary_agent intensity
    emphasis : string) (mat : material) (g : grade) :
  assoc MATERIAL_CATEGORIES material_id = Some mat →
  assoc CONDITION_GRADES condition_grade = Some g →
  ∃ water state vtype vdist vdata vocab color,
    assoc WEATHERING_AGENTS "water" = Some water ∧
    assoc PATINA_CANONICAL_STATES
      (default "gentle_patina"
         (assoc (grade_to_state material_id) condition_grade)) = Some state ∧
    _patina_nearest_visual_type state = Ret (Some vtype, Fin vdist) ∧
    assoc PATINA_VISUAL_TYPES vtype = Some vdata ∧
    _patina_select_vocabulary state = Ret vocab ∧
    m_color_progression mat !! Z.to_nat (Z.min (c_grade g - 1) 4) = Some color ∧
    map_weathering_parameters material_id condition_grade primary_agent
        intensity emphasis =
      Ret (JDict
        [ ("material_id", JStr material_id);
          ("material_name", JStr (m_name mat));
          ("condition_grade", JStr condition_grade);
          ("primary_agent", JStr primary_agent);
          ("intensity", JStr intensity);
          ("emphasis", JStr emphasis);
          ("weight", JFloat (Fin (default 1.0 (assoc intensity_weights intensity))));
          ("state", JState state);
          ("nearest_visual_type", JStr vtype);
          ("visual_distance", JFloat (Fin (round4 vdist)));
          ("optical_properties",
            JDict (prod_map (λ k, k) JStr <$> optical vdata));
          ("current_color_stage", JStr color);
          ("material_specific_markers",
            json_strs
              (py_slice (m_visual_markers mat)
                 (Z.max 0 (Z.min (c_grade g - 1) 4 - 1))
                 (Z.min (c_grade g - 1) 4 + 2)));
          ("agent_visual_indicators",
            json_strs
              (g_visual_indicators
                 (default water (assoc WEATHERING_AGENTS primary_agent))));
          ("primary_vocabulary",
            json_strs
              (default []
                 (assoc vocab
                    (default "surface_texture" (assoc emphasis_map emphasis)))));
          ("full_vocabulary", JDict (prod_map (λ k, k) json_strs <$> vocab));
          ("keywords", json_strs (keywords vdata));
          ("color_associations", json_strs (color_associations vdata)) ]).
Proof.
  intros Hmat Hg.
  pose proof (proj1 (Forall_forall _ _) materials_wf _ (assoc_elem_of _ _ _ Hmat))
    as [Hmarkers Hcolors]. cbn [snd] in Hmarkers, Hcolors.
  pose proof (proj1 (Forall_forall _ _) grades_wf _ (assoc_elem_of _ _ _ Hg))
    as Hgrade. cbn [snd] in Hgrade.
  destruct (assoc WEATHERING_AGENTS "water") as [water|] eqn:Hwater;
    [|discriminate Hwater].
  assert (Hcg : condition_grade ∈ keys CONDITION_GRADES).
  { destruct (decide (condition_grade ∈ keys CONDITION_GRADES)) as [|Hn];
      [done|]. apply assoc_None_keys in Hn. congruence. }
  destruct (assoc_keys _ _ (grade_state_known material_id _ Hcg))
    as [state Hstate].
  pose proof (valid_has_axes _ (canonical_state_valid _ _ Hstate)) as Hax.
  destruct (nearest_visual_type_ret _ Hax) as (vtype & vdist & Hv & Hin & _).
  destruct (assoc_keys _ _ Hin) as [vdata Hvdata].
  destruct (select_vocabulary_spec _ Hax) as (vocab & Hvocab & _).
  destruct (lookup_lt_is_Some_2 (m_color_progression mat)
              (Z.to_nat (Z.min (c_grade g - 1) 4))) as [color Hcolor]; [lia|].
  exists water, state, vtype, vdist, vdata, vocab, color.
  split_and!; [done..|].
  unfold map_weathering_parameters. rewrite Hmat, Hg.
  unfold getitem_assoc. rewrite Hwater. cbn [mbind res_bind].
  rewrite Hstate. cbn [mbind res_bind]. rewrite Hv. cbn [mbind res_bind].
  unfold visual_type_data, getitem_assoc. rewrite Hvdata. cbn [mbind res_bind].
  rewrite Hvocab. cbn [mbind res_bind]. cbv zeta.
  rewrite Hmarkers, Hcolors. change (Z.of_nat 5 - 1)%Z with 4%Z.
  rewrite (py_index_lookup _ _ color) by (lia || done).
  reflexivity.
Qed.



(** ** The synthesis interface *)

Lemma elem_of_keys_dec {V} (l : list (string * V)) (k : string) :
  k ∈ keys l ∨ assoc l k = None.
Proof.
  destruct (assoc l k) as [v|] eqn:Hk; [left|by right].
  apply assoc_elem_of in Hk. unfold keys. apply list_elem_of_fmap.
  by exists (k, v).
Qed.

(** X30. The two overrides of [enhance_patina_prompt] fail differently. An
    unknown material override makes the call raise [KeyError], although
    the parameter mapping has already answered with an error record; an
    unknown condition override does not: the call succeeds and carries the
    error record of the mapping as its [weathering_specification]. With
    no override, or an empty one, or a known one, the call succeeds with a
    proper specification, whatever the text and the intensity. *)
Theorem enhance_overrides (text intensity : string) :
  (∀ m condition_override,
     m ≠ "" → m ∉ keys MATERIAL_CATEGORIES →
     enhance_patina_prompt text (Some m) condition_override intensity =
       Raise (KeyError m)) ∧
  (∀ material_override condition_override,
     (∀ m, material_override = Some m →
           m = "" ∨ m ∈ keys MATERIAL_CATEGORIES) →
     ∃ out params,
       enhance_patina_prompt text material_override condition_override
         intensity = Ret out ∧
       ¬ is_error out ∧
       json_get "weathering_specification" out = Some params ∧
       (is_error params ↔
        ∃ c, condition_override = Some c ∧ c ≠ "" ∧
             c ∉ keys CONDITION_GRADES) ∧
       (∀ c, condition_override = Some c → c ≠ "" →
             c ∉ keys CONDITION_GRADES →
             params =
               JDict [ ("error", JStr ("Unknown grade: " +:+ c));
                       ("available", json_strs (keys CONDITION_GRADES)) ])).
Proof.
  destruct (classify_intent_spec text)
    as (c & Hrun & _ & _ & Hmat & _ & _ & Hgrade & _).
  split.
  - intros m co Hne Hm%assoc_None_keys.
    unfold enhance_patina_prompt. rewrite Hrun. cbn [mbind res_bind].
    cbv zeta. unfold or_else at 1 2.
    destruct (String.eqb_spec m ""); [done|].
    unfold map_weathering_parameters. rewrite Hm. cbn [mbind res_bind].
    unfold getitem_assoc. by rewrite Hm.
  - intros mo co Hmo.
    set (material_id := or_else mo (cl_primary_material c)).
    set (condition := or_else co (cl_condition c)).
    assert (Hmid : ∃ mat, assoc MATERIAL_CATEGORIES material_id = Some mat).
    { subst material_id. unfold or_else. destruct mo as [m|]; [|by eexists].
      destruct (String.eqb_spec m "") as [->|Hne]; [by eexists|].
      destruct (Hmo m eq_refl) as [?|Hin]; [done|]. by apply assoc_keys. }
    destruct Hmid as [mat Hmid].
    assert (Hcases :
      (assoc CONDITION_GRADES condition = None ∧
       ∃ c0, co = Some c0 ∧ c0 ≠ "" ∧ condition = c0) ∨
      (∃ g, assoc CONDITION_GRADES condition = Some g)).
    { subst condition. unfold or_else. destruct co as [c0|]; [|right; by eexists].
      destruct (String.eqb_spec c0 "") as [->|Hne]; [right; by eexists|].
      destruct (assoc CONDITION_GRADES c0) as [g|] eqn:Hc0;
        [right; by eexists|left]. split; [done|]. by exists c0. }
    unfold enhance_patina_prompt. rewrite Hrun. cbn [mbind res_bind].
    cbv zeta. fold material_id. fold condition.
    destruct Hcases as [[Hnone (c0 & -> & Hne & Hc0)]|[g Hg]].
    + unfold map_weathering_parameters. rewrite Hmid, Hnone.
      cbn [mbind res_bind]. unfold getitem_assoc. rewrite Hmid.
      cbn [mbind res_bind]. eexists _, _. split; [reflexivity|].
      split_and!.
      * intros [x Hx]. discriminate Hx.
      * reflexivity.
      * split; [|intros _; by eexists].
        intros _. exists c0. split_and!; [done..|].
        apply assoc_None_keys. by rewrite <- Hc0.
      * intros c1 [= <-] _ _. by rewrite Hc0.
    + destruct (mapping_spec material_id condition
                  match cl_primary_agents c with
                  | [] => "water"
                  | a :: _ => a
                  end intensity "surface" mat g Hmid Hg)
        as (water & state & vtype & vdist & vdata & vocab & color
            & _ & _ & _ & _ & _ & _ & Hmap).
      rewrite Hmap. cbn [mbind res_bind]. unfold getitem_assoc. rewrite Hmid.
      cbn [mbind res_bind]. eexists _, _. split; [reflexivity|].
      assert (Hknown : condition ∈ keys CONDITION_GRADES).
      { destruct (elem_of_keys_dec CONDITION_GRADES condition) as [|Hn];
          [done|congruence]. }
      split_and!.
      * intros [x Hx]. discriminate Hx.
      * reflexivity.
      * split; [intros [x Hx]; discriminate Hx|].
        intros (c0 & -> & Hne & Hc0). exfalso. apply Hc0.
        subst condition. unfold or_else in Hknown.
        by destruct (String.eqb_spec c0 "").
      * intros c0 -> Hne Hc0. exfalso. apply Hc0.
        subst condition. unfold or_else in Hknown.
        by destruct (String.eqb_spec c0 "").
Qed.

Lemma enhance_overrides_witness :
  enhance_patina_prompt "weathered bronze statue" (Some "granite") None "subtle"
    = Raise (KeyError "granite").
Proof.
  apply (proj1 (enhance_overrides "weathered bronze statue" "subtle")).
  - discriminate.
  - apply assoc_None_keys. reflexivity.
Defined.
